(** * Base-Rag-NLP: installation loader and relevance filter

    A shallow embedding of the TypeScript sources

    - [loadDocumentsJSON], [buildAreaPartitionMaps],
      [buildEndpointAreaRelations], [getFallbackDocument]
      (core/retrieval/loaders/loadDocumentJSON3 copy.ts), and
    - [filterByContentRelevance] and [saveResponse] (config/RAGNLP.ts),

    together with the properties of the specification that concern them,
    and with further properties of the same functions.

    Conventions of the embedding.

    - A JavaScript Number is an IEEE 754 binary64 value, modelled by
      [spec_float] with the operations of [SpecFloat] at precision 53.
    - A JavaScript string is a [string] whose characters are the code units
      U+0000 to U+00FF; case mapping and white space are those of ECMAScript
      on that range.  A text that holds a code unit above U+00FF is not in
      the embedding: there, lower-casing can change the length of a text
      (it does for U+0130), and no property below relies on the length of
      a lower-cased text.
    - Values read from the configuration are untyped ([any] in the source):
      they are [JSValue]s, and objects carry the reference that JavaScript
      compares them by.
    - [console] output is a list of structured entries; exceptions are
      explicit outcomes.  A template literal, [join], the key of
      [Object.fromEntries] and the operand of [>] convert a value to a
      string or to a primitive, and the conversion throws a TypeError for
      an object that owns a property named [toString] (which is never a
      function in a value of [JSON.parse]): see [printable].
    - The services of the host ([JSON.parse], [JSON.stringify], the numeric
      coercion of [>]) are the fields of the class [Runtime]. *)

From Stdlib Require Import ZArith Lia Bool List String Ascii.
From Stdlib Require Import SpecFloat PrimFloat FloatOps.
From stdpp Require Import base list strings.
Import ListNotations.

#[local] Set Warnings "-register-all".

(** ** Numbers *)

Module Number.

Definition prec : Z := 53.
Definition emax : Z := 1024.

(** The Number of a length or of a counter. *)
Definition of_nat (n : nat) : spec_float :=
  binary_normalize prec emax (Z.of_nat n) 0 false.

(** [x / y] *)
Definition div (x y : spec_float) : spec_float := SFdiv prec emax x y.

(** [x + y] *)
Definition add (x y : spec_float) : spec_float := SFadd prec emax x y.

(** [x >= y] and [x > y]: false as soon as an operand is NaN. *)
Definition geb (x y : spec_float) : bool := SFleb y x.
Definition gtb (x y : spec_float) : bool := SFltb y x.

(** [x === y] on Numbers. *)
Definition strictEq (x y : spec_float) : bool := SFeqb x y.

(** SameValueZero on Numbers: as [===], but NaN equals NaN. *)
Definition sameValueZero (x y : spec_float) : bool :=
  match x, y with
  | S754_nan, S754_nan => true
  | _, _ => SFeqb x y
  end.

Definition isNaN (x : spec_float) : bool :=
  match x with S754_nan => true | _ => false end.

Definition isFinite (x : spec_float) : bool :=
  match x with S754_zero _ | S754_finite _ _ _ => true | _ => false end.

Definition zero : spec_float := S754_zero false.
Definition one : spec_float := S754_finite false 4503599627370496 (-52).

(** The literals [0.3], [0.2] and [1.01], rounded to binary64. *)
Definition lit_0_3 : spec_float := S754_finite false 5404319552844595 (-54).
Definition lit_0_2 : spec_float := S754_finite false 7205759403792794 (-55).
Definition lit_1_01 : spec_float := S754_finite false 4548635623644201 (-52).

(** Mantissa bounds of a normal binary64 number. *)
Definition two52 : positive := 4503599627370496.
Definition two53 : positive := 9007199254740992.

Definition is_canonical53 (m : positive) : Prop :=
  (Z.pos two52 <= Z.pos m < Z.pos two53)%Z.

(** The Numbers from [+0] to [1.0]. *)
Definition in_unit_interval (x : spec_float) : Prop :=
  match x with
  | S754_zero _ => True
  | S754_finite false m e => (e < -52)%Z \/ (e = (-52)%Z /\ m = two52)
  | _ => False
  end.

End Number.

(** ** Strings *)

Module JSString.

(** White space and line terminators below U+0100: TAB, LF, VT, FF, CR,
    SPACE and NO-BREAK SPACE.  This is the class [\s] and what [trim]
    removes. *)
Definition isWhiteSpace (c : ascii) : bool :=
  let n := nat_of_ascii c in
  ((9 <=? n) && (n <=? 13)) || (n =? 32) || (n =? 160).

(** Lower-casing of one code unit: A-Z, and U+00C0-U+00DE but U+00D7. *)
Definition lowerChar (c : ascii) : ascii :=
  let n := nat_of_ascii c in
  if ((65 <=? n) && (n <=? 90))
     || ((192 <=? n) && (n <=? 222) && negb (n =? 215))
  then ascii_of_nat (n + 32) else c.

Fixpoint toLowerCase (s : string) : string :=
  match s with
  | EmptyString => EmptyString
  | String c s' => String (lowerChar c) (toLowerCase s')
  end.

Fixpoint trimStart (s : string) : string :=
  match s with
  | EmptyString => EmptyString
  | String c s' => if isWhiteSpace c then trimStart s' else s
  end.

Fixpoint trimEnd (s : string) : string :=
  match s with
  | EmptyString => EmptyString
  | String c s' =>
      let r := trimEnd s' in
      if isWhiteSpace c
      then match r with EmptyString => EmptyString | _ => String c r end
      else String c r
  end.

Definition trim (s : string) : string := trimEnd (trimStart s).

(** [s.split(/\s+/)]: [cur] is the piece being read, [gap] tells that the
    previous character was white space.  A separator at either end leaves
    an empty piece there, and the empty string splits into one empty
    piece. *)
Fixpoint splitLoop (s cur : string) (gap : bool) : list string :=
  match s with
  | EmptyString => [cur]
  | String c s' =>
      if isWhiteSpace c
      then if gap then splitLoop s' cur true
           else cur :: splitLoop s' EmptyString true
      else splitLoop s' (cur +:+ String c EmptyString) false
  end.

Definition splitWhiteSpace (s : string) : list string :=
  splitLoop s EmptyString false.

(** [s.includes(t)] *)
Fixpoint includes (s t : string) : bool :=
  String.prefix t s
  || match s with
     | EmptyString => false
     | String _ s' => includes s' t
     end.

(** [s.substring(0, 8)] and [s.substring(2, 9)] *)
Definition substring_0_8 (s : string) : string := String.substring 0 8 s.
Definition substring_2_9 (s : string) : string := String.substring 2 7 s.

End JSString.

(** ** Values *)

(** What [JSON.parse] builds, and [undefined], which reading an absent
    property gives.  [ref] is the identity of an array or of an object:
    two of them are the same value only when they are the same
    reference. *)
Inductive JSValue : Type :=
| JUndefined
| JNull
| JBool (b : bool)
| JNumber (x : spec_float)
| JString (s : string)
| JArray (ref : nat) (items : list JSValue)
| JObject (ref : nat) (props : list (string * JSValue)).

Inductive JSType : Type :=
| TUndefined | TObject | TBoolean | TNumber | TString.

Definition typeof (v : JSValue) : JSType :=
  match v with
  | JUndefined => TUndefined
  | JNull => TObject
  | JBool _ => TBoolean
  | JNumber _ => TNumber
  | JString _ => TString
  | JArray _ _ | JObject _ _ => TObject
  end.

Definition isTObject (t : JSType) : bool :=
  match t with TObject => true | _ => false end.

(** ToBoolean *)
Definition truthy (v : JSValue) : bool :=
  match v with
  | JUndefined | JNull => false
  | JBool b => b
  | JNumber x =>
      match x with
      | S754_zero _ | S754_nan => false
      | _ => true
      end
  | JString s => negb (String.eqb s EmptyString)
  | JArray _ _ | JObject _ _ => true
  end.

Definition nullish (v : JSValue) : bool :=
  match v with JUndefined | JNull => true | _ => false end.

(** [Array.isArray] *)
Definition isArray (v : JSValue) : bool :=
  match v with JArray _ _ => true | _ => false end.

(** The elements of an array; nothing for any other value. *)
Definition arrayItems (v : JSValue) : list JSValue :=
  match v with JArray _ items => items | _ => [] end.

Fixpoint lookupProp (props : list (string * JSValue)) (k : string) : JSValue :=
  match props with
  | [] => JUndefined
  | (k', v) :: rest => if String.eqb k' k then v else lookupProp rest k
  end.

(** [v.k], for [v] neither [null] nor [undefined] and [k] one of the data
    properties the sources read ([endpoints], [areas], [metadata], [uuid],
    [name], [partitions], [category], [length], [revision], [major],
    [minor]).  A string and an array own [length]; a boolean and a number
    own none of them. *)
Definition getProp (v : JSValue) (k : string) : JSValue :=
  match v with
  | JObject _ props => lookupProp props k
  | JArray _ items =>
      if String.eqb k "length" then JNumber (Number.of_nat (length items))
      else JUndefined
  | JString s =>
      if String.eqb k "length" then JNumber (Number.of_nat (String.length s))
      else JUndefined
  | _ => JUndefined
  end.

(** [v?.k] *)
Definition getPropOpt (v : JSValue) (k : string) : JSValue :=
  if nullish v then JUndefined else getProp v k.

(** [a || b] *)
Definition orElse (a b : JSValue) : JSValue := if truthy a then a else b.

(** SameValueZero, the equality of [Array.prototype.includes] and of the
    keys of a [Map]. *)
Definition sameValueZero (a b : JSValue) : bool :=
  match a, b with
  | JUndefined, JUndefined => true
  | JNull, JNull => true
  | JBool x, JBool y => Bool.eqb x y
  | JNumber x, JNumber y => Number.sameValueZero x y
  | JString x, JString y => String.eqb x y
  | JArray r _, JArray r' _ => Nat.eqb r r'
  | JObject r _, JObject r' _ => Nat.eqb r r'
  | _, _ => false
  end.

(** [v === n] for a Number [n] *)
Definition strictEqNumber (v : JSValue) (n : spec_float) : bool :=
  match v with
  | JNumber x => Number.strictEq x n
  | _ => false
  end.

(** [props] holds an own property named [k]. *)
Definition hasOwn (props : list (string * JSValue)) (k : string) : bool :=
  existsb (fun entry => String.eqb (fst entry) k) props.

(** ToString and ToPrimitive return for [v].  A primitive is always
    converted.  An object is converted by [Object.prototype.toString]
    unless it owns a [toString], which [JSON.parse] never makes a
    function: then [valueOf] gives the object back, or is not a function
    either, and the conversion throws a TypeError.  An array is converted
    by [join], which converts each element that is neither [null] nor
    [undefined]. *)
Fixpoint printable (v : JSValue) : bool :=
  match v with
  | JObject _ props => negb (hasOwn props "toString")
  | JArray _ items => forallb printable items
  | _ => true
  end.

(** [items.includes(v)] *)
Definition Array_includes (items : list JSValue) (v : JSValue) : bool :=
  existsb (fun x => sameValueZero x v) items.

(** ** Exceptions *)

Inductive JSError : Type :=
| Error (message : string)
| TypeError.

Inductive Outcome (A : Type) : Type :=
| Returned (a : A)
| Thrown (e : JSError).
Arguments Returned {A} a.
Arguments Thrown {A} e.

(** ** The records of the loader *)

Module Partition.
(** [{ uuid, name }], an entry of [AreaPartitionMap.partitions] *)
Record t : Type := mk { uuid : JSValue; name : JSValue }.
End Partition.

Module AreaPartitionMap.
Record t : Type := mk {
  areaUuid : JSValue;
  areaName : JSValue;
  partitions : list Partition.t
}.
End AreaPartitionMap.

Module EndpointAreaRelation.
Record t : Type := mk {
  endpointUuid : JSValue;
  endpointName : JSValue;
  areaUuid : JSValue;
  areaName : JSValue;
  partitionUuids : list JSValue;
  location : list JSValue
}.
End EndpointAreaRelation.

(** A [Map]: its entries in insertion order, keys compared by
    SameValueZero. *)
Module JSMap.

Definition t (V : Type) : Type := list (JSValue * V).

Definition empty {V : Type} : t V := [].

Fixpoint get {V : Type} (m : t V) (k : JSValue) : option V :=
  match m with
  | [] => None
  | (k', v) :: rest => if sameValueZero k' k then Some v else get rest k
  end.

Definition has {V : Type} (m : t V) (k : JSValue) : bool :=
  match get m k with Some _ => true | None => false end.

(** [m.set(k, v)]: the value of a present key is replaced where it
    stands, a new key goes last. *)
Fixpoint set {V : Type} (m : t V) (k : JSValue) (v : V) : t V :=
  match m with
  | [] => [(k, v)]
  | (k', v') :: rest =>
      if sameValueZero k' k then (k', v) :: rest
      else (k', v') :: set rest k v
  end.

Definition size {V : Type} (m : t V) : nat := length m.

Definition keys {V : Type} (m : t V) : list JSValue := fst <$> m.

(** No two entries under the same key. *)
Fixpoint uniqueKeys {V : Type} (m : t V) : Prop :=
  match m with
  | [] => True
  | (k, _) :: rest =>
      Forall (fun entry => sameValueZero k (fst entry) = false) rest
      /\ uniqueKeys rest
  end.

End JSMap.

(** [Map<string, string>], partition identifier to partition name *)
Definition PartitionMap : Type := JSMap.t JSValue.

Inductive DocumentType : Type := installation_config.
Inductive ChunkType : Type := summary | detail | area | fallback.
Inductive ChunkStrategy : Type := two_stage | standard.

Module EndpointMetadata.
(** The fields of the interface that the loader sets.  A field filled
    from the configuration holds a [JSValue] ([JUndefined] when it is
    not set); a field filled with a literal is typed, and [None] when it
    is not set. *)
Record t : Type := mk {
  source : string;
  loc : string;
  type : DocumentType;
  isValid : bool;
  timestamp : string;
  chunkType : ChunkType;
  uuid : option string;
  name : JSValue;
  category : option Z;
  visualizationType : option string;
  categoryName : option string;
  partitions : option (list string);
  location : option (list string);
  areaNames : option (list string);
  areaUuids : option (list string);
  id : option string;
  parametersCount : option nat;
  defaultParameter : option string;
  chunkStrategy : option ChunkStrategy;
  visualizationCategory : option string;
  deviceType : string;
  hasAreaInfo : option bool;
  totalEndpoints : JSValue;
  totalAreas : JSValue;
  hasPartitions : option bool;
  installationName : JSValue;
  revision : JSValue;
  minor : JSValue;
  major : JSValue
}.
End EndpointMetadata.

Module ExtendDocument.
Record t : Type := mk {
  pageContent : string;
  metadata : EndpointMetadata.t;
  readableText : option string
}.
End ExtendDocument.

Module LoadDocumentResult.
Record t : Type := mk {
  documents : list ExtendDocument.t;
  partitionMap : PartitionMap
}.
End LoadDocumentResult.

Module Statistics.
(** The counts are lengths of arrays and the size of a map; the two
    totals are read from the configuration with [?.length || 0]. *)
Record t : Type := mk {
  totalEndpoints : JSValue;
  totalAreas : JSValue;
  totalPartitions : nat;
  sensorCount : nat;
  actuatorCount : nat;
  controllerCount : nat
}.
End Statistics.

Module InstallationContent.
(** The object that becomes the payload of the summary document; its
    [type] is always ["installation-config"]. *)
Record t : Type := mk {
  metadata : JSValue;
  statistics : Statistics.t;
  endpoints : JSValue;
  areas : JSValue;
  globalPartitionMap : PartitionMap
}.
End InstallationContent.

(** The two objects handed to [JSON.stringify]. *)
Inductive Payload : Type :=
| InstallationPayload (content : InstallationContent.t)
| FallbackPayload (error message fallbackType : string).

(** ** The host *)

Class Runtime : Type := {
  (** [JSON.parse]; [None] when it throws a SyntaxError *)
  JSON_parse : string -> option JSValue;
  (** [JSON.stringify] *)
  JSON_stringify : Payload -> string;
  (** ToNumber, used on strings, arrays and objects only *)
  ToNumber : JSValue -> spec_float
}.

(** What one call of the loader reads from outside. *)
Module Env.
Record t : Type := mk {
  (** [await fs.readFile(filePath, 'utf-8')]; [None] when it rejects *)
  fileContent : option string;
  (** [new Date().toISOString()] *)
  now : string;
  (** [Math.random().toString(36)] *)
  random36 : string
}.
End Env.

(** ** The console *)

Inductive Level : Type := LOG | WARN | ERROR.

(** One constructor for each message of the sources, holding the values
    the message prints. *)
Inductive Message : Type :=
| MDocumentNotFound
| MEmptyDocument
| MParsingFailed
| MNoValidEndpoint
| MDataStructure (endpoints areas : JSValue)
| MSingleDocumentCreated
| MNoAreas
| MAreaInvalid (index : nat) (area : JSValue)
| MAreaMissingUuidOrName (index : nat) (uuid name : JSValue)
| MPartitionNull (partIndex : nat) (areaName : JSValue)
| MPartitionIncomplete (partIndex : nat) (areaName : JSValue)
| MMappedArea (areaName : JSValue) (partitions : nat)
| MAreaError (index : nat) (e : JSError)
| MAreaMapsCreated (maps : nat)
| MBuildingRelations
| MNoAreasForRelations
| MNoPartitionMaps
| MAreasToProcess (areas maps : nat)
| MProcessedAreas (areas : JSValue) (maps : list AreaPartitionMap.t)
| MEndpointInvalid (endpointIndex : nat)
| MAlreadyMapped (endpointUuid existingAreaName areaName : JSValue)
| MRelationCreated (endpointName areaName : JSValue) (shared : nat)
| MEndpointError (endpointIndex : nat) (e : JSError)
| MReport
| MEndpointsProcessed (n : nat)
| MRelationsCreated (n : nat)
| MUniqueRelations (n : nat)
| MFirstRelations
| MRelationLine (count : nat) (endpointName areaName : JSValue)
| MRelationUuid (uuid : JSValue)
| MRelationShared (location : list JSValue)
| MNoRelations
| MDebugHint
| MPartitionsByArea
| MAreaPartitions (areaName : JSValue) (names : list JSValue)
| MPartitionsByEndpoint
| MEndpointPartitions (name : JSValue) (partitions : list JSValue).

Definition LogEntry : Type := Level * Message.

(** ** Computations that print and may throw *)

Definition Run (A : Type) : Type := list LogEntry * Outcome A.

#[export] Instance Run_ret : MRet Run := fun A a => ([], Returned a).

#[export] Instance Run_bind : MBind Run := fun A B f m =>
  match m with
  | (lg, Returned a) => let '(lg', o) := f a in (lg ++ lg', o)
  | (lg, Thrown e) => (lg, Thrown e)
  end.

Definition throw {A : Type} (e : JSError) : Run A := ([], Thrown e).
Definition tell (l : Level) (m : Message) : Run unit := ([(l, m)], Returned tt).
Definition tellAll (lg : list LogEntry) : Run unit := (lg, Returned tt).

(** A call of [console] whose template converts [values] to strings:
    nothing is printed when a conversion throws. *)
Definition tellWith (values : list JSValue) (l : Level) (m : Message)
    : Run unit :=
  if forallb printable values then tell l m else throw TypeError.

Definition console {A : Type} (r : Run A) : list LogEntry := fst r.
Definition outcome {A : Type} (r : Run A) : Outcome A := snd r.

(** [for (const x of l) body(x)], stopping at the first exception *)
Fixpoint forEach {A : Type} (body : A -> Run unit) (l : list A) : Run unit :=
  match l with
  | [] => mret tt
  | x :: rest => _ ← body x; forEach body rest
  end.

(** [for (const [index, x] of l.entries()) body(index, x)], stopping at
    the first exception *)
Fixpoint forEachEntry {A : Type} (body : nat -> A -> Run unit) (index : nat)
    (l : list A) : Run unit :=
  match l with
  | [] => mret tt
  | x :: rest => _ ← body index x; forEachEntry body (S index) rest
  end.

(** The same loop with a body that either pushes one result or goes on
    to the next entry: the results that were pushed, unless an exception
    ends the loop *)
Fixpoint forEntriesRun {A B : Type} (body : nat -> A -> Run (option B))
    (index : nat) (l : list A) : Run (list B) :=
  match l with
  | [] => mret []
  | x :: rest =>
      r ← body index x;
      rs ← forEntriesRun body (S index) rest;
      mret (match r with Some b => b :: rs | None => rs end)
  end.

(** [for (const [index, x] of l.entries())] with a body that catches its
    exceptions: it prints and then either pushes one result or goes on
    to the next entry *)
Fixpoint forEntries {A B : Type} (body : nat -> A -> list LogEntry * option B)
    (index : nat) (l : list A) : list LogEntry * list B :=
  match l with
  | [] => ([], [])
  | x :: rest =>
      let '(lg, r) := body index x in
      let '(lg', rs) := forEntries body (S index) rest in
      (lg ++ lg', match r with Some b => b :: rs | None => rs end)
  end.

(** ** The relevance filter (config/RAGNLP.ts) *)

(** [query.toLowerCase().split(/\s+/).filter(term => term.length > 2)] *)
Definition queryTerms (query : string) : list string :=
  List.filter (fun term => 2 <? String.length term)
    (JSString.splitWhiteSpace (JSString.toLowerCase query)).

(** [score] after the [forEach] over the terms: it starts at 0 and goes
    up by 1 for each term that the content includes. *)
Definition score (content : string) (queryTerms : list string) : spec_float :=
  fold_left
    (fun score term =>
       if JSString.includes content term then Number.add score Number.one
       else score)
    queryTerms Number.zero.

(** How many of the terms the content includes *)
Definition includedTerms (content : string) (queryTerms : list string) : nat :=
  length (List.filter (JSString.includes content) queryTerms).

(** [score / queryTerms.length] *)
Definition relevanceScore (queryTerms : list string) (doc : ExtendDocument.t)
    : spec_float :=
  let content := JSString.toLowerCase (ExtendDocument.pageContent doc) in
  Number.div (score content queryTerms) (Number.of_nat (length queryTerms)).

Definition filterByContentRelevance (docs : list ExtendDocument.t)
    (query : string) (threshold : spec_float) : list ExtendDocument.t :=
  let queryTerms := queryTerms query in
  List.filter
    (fun doc => Number.geb (relevanceScore queryTerms doc) threshold)
    docs.

(** The default of [threshold] (0.2 in the later copy of the file). *)
Definition threshold_default : spec_float := Number.lit_0_3.

(** ** The area-partition maps *)

(** [partitionUuid] and [partitionName] of a partition entry that is not
    null: a string stands for its own identifier and is named after its
    first eight characters, anything else is read as an object. *)
Definition resolvePartition (partition : JSValue) : JSValue * JSValue :=
  match partition with
  | JString s =>
      (partition, JString ("Partition_" +:+ JSString.substring_0_8 s))
  | _ => (getProp partition "uuid", getProp partition "name")
  end.

(** The body of the loop over [area.partitions]: both warnings print the
    name of the area. *)
Definition mapPartition (areaName : JSValue) (partIndex : nat)
    (partition : JSValue) : Run (option Partition.t) :=
  if negb (truthy partition)
  then
    _ ← tellWith [areaName] WARN (MPartitionNull partIndex areaName);
    mret None
  else
    let '(partitionUuid, partitionName) := resolvePartition partition in
    if truthy partitionUuid && truthy partitionName
    then mret (Some (Partition.mk partitionUuid partitionName))
    else
      _ ← tellWith [areaName] WARN (MPartitionIncomplete partIndex areaName);
      mret None.

(** The test that lets an area through: a non-null object with a truthy
    [uuid] and a truthy [name]. *)
Definition areaIsObject (area : JSValue) : bool :=
  truthy area && isTObject (typeof area).

Definition areaHasUuidAndName (area : JSValue) : bool :=
  truthy (getProp area "uuid") && truthy (getProp area "name").

(** The body of the loop over [jsonContent.areas], with its [try] and
    [catch].  An exception in the loop over the partitions leaves the
    area without a map; the map is pushed before the line that prints
    the name of the area, so that an exception in that line leaves the
    map where it is. *)
Definition mapArea (index : nat) (area : JSValue)
    : list LogEntry * option AreaPartitionMap.t :=
  if negb (areaIsObject area)
  then ([(WARN, MAreaInvalid index area)], None)
  else if negb (areaHasUuidAndName area)
  then ([(WARN, MAreaMissingUuidOrName index
                  (getProp area "uuid") (getProp area "name"))], None)
  else
    match
      (if isArray (getProp area "partitions")
       then forEntriesRun (mapPartition (getProp area "name")) 0
              (arrayItems (getProp area "partitions"))
       else mret [])
    with
    | (lg, Thrown error) => (lg ++ [(ERROR, MAreaError index error)], None)
    | (lg, Returned partitions) =>
        let areaMap :=
          AreaPartitionMap.mk (getProp area "uuid") (getProp area "name")
            partitions in
        match
          tellWith [getProp area "name"] LOG
            (MMappedArea (getProp area "name") (length partitions))
        with
        | (lg', Thrown error) =>
            (lg ++ lg' ++ [(ERROR, MAreaError index error)], Some areaMap)
        | (lg', Returned _) => (lg ++ lg', Some areaMap)
        end
    end.

(** An area that passes both tests *)
Definition areaAccepted (area : JSValue) : bool :=
  areaIsObject area && areaHasUuidAndName area.

(** What a partition entry leaves in the map of its area: nothing for
    an entry that is falsy or incomplete *)
Definition partitionOf (partition : JSValue) : option Partition.t :=
  if truthy partition
  then
    let '(partitionUuid, partitionName) := resolvePartition partition in
    if truthy partitionUuid && truthy partitionName
    then Some (Partition.mk partitionUuid partitionName)
    else None
  else None.

(** The map of an area: the partitions of its entries, in order *)
Definition areaPartitionMapOf (area : JSValue) : AreaPartitionMap.t :=
  AreaPartitionMap.mk (getProp area "uuid") (getProp area "name")
    (if isArray (getProp area "partitions")
     then omap partitionOf (arrayItems (getProp area "partitions"))
     else []).

(** An area that the [catch] drops: its name cannot be printed, and one
    of its partition entries calls for a warning. *)
Definition areaDropped (area : JSValue) : bool :=
  negb (printable (getProp area "name"))
  && isArray (getProp area "partitions")
  && existsb (fun partition =>
                match partitionOf partition with None => true | Some _ => false end)
       (arrayItems (getProp area "partitions")).

(** An area that is given a map *)
Definition areaMapped (area : JSValue) : bool :=
  areaAccepted area && negb (areaDropped area).

(** Section 4.3 of the specification, in its words: an area entry is
    skipped if it is not a keyed record, or if it lacks both [uuid] and
    [name]. *)
Definition isKeyedRecord (v : JSValue) : bool :=
  match v with JObject _ _ => true | _ => false end.

Definition areaSkipped_spec (area : JSValue) : bool :=
  negb (isKeyedRecord area)
  || (negb (truthy (getProp area "uuid")) && negb (truthy (getProp area "name"))).

Definition buildAreaPartitionMaps (jsonContent : JSValue)
    : Run (list AreaPartitionMap.t) :=
  if nullish jsonContent then throw TypeError
  else
    let areas := getProp jsonContent "areas" in
    if negb (truthy areas) || negb (isArray areas)
    then _ ← tell WARN MNoAreas; mret []
    else
      let '(lg, maps) := forEntries mapArea 0 (arrayItems areas) in
      _ ← tellAll lg;
      _ ← tell LOG (MAreaMapsCreated (length maps));
      mret maps.

(** ** The endpoint-area relations *)

Module RelationState.
(** The variables the loop over the endpoints updates *)
Record t : Type := mk {
  relations : JSMap.t EndpointAreaRelation.t;
  totalEndpointsProcessed : nat;
  totalRelationsCreated : nat
}.
End RelationState.

(** [areaMap.partitions.filter(p => endpoint.partitions.includes(p.uuid))] *)
Definition sharedPartitions (endpoint : JSValue) (areaMap : AreaPartitionMap.t)
    : list Partition.t :=
  List.filter
    (fun areaPartition =>
       Array_includes (arrayItems (getProp endpoint "partitions"))
         (Partition.uuid areaPartition))
    (AreaPartitionMap.partitions areaMap).

Definition mkRelation (endpoint endpointName : JSValue)
    (areaMap : AreaPartitionMap.t) : EndpointAreaRelation.t :=
  EndpointAreaRelation.mk
    (getProp endpoint "uuid") endpointName
    (AreaPartitionMap.areaUuid areaMap) (AreaPartitionMap.areaName areaMap)
    (Partition.uuid <$> sharedPartitions endpoint areaMap)
    (Partition.name <$> sharedPartitions endpoint areaMap).

(** The endpoint shares a partition with the area. *)
Definition sharesPartition (endpoint : JSValue) (areaMap : AreaPartitionMap.t)
    : bool :=
  0 <? length (sharedPartitions endpoint areaMap).

(** The body of the loop over the area maps, for one endpoint: what it
    prints or throws, and the state it leaves.  A relation is stored and
    counted before the line that reports it. *)
Definition relateArea (endpoint endpointName : JSValue)
    (st : RelationState.t) (areaMap : AreaPartitionMap.t)
    : Run unit * RelationState.t :=
  if sharesPartition endpoint areaMap then
    let relation := mkRelation endpoint endpointName areaMap in
    match JSMap.get (RelationState.relations st) (getProp endpoint "uuid") with
    | Some existing =>
        (tellWith [getProp endpoint "uuid";
                   EndpointAreaRelation.areaName existing;
                   AreaPartitionMap.areaName areaMap]
           LOG (MAlreadyMapped (getProp endpoint "uuid")
                  (EndpointAreaRelation.areaName existing)
                  (AreaPartitionMap.areaName areaMap)),
         st)
    | None =>
        (tellWith [endpointName; AreaPartitionMap.areaName areaMap]
           LOG (MRelationCreated endpointName
                  (AreaPartitionMap.areaName areaMap)
                  (length (sharedPartitions endpoint areaMap))),
         RelationState.mk
           (JSMap.set (RelationState.relations st) (getProp endpoint "uuid")
              relation)
           (RelationState.totalEndpointsProcessed st)
           (RelationState.totalRelationsCreated st + 1))
    end
  else (mret tt, st).

(** The loop over the area maps, which an exception ends *)
Fixpoint relateAreas (endpoint endpointName : JSValue)
    (areaPartitionMaps : list AreaPartitionMap.t) (st : RelationState.t)
    : Run unit * RelationState.t :=
  match areaPartitionMaps with
  | [] => (mret tt, st)
  | areaMap :: rest =>
      match relateArea endpoint endpointName st areaMap with
      | ((lg, Thrown error), st') => ((lg, Thrown error), st')
      | ((lg, Returned _), st') =>
          let '((lg', o), st'') := relateAreas endpoint endpointName rest st' in
          ((lg ++ lg', o), st'')
      end
  end.

(** The notice printed when an endpoint that has a relation shares a
    partition with one more area *)
Definition conflict (endpoint : JSValue) (existing : EndpointAreaRelation.t)
    (areaMap : AreaPartitionMap.t)
    : LogEntry :=
  (LOG, MAlreadyMapped (getProp endpoint "uuid")
          (EndpointAreaRelation.areaName existing)
          (AreaPartitionMap.areaName areaMap)).

(** [endpoint.name || `Device_${endpoint.uuid.substring(0, 8)}`]: only a
    string has [substring]. *)
Definition endpointDisplayName (endpoint : JSValue) : Outcome JSValue :=
  if truthy (getProp endpoint "name") then Returned (getProp endpoint "name")
  else
    match getProp endpoint "uuid" with
    | JString uuid => Returned (JString ("Device_" +:+ JSString.substring_0_8 uuid))
    | _ => Thrown TypeError
    end.

(** The body of the loop over the endpoints, with its [try] and [catch] *)
Definition relateEndpoint (areaPartitionMaps : list AreaPartitionMap.t)
    (endpointIndex : nat) (endpoint : JSValue)
    (acc : list LogEntry * RelationState.t) : list LogEntry * RelationState.t :=
  let '(lg, st0) := acc in
  let st := RelationState.mk (RelationState.relations st0)
              (RelationState.totalEndpointsProcessed st0 + 1)
              (RelationState.totalRelationsCreated st0) in
  if negb (truthy endpoint) || negb (truthy (getProp endpoint "uuid"))
  then (lg ++ [(WARN, MEndpointInvalid endpointIndex)], st)
  else if negb (isArray (getProp endpoint "partitions"))
          || (length (arrayItems (getProp endpoint "partitions")) =? 0)
  then (lg, st)
  else
    match endpointDisplayName endpoint with
    | Thrown error => (lg ++ [(ERROR, MEndpointError endpointIndex error)], st)
    | Returned endpointName =>
        match relateAreas endpoint endpointName areaPartitionMaps st with
        | ((lg', Thrown error), st') =>
            (lg ++ lg' ++ [(ERROR, MEndpointError endpointIndex error)], st')
        | ((lg', Returned _), st') => (lg ++ lg', st')
        end
    end.

Fixpoint relateEndpoints (areaPartitionMaps : list AreaPartitionMap.t)
    (endpointIndex : nat) (endpoints : list JSValue)
    (acc : list LogEntry * RelationState.t) : list LogEntry * RelationState.t :=
  match endpoints with
  | [] => acc
  | endpoint :: rest =>
      relateEndpoints areaPartitionMaps (S endpointIndex) rest
        (relateEndpoint areaPartitionMaps endpointIndex endpoint acc)
  end.

(** The invariant of both loops: the console only grows, a relation
    that is stored stays as it is, and no key is stored twice. *)
Definition extends (acc acc' : list LogEntry * RelationState.t) : Prop :=
  (exists lg', fst acc' = fst acc ++ lg')
  /\ (forall k r,
        JSMap.get (RelationState.relations (snd acc)) k = Some r ->
        JSMap.get (RelationState.relations (snd acc')) k = Some r)
  /\ (JSMap.uniqueKeys (RelationState.relations (snd acc)) ->
      JSMap.uniqueKeys (RelationState.relations (snd acc'))).

(** The three lines printed for one of the first relations *)
Definition reportRelation (count : nat)
    (entry : JSValue * EndpointAreaRelation.t) : Run unit :=
  let '(uuid, relation) := entry in
  _ ← tellWith [EndpointAreaRelation.endpointName relation;
                EndpointAreaRelation.areaName relation]
        LOG (MRelationLine (count + 1)
               (EndpointAreaRelation.endpointName relation)
               (EndpointAreaRelation.areaName relation));
  _ ← tellWith [uuid] LOG (MRelationUuid uuid);
  tellWith (EndpointAreaRelation.location relation)
    LOG (MRelationShared (EndpointAreaRelation.location relation)).

Definition debugArea (areas : AreaPartitionMap.t) : Run unit :=
  tellWith (AreaPartitionMap.areaName areas
            :: (Partition.name <$> AreaPartitionMap.partitions areas))
    LOG (MAreaPartitions (AreaPartitionMap.areaName areas)
           (Partition.name <$> AreaPartitionMap.partitions areas)).

Section WithRuntime.

Context `{Runtime}.

(** [v > 0]: an array or an object is first converted to a primitive. *)
Definition gtZero (v : JSValue) : Run bool :=
  match v with
  | JNumber x => mret (Number.gtb x Number.zero)
  | JUndefined | JNull => mret false
  | JBool b => mret b
  | JString _ => mret (Number.gtb (ToNumber v) Number.zero)
  | JArray _ _ | JObject _ _ =>
      if printable v then mret (Number.gtb (ToNumber v) Number.zero)
      else throw TypeError
  end.

(** The body of the last loop, over the first five endpoints:
    [if (ep.partitions?.length > 0) console.log(..ep.partitions.join(', ')..)].
    Reading a property of [null] throws, and only an array has [join]. *)
Definition debugEndpoint (ep : JSValue) : Run unit :=
  if nullish ep then throw TypeError
  else
    positive ← gtZero (getPropOpt (getProp ep "partitions") "length");
    if positive : bool then
      match getProp ep "partitions" with
      | JArray _ items =>
          tellWith (getProp ep "name" :: items)
            LOG (MEndpointPartitions (getProp ep "name") items)
      | _ => throw TypeError
      end
    else mret tt.

(** The detailed debug that ends [buildEndpointAreaRelations]: the
    first three relations, or, when there is none, the partitions of the
    area maps and of the first five endpoints.  It stands outside the
    [try] of the loop. *)
Definition debugReport (relations : JSMap.t EndpointAreaRelation.t)
    (areaPartitionMaps : list AreaPartitionMap.t) (endpoints : list JSValue)
    : Run unit :=
  if 0 <? JSMap.size relations then
    _ ← tell LOG MFirstRelations;
    forEachEntry reportRelation 0 (take 3 relations)
  else
    _ ← tell WARN MNoRelations;
    _ ← tell LOG MDebugHint;
    _ ← tell LOG MPartitionsByArea;
    _ ← forEach debugArea areaPartitionMaps;
    _ ← tell LOG MPartitionsByEndpoint;
    forEach debugEndpoint (take 5 endpoints).

Definition buildEndpointAreaRelations (jsonContent : JSValue)
    (areaPartitionMaps : list AreaPartitionMap.t)
    : Run (JSMap.t EndpointAreaRelation.t) :=
  _ ← tell LOG MBuildingRelations;
  if negb (truthy (getPropOpt jsonContent "areas"))
     || negb (isArray (getPropOpt jsonContent "areas"))
  then _ ← tell WARN MNoAreasForRelations; mret JSMap.empty
  else if length areaPartitionMaps =? 0
  then _ ← tell WARN MNoPartitionMaps; mret JSMap.empty
  else
    _ ← tell LOG (MAreasToProcess
                    (length (arrayItems (getProp jsonContent "areas")))
                    (length areaPartitionMaps));
    _ ← tell LOG (MProcessedAreas (getProp jsonContent "areas") areaPartitionMaps);
    match getProp jsonContent "endpoints" with
    | JArray _ endpoints =>
        let '(lg, st) :=
          relateEndpoints areaPartitionMaps 0 endpoints
            ([], RelationState.mk JSMap.empty 0 0) in
        let relations := RelationState.relations st in
        _ ← tellAll lg;
        _ ← tell LOG MReport;
        _ ← tell LOG (MEndpointsProcessed (RelationState.totalEndpointsProcessed st));
        _ ← tell LOG (MRelationsCreated (RelationState.totalRelationsCreated st));
        _ ← tell LOG (MUniqueRelations (JSMap.size relations));
        _ ← debugReport relations areaPartitionMaps endpoints;
        mret relations
    | _ => throw TypeError
    end.

End WithRuntime.

(** ** The loader *)

Definition targetFile : string := "installation-config.json".
Definition directoryPath : string := "/home/luca/RagBaseNLP/src/data".
(** [path.join(directoryPath, targetFile)] *)
Definition filePath : string := directoryPath +:+ "/" +:+ targetFile.

Definition hasValidEndpoints (jsonContent : JSValue) : bool :=
  isArray (getProp jsonContent "endpoints")
  && (0 <? length (arrayItems (getProp jsonContent "endpoints"))).

Definition hasValidAreas (jsonContent : JSValue) : bool :=
  isArray (getProp jsonContent "areas")
  && (0 <? length (arrayItems (getProp jsonContent "areas"))).

(** [v?.length || 0] *)
Definition lengthOrZero (v : JSValue) : JSValue :=
  orElse (getPropOpt v "length") (JNumber Number.zero).

(** The category tests of the statistics *)
Definition sensorCategory : spec_float := Number.of_nat 18.
Definition actuatorCategories : list JSValue :=
  [JNumber (Number.of_nat 11); JNumber (Number.of_nat 12);
   JNumber (Number.of_nat 15)].
Definition controllerCategories : list JSValue :=
  [JNumber (Number.of_nat 0); JNumber (Number.of_nat 1);
   JNumber (Number.of_nat 2)].

Definition isSensor (ep : JSValue) : bool :=
  strictEqNumber (getProp ep "category") sensorCategory.
Definition isActuator (ep : JSValue) : bool :=
  Array_includes actuatorCategories (getProp ep "category").
Definition isController (ep : JSValue) : bool :=
  Array_includes controllerCategories (getProp ep "category").

(** [endpoints.filter(ep => test(ep.category)).length || 0]: reading
    [category] of a [null] entry throws. *)
Definition countEndpoints (test : JSValue -> bool) (endpoints : list JSValue)
    : Run nat :=
  if existsb nullish endpoints then throw TypeError
  else mret (length (List.filter test endpoints)).

(** The [statistics] of the installation content, for [jsonContent] with
    an array of endpoints *)
Definition installationStatistics (jsonContent : JSValue)
    (globalPartitionMap : PartitionMap) : Run Statistics.t :=
  let endpoints := arrayItems (getProp jsonContent "endpoints") in
  sensorCount ← countEndpoints isSensor endpoints;
  actuatorCount ← countEndpoints isActuator endpoints;
  controllerCount ← countEndpoints isController endpoints;
  mret (Statistics.mk
          (lengthOrZero (getProp jsonContent "endpoints"))
          (lengthOrZero (getProp jsonContent "areas"))
          (JSMap.size globalPartitionMap)
          sensorCount actuatorCount controllerCount).

(** [Object.fromEntries(map)] turns each key into a property key; the
    object it builds holds the entries of the map. *)
Definition Object_fromEntries (map : PartitionMap) : Run unit :=
  if forallb printable (JSMap.keys map) then mret tt else throw TypeError.

(** An endpoint entry as section 6 of the specification describes it: a
    keyed record, whose [partitions], when present, is a sequence. *)
Definition endpointWellFormed (ep : JSValue) : bool :=
  isKeyedRecord ep
  && (nullish (getProp ep "partitions") || isArray (getProp ep "partitions")).

(** What the mappers print of an endpoint, of an area of the
    configuration and of an area map can be converted to a string;
    section 6 of the specification has names and identifiers for
    them. *)
Definition endpointPrintable (ep : JSValue) : bool :=
  printable (getProp ep "name") && printable (getProp ep "uuid")
  && printable (getProp ep "partitions").

Definition areaPrintable (area : JSValue) : bool :=
  printable (getProp area "name")
  && forallb (fun partition => printable (getProp partition "name"))
       (arrayItems (getProp area "partitions")).

Definition areaMapPrintable (areaMap : AreaPartitionMap.t) : bool :=
  printable (AreaPartitionMap.areaName areaMap)
  && forallb printable (Partition.name <$> AreaPartitionMap.partitions areaMap).

(** Modelled from the spec: [buildGlobalPartitionMap], imported from
    ./buildGlobalPartitionsMap.js, which is not among the sources.
    Section 4.2: for every area, for every partition entry, a bare
    identifier string is named ["Partition_"] followed by its first 8
    characters, an object gives its own [uuid] and [name] and is skipped
    when either is missing; the map is keyed by identifier and the last
    write wins. *)
Definition buildGlobalPartitionMap_spec (jsonContent : JSValue) : PartitionMap :=
  fold_left
    (fun m area =>
       fold_left
         (fun m partition =>
            let '(partitionUuid, partitionName) := resolvePartition partition in
            if truthy partitionUuid && truthy partitionName
            then JSMap.set m partitionUuid partitionName
            else m)
         (arrayItems (getPropOpt area "partitions")) m)
    (arrayItems (getPropOpt jsonContent "areas")) JSMap.empty.

Section Loader.

Context `{Runtime}.

(** [buildGlobalPartitionMap] of ./buildGlobalPartitionsMap.js: any
    function from the configuration to a map. *)
Variable buildGlobalPartitionMap : JSValue -> PartitionMap.

(** [error] is an [Error] at the only call; it is given by its message. *)
Definition getFallbackDocument (env : Env.t) (errorMessage : string)
    : LoadDocumentResult.t :=
  let fallbackUUID := "fallback-" +:+ JSString.substring_2_9 (Env.random36 env) in
  let fallBack :=
    ExtendDocument.mk
      (JSON_stringify
         (FallbackPayload "Failed to load document" errorMessage "empty_system"))
      {| EndpointMetadata.source := "fallback";
         EndpointMetadata.loc := "internal";
         EndpointMetadata.type := installation_config;
         EndpointMetadata.isValid := false;
         EndpointMetadata.timestamp := Env.now env;
         EndpointMetadata.uuid := Some fallbackUUID;
         EndpointMetadata.name := JString "Fallback Document";
         EndpointMetadata.category := Some (-1)%Z;
         EndpointMetadata.visualizationType := Some "N/A";
         EndpointMetadata.deviceType := "other";
         EndpointMetadata.categoryName := Some "fallback";
         EndpointMetadata.visualizationCategory := Some "fallback";
         EndpointMetadata.id := Some "0";
         EndpointMetadata.partitions := Some [];
         EndpointMetadata.location := Some [];
         EndpointMetadata.areaNames := Some [];
         EndpointMetadata.areaUuids := Some [];
         EndpointMetadata.parametersCount := Some 0;
         EndpointMetadata.defaultParameter := Some EmptyString;
         EndpointMetadata.chunkStrategy := Some standard;
         EndpointMetadata.chunkType := fallback;
         EndpointMetadata.hasAreaInfo := Some true;
         EndpointMetadata.totalEndpoints := JUndefined;
         EndpointMetadata.totalAreas := JUndefined;
         EndpointMetadata.hasPartitions := None;
         EndpointMetadata.installationName := JUndefined;
         EndpointMetadata.revision := JUndefined;
         EndpointMetadata.minor := JUndefined;
         EndpointMetadata.major := JUndefined |}
      (Some "System temporarily unavailable. Please check the configuration and try again.")
  in
  LoadDocumentResult.mk [fallBack] JSMap.empty.

(** The metadata of the summary document *)
Definition summaryMetadata (env : Env.t) (jsonContent : JSValue)
    (globalPartitionMap : PartitionMap) : EndpointMetadata.t :=
  let metadata := getProp jsonContent "metadata" in
  {| EndpointMetadata.source := targetFile;
     EndpointMetadata.loc := filePath;
     EndpointMetadata.type := installation_config;
     EndpointMetadata.isValid := true;
     EndpointMetadata.timestamp := Env.now env;
     EndpointMetadata.name := getPropOpt metadata "name";
     EndpointMetadata.chunkType := summary;
     EndpointMetadata.installationName :=
       orElse (getPropOpt metadata "name") (JString "installation-config");
     EndpointMetadata.revision := getPropOpt metadata "revision";
     EndpointMetadata.deviceType := "installation";
     EndpointMetadata.totalEndpoints :=
       lengthOrZero (getProp jsonContent "endpoints");
     EndpointMetadata.totalAreas := lengthOrZero (getProp jsonContent "areas");
     EndpointMetadata.hasPartitions := Some (0 <? JSMap.size globalPartitionMap);
     EndpointMetadata.hasAreaInfo := Some (hasValidAreas jsonContent);
     EndpointMetadata.major := getPropOpt metadata "major";
     EndpointMetadata.minor := getPropOpt metadata "minor";
     EndpointMetadata.uuid := None;
     EndpointMetadata.category := None;
     EndpointMetadata.visualizationType := None;
     EndpointMetadata.categoryName := None;
     EndpointMetadata.partitions := None;
     EndpointMetadata.location := None;
     EndpointMetadata.areaNames := None;
     EndpointMetadata.areaUuids := None;
     EndpointMetadata.id := None;
     EndpointMetadata.parametersCount := None;
     EndpointMetadata.defaultParameter := None;
     EndpointMetadata.chunkStrategy := None;
     EndpointMetadata.visualizationCategory := None |}.

(** The summary document of a configuration *)
Definition summaryOf (env : Env.t) (jsonContent : JSValue)
    (statistics : Statistics.t)
    : LoadDocumentResult.t :=
  LoadDocumentResult.mk
    [ExtendDocument.mk
       (JSON_stringify
          (InstallationPayload
             (InstallationContent.mk
                (orElse (getProp jsonContent "metadata") (JObject 0 []))
                statistics
                (getProp jsonContent "endpoints")
                (getProp jsonContent "areas")
                (buildGlobalPartitionMap jsonContent))))
       (summaryMetadata env jsonContent (buildGlobalPartitionMap jsonContent))
       None]
    (buildGlobalPartitionMap jsonContent).

(** The statistics of a configuration whose endpoints are an array
    without [null] entries *)
Definition statisticsOf (jsonContent : JSValue) : Statistics.t :=
  Statistics.mk
    (lengthOrZero (getProp jsonContent "endpoints"))
    (lengthOrZero (getProp jsonContent "areas"))
    (JSMap.size (buildGlobalPartitionMap jsonContent))
    (length (List.filter isSensor (arrayItems (getProp jsonContent "endpoints"))))
    (length (List.filter isActuator (arrayItems (getProp jsonContent "endpoints"))))
    (length (List.filter isController (arrayItems (getProp jsonContent "endpoints")))).

(** The part of [loadDocumentsJSON] that follows the test of the
    endpoints *)
Definition loadInstallation (env : Env.t) (jsonContent : JSValue)
    : Run LoadDocumentResult.t :=
  _ ← tellWith [getProp (getProp jsonContent "endpoints") "length";
                lengthOrZero (getProp jsonContent "areas")]
        LOG (MDataStructure
               (getProp (getProp jsonContent "endpoints") "length")
               (lengthOrZero (getProp jsonContent "areas")));
  let globalPartitionMap := buildGlobalPartitionMap jsonContent in
  areaPartitionMaps ←
    (if hasValidAreas jsonContent then buildAreaPartitionMaps jsonContent
     else mret []);
  endpointAreaRelations ←
    (if hasValidAreas jsonContent
     then buildEndpointAreaRelations jsonContent areaPartitionMaps
     else mret JSMap.empty);
  statistics ← installationStatistics jsonContent globalPartitionMap;
  _ ← Object_fromEntries globalPartitionMap;
  let installationContent :=
    InstallationContent.mk
      (orElse (getProp jsonContent "metadata") (JObject 0 []))
      statistics
      (getProp jsonContent "endpoints")
      (getProp jsonContent "areas")
      globalPartitionMap in
  let mainDocument :=
    ExtendDocument.mk
      (JSON_stringify (InstallationPayload installationContent))
      (summaryMetadata env jsonContent globalPartitionMap)
      None in
  _ ← tell LOG MSingleDocumentCreated;
  mret (LoadDocumentResult.mk [mainDocument] globalPartitionMap).

Definition loadDocumentsJSON (env : Env.t) : Run LoadDocumentResult.t :=
  match Env.fileContent env with
  | None =>
      _ ← tell ERROR MDocumentNotFound;
      throw (Error "Execution blocked: file doesn't exist")
  | Some rawContent =>
      if String.eqb rawContent EmptyString
         || (String.length (JSString.trim rawContent) =? 0)
      then
        _ ← tell ERROR MEmptyDocument;
        throw (Error "Execution blocked: file contents empty.")
      else
        match JSON_parse rawContent with
        | None =>
            _ ← tell ERROR MParsingFailed;
            throw (Error "Invalid JSON format in configuration")
        | Some jsonContent =>
            if negb (truthy jsonContent)
               || negb (isTObject (typeof jsonContent))
            then throw (Error "Invalid JSON structure: root must be an object")
            else if negb (hasValidEndpoints jsonContent)
            then
              _ ← tell WARN MNoValidEndpoint;
              mret (getFallbackDocument env "No valid endpoints in configuration")
            else loadInstallation env jsonContent
        end
  end.

End Loader.

(** ** Reading the console of the mappers *)

(** The two warnings with which [buildAreaPartitionMaps] skips an
    area *)
Definition isAreaWarning (entry : LogEntry) : bool :=
  match entry with
  | (WARN, MAreaInvalid _ _) | (WARN, MAreaMissingUuidOrName _ _ _) => true
  | _ => false
  end.

(** The line with which the [catch] of [buildAreaPartitionMaps] reports
    an area *)
Definition isAreaError (entry : LogEntry) : bool :=
  match entry with
  | (ERROR, MAreaError _ _) => true
  | _ => false
  end.

(** A partition as [buildAreaPartitionMaps] stores it: both fields
    truthy *)
Definition partitionComplete (partition : Partition.t) : bool :=
  truthy (Partition.uuid partition) && truthy (Partition.name partition).

(** The partition that stands for a bare identifier *)
Definition identifierPartition (id : string) : Partition.t :=
  Partition.mk (JString id) (JString ("Partition_" +:+ JSString.substring_0_8 id)).

(** An entry of the relations that comes from one of the endpoints and
    one of the area maps: it is stored under the [uuid] of the endpoint
    and describes the partitions the two share. *)
Definition relationFrom (endpoints : list JSValue)
    (maps : list AreaPartitionMap.t)
    (entry : JSValue * EndpointAreaRelation.t) : Prop :=
  exists endpoint endpointName areaMap,
    endpoint ∈ endpoints /\ areaMap ∈ maps
    /\ endpointDisplayName endpoint = Returned endpointName
    /\ truthy (getProp endpoint "uuid") = true
    /\ fst entry = getProp endpoint "uuid"
    /\ snd entry = mkRelation endpoint endpointName areaMap
    /\ sharesPartition endpoint areaMap = true.

(** The state after a relation of an endpoint with an area map has
    been stored, under a key that had none, and counted *)
Definition related (endpoint endpointName : JSValue)
    (areaMap : AreaPartitionMap.t) (st : RelationState.t) : RelationState.t :=
  RelationState.mk
    (RelationState.relations st
       ++ [(getProp endpoint "uuid", mkRelation endpoint endpointName areaMap)])
    (RelationState.totalEndpointsProcessed st)
    (RelationState.totalRelationsCreated st + 1).

(** The state in which the loop over the endpoints starts *)
Definition noRelations : list LogEntry * RelationState.t :=
  ([], RelationState.mk JSMap.empty 0 0).

(** ** Reading a file as blank *)

(** A text that holds nothing but white space: what [trim] empties *)
Fixpoint allWhiteSpace (s : string) : bool :=
  match s with
  | EmptyString => true
  | String c s' => JSString.isWhiteSpace c && allWhiteSpace s'
  end.

(** ** Saving the response (config/RAGNLP.ts) *)

Definition outputPath : string := "/home/luca/RagBaseNLP/src/response/".

(** What [main] hands to [saveResponse]: the text that the chain
    answered, or the object [{ system: "error" }] that [runRgaSytsem]
    returns when it has caught an exception. *)
Inductive Response : Type :=
| Answer (text : string)
| SystemError.

Module Fs.
(** The calls on [fs.promises]: [mkdir(path, { recursive: true })] and
    [writeFile(path, data, "utf-8")] *)
Inductive Call : Type :=
| Mkdir (path : string)
| WriteFile (path data : string).
End Fs.

Inductive SaveMessage : Type :=
| MStartSaveResponse
| MResponseSavedIn (fullPath : string)
| MQueryExecuted (query : string)
| MErrorSaving (e : JSError).

Module Saved.
(** A run of [saveResponse]: what it printed, the calls that it made on
    the file system, in order, and how it ended *)
Record t : Type := mk {
  console : list (Level * SaveMessage);
  calls : list Fs.Call;
  outcome : Outcome unit
}.
End Saved.

(** [timestamp.replace(/[:.]/g, "-")] *)
Definition isColonOrDot (c : ascii) : bool :=
  Ascii.eqb c ":" || Ascii.eqb c ".".

Fixpoint replaceColonsAndDots (s : string) : string :=
  match s with
  | EmptyString => EmptyString
  | String c s' =>
      String (if isColonOrDot c then "-"%char else c) (replaceColonsAndDots s')
  end.

(** [`response_${timestamp}.json`] *)
Definition responseFileName (timestamp : string) : string :=
  "response_" +:+ timestamp +:+ ".json".

Section SaveResponse.

(** The host: [path.join], [JSON.stringify(response, null, 2)], and
    the file system, which lets a call through or rejects it with an
    error. *)
Variable path_join : string -> string -> string.
Variable JSON_stringify_indented : Response -> string.
Variable rejects : Fs.Call -> option JSError.

(** [now] is [new Date().toISOString()].  [responseText] is computed
    and not used: what is written is the JSON text of the response, also
    when the response is a string. *)
Definition saveResponse (now query : string) (response : Response) : Saved.t :=
  let mkdir := Fs.Mkdir outputPath in
  match rejects mkdir with
  | Some error =>
      Saved.mk [(LOG, MStartSaveResponse); (ERROR, MErrorSaving error)]
        [mkdir] (Thrown error)
  | None =>
      let timestamp := replaceColonsAndDots now in
      let filename := responseFileName timestamp in
      let fullPath := path_join outputPath filename in
      let writeFile := Fs.WriteFile fullPath (JSON_stringify_indented response) in
      match rejects writeFile with
      | Some error =>
          Saved.mk [(LOG, MStartSaveResponse); (ERROR, MErrorSaving error)]
            [mkdir; writeFile] (Thrown error)
      | None =>
          Saved.mk [(LOG, MStartSaveResponse); (LOG, MResponseSavedIn fullPath);
                    (LOG, MQueryExecuted query)]
            [mkdir; writeFile] (Returned tt)
      end
  end.

End SaveResponse.

(** ** Sample data *)

Module Sample.

Definition env (fileContent : option string) : Env.t :=
  Env.mk fileContent "2025-11-03T09:30:00.000Z" "0.4fzyo82mvyr".

Definition metadata : EndpointMetadata.t :=
  summaryMetadata (env None) (JObject 1 []) JSMap.empty.

Definition doc (pageContent : string) : ExtendDocument.t :=
  ExtendDocument.mk pageContent metadata None.

Definition thermostat : ExtendDocument.t :=
  doc "Thermostat: temperature setpoint 21, air conditioner off".
Definition lights : ExtendDocument.t :=
  doc "Lights controller, living room".

(** Two areas: the first has a [uuid] and no [name], the second has
    both. *)
Definition hallway : JSValue :=
  JObject 11 [("uuid", JString "a0"); ("partitions", JArray 12 [JString "p0"])].
Definition kitchen : JSValue :=
  JObject 13 [("uuid", JString "a1"); ("name", JString "Kitchen");
              ("partitions", JArray 14 [JString "p1"])].
Definition garden : JSValue :=
  JObject 15 [("uuid", JString "a2"); ("name", JString "Garden");
              ("partitions",
               JArray 16 [JObject 17 [("uuid", JString "p2");
                                      ("name", JString "Sprinklers")];
                          JString "p1"])].

Definition areasOnly (areas : list JSValue) : JSValue :=
  JObject 10 [("areas", JArray 18 areas)].

(** The example of the specification, with a second area on the same
    partition and a second endpoint without partitions. *)
Definition sensor : JSValue :=
  JObject 21 [("uuid", JString "e1"); ("category", JNumber (Number.of_nat 18));
              ("partitions", JArray 22 [JString "p1"])].
Definition lamp : JSValue :=
  JObject 23 [("uuid", JString "e2"); ("name", JString "Lamp");
              ("category", JNumber (Number.of_nat 11))].

Definition installation : JSValue :=
  JObject 20 [("endpoints", JArray 24 [sensor; lamp]);
              ("areas", JArray 25 [hallway; kitchen; garden])].

Definition kitchenMap : AreaPartitionMap.t := areaPartitionMapOf kitchen.
Definition gardenMap : AreaPartitionMap.t := areaPartitionMapOf garden.

(** The texts of some configuration files *)
Definition quoted (s : string) : string :=
  String (ascii_of_nat 34) s +:+ String (ascii_of_nat 34) EmptyString.

Definition blankText : string :=
  String (ascii_of_nat 32) (String (ascii_of_nat 10) EmptyString).
Definition malformedText : string := "not json".
Definition numberText : string := "42".
Definition arrayText : string := "[]".
Definition noEndpointsText : string := "{" +:+ quoted "endpoints" +:+ ": []}".
(** The example of section 8 of the specification *)
Definition exampleText : string :=
  "{" +:+ quoted "endpoints" +:+ ":[{" +:+ quoted "uuid" +:+ ":" +:+ quoted "e1"
  +:+ "," +:+ quoted "category" +:+ ":18," +:+ quoted "partitions" +:+ ":["
  +:+ quoted "p1" +:+ "]}]," +:+ quoted "areas" +:+ ":[{" +:+ quoted "uuid"
  +:+ ":" +:+ quoted "a1" +:+ "," +:+ quoted "name" +:+ ":" +:+ quoted "Kitchen"
  +:+ "," +:+ quoted "partitions" +:+ ":[" +:+ quoted "p1" +:+ "]}]}".

Definition noEndpoints : JSValue := JObject 1 [("endpoints", JArray 2 [])].
Definition example : JSValue :=
  JObject 1
    [("endpoints",
      JArray 2 [JObject 3 [("uuid", JString "e1");
                           ("category", JNumber (Number.of_nat 18));
                           ("partitions", JArray 4 [JString "p1"])]]);
     ("areas",
      JArray 5 [JObject 6 [("uuid", JString "a1"); ("name", JString "Kitchen");
                           ("partitions", JArray 7 [JString "p1"])]])].

(** A host that knows these files: it parses each of them to its value
    and refuses any other text. *)
Definition parse (text : string) : option JSValue :=
  if String.eqb text numberText then Some (JNumber (Number.of_nat 42))
  else if String.eqb text arrayText then Some (JArray 1 [])
  else if String.eqb text noEndpointsText then Some noEndpoints
  else if String.eqb text exampleText then Some example
  else None.

Definition stringify (payload : Payload) : string :=
  match payload with
  | InstallationPayload _ => "{installation}"
  | FallbackPayload _ _ _ => "{fallback}"
  end.

Definition runtime : Runtime :=
  {| JSON_parse := parse;
     JSON_stringify := stringify;
     ToNumber := fun _ => S754_nan |}.

End Sample.

(** ** Further sample data *)

Module Cases.

(** An installation whose first endpoint is [null] and whose other
    endpoint has no partitions: no relation can be created. *)
Definition nullFirst : JSValue :=
  JObject 30 [("endpoints", JArray 31 [JNull; Sample.lamp]);
              ("areas", JArray 32 [Sample.kitchen])].

(** An installation without areas *)
Definition noAreas : JSValue :=
  JObject 40 [("endpoints", JArray 41 [Sample.sensor; Sample.lamp]);
              ("metadata", JObject 42 [("name", JString "Home");
                                       ("revision", JString "7")])].

(** An installation without areas, with a [null] among its endpoints *)
Definition noAreasNull : JSValue :=
  JObject 50 [("endpoints", JArray 51 [Sample.sensor; JNull])].

(** An installation whose second endpoint has a number for [uuid] and
    no [name], on the partition of the kitchen *)
Definition seventh : JSValue :=
  JObject 63 [("uuid", JNumber (Number.of_nat 7));
              ("partitions", JArray 62 [JString "p1"])].

Definition numbered : JSValue :=
  JObject 60 [("endpoints", JArray 61 [Sample.sensor; seventh]);
              ("areas", JArray 64 [Sample.kitchen])].

(** An installation whose second endpoint has the [uuid] of the first,
    and a partition of the garden only *)
Definition twin : JSValue :=
  JObject 70 [("uuid", JString "e1"); ("name", JString "Twin");
              ("partitions", JArray 71 [JString "p2"])].

Definition twins : JSValue :=
  JObject 72 [("endpoints", JArray 73 [Sample.sensor; twin]);
              ("areas", JArray 74 [Sample.kitchen; Sample.garden])].

(** An object that cannot be converted to a string: it owns a
    [toString] that is no function.  An area that has it for a name,
    with a partition entry that calls for a warning, and one with
    partitions that call for none; an endpoint that has it for a name, in
    an installation with the kitchen. *)
Definition unprintable : JSValue := JObject 80 [("toString", JNull)].

Definition unnamedZone : JSValue :=
  JObject 81 [("uuid", JString "a7"); ("name", unprintable);
              ("partitions", JArray 82 [JString "p7"; JNull])].
Definition mutedZone : JSValue :=
  JObject 83 [("uuid", JString "a8"); ("name", unprintable);
              ("partitions", JArray 84 [JString "p7"])].

Definition nameless : JSValue :=
  JObject 85 [("uuid", JString "e9"); ("name", unprintable);
              ("partitions", JArray 86 [JString "p1"])].
Definition unprintableName : JSValue :=
  JObject 87 [("endpoints", JArray 88 [nameless]);
              ("areas", JArray 89 [Sample.kitchen])].

(** An installation whose [areas] is an object with a [length] that
    cannot be converted to a string *)
Definition oddAreas : JSValue :=
  JObject 90 [("endpoints", JArray 91 [JNumber (Number.of_nat 1)]);
              ("areas", JObject 92 [("length", unprintable)])].

Definition oddAreasText : string := "{odd areas}".
Definition noAreasText : string := "{no areas}".
Definition noAreasNullText : string := "{no areas, null endpoint}".
Definition nullFirstText : string := "{null endpoint}".

(** A host that knows these files, and those of [Sample] *)
Definition parse (text : string) : option JSValue :=
  if String.eqb text noAreasText then Some noAreas
  else if String.eqb text oddAreasText then Some oddAreas
  else if String.eqb text noAreasNullText then Some noAreasNull
  else if String.eqb text nullFirstText then Some nullFirst
  else Sample.parse text.

Definition runtime : Runtime :=
  {| JSON_parse := parse;
     JSON_stringify := Sample.stringify;
     ToNumber := fun _ => S754_nan |}.

End Cases.

(** * Properties *)

(** ** Binary64 division of small integers *)

Module NumberFacts.

Import Number.
#[local] Open Scope Z_scope.

(** The constants are the binary64 values of the literals, and the
    operations agree with the primitive ones. *)
#[local] Set Warnings "-inexact-float".

Example literals_are_binary64 :
  Prim2SF 0.3%float = lit_0_3
  /\ Prim2SF 0.2%float = lit_0_2
  /\ Prim2SF 1.01%float = lit_1_01
  /\ Prim2SF 1%float = one
  /\ Prim2SF 0%float = zero
  /\ Prim2SF 18%float = of_nat 18.
Proof. repeat split; vm_compute; reflexivity. Qed.

Example operations_are_binary64 :
  Prim2SF (1 / 3)%float = div (of_nat 1) (of_nat 3)
  /\ Prim2SF (2 / 7)%float = div (of_nat 2) (of_nat 7)
  /\ Prim2SF (0 / 0)%float = div (of_nat 0) (of_nat 0)
  /\ Prim2SF (6 + 1)%float = add (of_nat 6) one
  /\ PrimFloat.leb 0.3%float (3 / 10)%float = geb (div (of_nat 3) (of_nat 10)) lit_0_3.
Proof. repeat split; vm_compute; reflexivity. Qed.

Lemma digits2_pos_size p : digits2_pos p = Pos.size p.
Proof. induction p; simpl; congruence. Qed.

Lemma digits2_pos_bounds p :
  2 ^ (Z.pos (digits2_pos p) - 1) <= Z.pos p < 2 ^ Z.pos (digits2_pos p).
Proof.
  rewrite digits2_pos_size. split.
  - pose proof (Pos.size_le p) as Hle.
    assert (H2 : 2 ^ Z.pos (Pos.size p) <= 2 * Z.pos p).
    { rewrite <- Pos2Z.inj_pow. change (2 * Z.pos p) with (Z.pos p~0). lia. }
    replace (Z.pos (Pos.size p)) with (Z.succ (Z.pos (Pos.size p) - 1)) in H2 by lia.
    rewrite Z.pow_succ_r in H2 by lia. lia.
  - pose proof (Pos.size_gt p) as Hgt. rewrite <- Pos2Z.inj_pow. lia.
Qed.

Lemma digits2_pos_unique p d :
  2 ^ (d - 1) <= Z.pos p < 2 ^ d -> Z.pos (digits2_pos p) = d.
Proof.
  intros [Hl Hu]. pose proof (digits2_pos_bounds p) as [Hl' Hu'].
  assert (Hd : 0 < d).
  { destruct (Z_lt_le_dec 0 d) as [|Hn]; [assumption|].
    assert (2 ^ d <= 1).
    { destruct (Z.eq_dec d 0) as [->|]; [simpl; lia|].
      rewrite Z.pow_neg_r; lia. }
    lia. }
  destruct (Z_lt_le_dec (Z.pos (digits2_pos p)) d) as [Hlt|Hge].
  - assert (2 ^ Z.pos (digits2_pos p) <= 2 ^ (d - 1))
      by (apply Z.pow_le_mono_r; lia).
    lia.
  - destruct (Z_lt_le_dec d (Z.pos (digits2_pos p))) as [Hlt|Hge']; [|lia].
    assert (2 ^ d <= 2 ^ (Z.pos (digits2_pos p) - 1))
      by (apply Z.pow_le_mono_r; lia).
    lia.
Qed.

Lemma canonical53_digits m : is_canonical53 m -> Z.pos (digits2_pos m) = 53.
Proof. intros Hm. apply digits2_pos_unique. exact Hm. Qed.

Lemma loc_of_shr_record_of_loc m l :
  loc_of_shr_record (shr_record_of_loc m l) = l.
Proof. destruct l as [|[]]; reflexivity. Qed.

Lemma shr_m_of_loc m l : shr_m (shr_record_of_loc m l) = m.
Proof. destruct l as [|[]]; reflexivity. Qed.

Lemma fexp_small z : -1021 <= z -> fexp prec emax z = z - 53.
Proof. intros Hz. unfold fexp, emin, prec, emax. lia. Qed.

(** A mantissa of 53 digits is not shifted, one of 54 digits is shifted
    once. *)
Lemma shr_fexp_53 q e l :
  Z.pos (digits2_pos q) = 53 -> -1074 <= e ->
  shr_fexp prec emax (Z.pos q) e l = (shr_record_of_loc (Z.pos q) l, e).
Proof.
  intros Hd He. unfold shr_fexp. simpl Zdigits2. rewrite Hd.
  rewrite fexp_small by lia.
  replace (53 + e - 53 - e) with 0 by lia. reflexivity.
Qed.

Lemma shr_fexp_54 q e l :
  Z.pos (digits2_pos q) = 54 -> -1075 <= e ->
  shr_fexp prec emax (Z.pos q) e l
  = (shr_1 (shr_record_of_loc (Z.pos q) l), e + 1).
Proof.
  intros Hd He. unfold shr_fexp. simpl Zdigits2. rewrite Hd.
  rewrite fexp_small by lia.
  replace (54 + e - 53 - e) with 1 by lia. reflexivity.
Qed.

Lemma round_nearest_even_range m l :
  round_nearest_even m l = m \/ round_nearest_even m l = m + 1.
Proof. destruct l as [|[]]; simpl; auto. destruct (Z.even m); auto. Qed.

(** Rounding a 53-digit mantissa and normalising again: the mantissa
    either stays on 53 digits, or reaches 2^53 and becomes 2^52 one
    binade up. *)
Lemma round_stage m e l :
  Z.pos two52 <= m < Z.pos two53 -> -1074 <= e ->
  let r := round_nearest_even m l in
  (Z.pos two52 <= r < Z.pos two53 /\
     shr_fexp prec emax r e loc_Exact = (Build_shr_record r false false, e))
  \/ shr_fexp prec emax r e loc_Exact
     = (Build_shr_record (Z.pos two52) false false, e + 1).
Proof.
  intros Hm He r.
  assert (Hr : r = m \/ r = m + 1) by apply round_nearest_even_range.
  destruct (Z_lt_le_dec r (Z.pos two53)) as [Hlt|Hge].
  - left. split; [lia|].
    destruct r as [|p|p]; try lia.
    rewrite shr_fexp_53; auto.
    apply canonical53_digits. unfold is_canonical53. lia.
  - right. assert (Hr53 : r = Z.pos two53) by lia. rewrite Hr53.
    rewrite shr_fexp_54; auto; lia.
Qed.

Lemma binary_round_aux_53 q e l :
  is_canonical53 q -> -1074 <= e <= 970 ->
  exists m e2,
    binary_round_aux prec emax false (Z.pos q) e l = S754_finite false m e2
    /\ (e2 = e \/ (e2 = e + 1 /\ m = two52)).
Proof.
  intros Hq He. unfold binary_round_aux.
  rewrite shr_fexp_53; [| apply canonical53_digits; exact Hq | lia].
  rewrite loc_of_shr_record_of_loc, shr_m_of_loc.
  destruct (round_stage (Z.pos q) e l Hq ltac:(lia)) as [[Hr Heq]|Heq];
    rewrite Heq; cbn [shr_m].
  - destruct (round_nearest_even (Z.pos q) l) as [|p|p] eqn:E; try lia.
    replace (e <=? emax - prec) with true
      by (symmetry; apply Z.leb_le; unfold emax, prec; lia).
    eauto.
  - replace (e + 1 <=? emax - prec) with true
      by (symmetry; apply Z.leb_le; unfold emax, prec; lia).
    exists two52, (e + 1). auto.
Qed.

Lemma shr_1_m m r s :
  0 <= m -> shr_m (shr_1 (Build_shr_record m r s)) = Z.div2 m.
Proof. destruct m as [|[p|p|]|]; simpl; try lia; reflexivity. Qed.

Lemma binary_round_aux_54 q e l :
  Z.pos two53 <= Z.pos q < 2 * Z.pos two53 -> -1075 <= e <= 969 ->
  exists m e2,
    binary_round_aux prec emax false (Z.pos q) e l = S754_finite false m e2
    /\ (e2 = e + 1 \/ (e2 = e + 2 /\ m = two52)).
Proof.
  intros Hq He. unfold binary_round_aux.
  rewrite shr_fexp_54;
    [| apply digits2_pos_unique;
       change (2 ^ (54 - 1)) with (Z.pos two53);
       change (2 ^ 54) with (2 * Z.pos two53); exact Hq
     | lia].
  set (mrs := shr_1 (shr_record_of_loc (Z.pos q) l)).
  assert (Hm : Z.pos two52 <= shr_m mrs < Z.pos two53).
  { unfold mrs. destruct l as [|[]]; cbn [shr_record_of_loc];
      rewrite shr_1_m by lia; rewrite Z.div2_div;
      unfold two52, two53 in *;
      (split; [apply Z.div_le_lower_bound | apply Z.div_lt_upper_bound]; lia). }
  destruct (round_stage (shr_m mrs) (e + 1) (loc_of_shr_record mrs) Hm ltac:(lia))
    as [[Hr Heq]|Heq]; rewrite Heq; cbn [shr_m].
  - destruct (round_nearest_even (shr_m mrs) (loc_of_shr_record mrs))
      as [|p|p] eqn:E; try lia.
    replace (e + 1 <=? emax - prec) with true
      by (symmetry; apply Z.leb_le; unfold emax, prec; lia).
    eauto.
  - replace (e + 1 + 1 <=? emax - prec) with true
      by (symmetry; apply Z.leb_le; unfold emax, prec; lia).
    exists two52, (e + 1 + 1). split; auto. right; split; auto; lia.
Qed.

Lemma binary_round_aux_exact m e s :
  is_canonical53 m -> -1074 <= e <= 971 ->
  binary_round_aux prec emax s (Z.pos m) e loc_Exact = S754_finite s m e.
Proof.
  intros Hm He. unfold binary_round_aux.
  pose proof (canonical53_digits m Hm) as Hd.
  rewrite shr_fexp_53 by (auto; lia).
  cbn [shr_record_of_loc shr_m loc_of_shr_record round_nearest_even].
  rewrite shr_fexp_53 by (auto; lia). cbn [shr_record_of_loc shr_m].
  replace (e <=? emax - prec) with true
    by (symmetry; apply Z.leb_le; unfold emax, prec; lia).
  reflexivity.
Qed.

Lemma iter_xO_pow p k : Z.pos (Pos.iter xO p k) = Z.pos p * 2 ^ Z.pos k.
Proof.
  change (Pos.iter xO p k) with (Zpower.shift_pos k p).
  rewrite Zpower.shift_pos_correct, Z.pow_pos_fold. lia.
Qed.

(** The Number of a positive integer below 2^53: the integer itself, on
    a mantissa of 53 digits. *)
Lemma of_nat_canonical n :
  (0 < n)%nat -> Z.of_nat n < Z.pos two53 ->
  exists m d, of_nat n = S754_finite false m (d - 53)
    /\ 1 <= d <= 53
    /\ is_canonical53 m
    /\ Z.pos m = Z.of_nat n * 2 ^ (53 - d)
    /\ 2 ^ (d - 1) <= Z.of_nat n < 2 ^ d.
Proof.
  intros Hn Hb. unfold of_nat, binary_normalize.
  destruct (Z.of_nat n) as [|p|p] eqn:E; try lia.
  set (d := Z.pos (digits2_pos p)).
  pose proof (digits2_pos_bounds p) as Hd. fold d in Hd.
  assert (Hd1 : 1 <= d) by (unfold d; lia).
  assert (Hd53 : d <= 53).
  { destruct (Z_lt_le_dec 53 d) as [Hlt|]; [|lia].
    assert (Hp : 2 ^ 53 <= 2 ^ (d - 1)) by (apply Z.pow_le_mono_r; lia).
    change (2 ^ 53) with (Z.pos two53) in Hp. lia. }
  unfold binary_round. fold d. rewrite Z.add_0_r, fexp_small by lia.
  assert (Hpow : 2 ^ (d - 1) * 2 ^ (53 - d) = Z.pos two52).
  { rewrite <- Z.pow_add_r by lia.
    replace (d - 1 + (53 - d)) with 52 by lia. reflexivity. }
  assert (Hpow' : 2 ^ d * 2 ^ (53 - d) = Z.pos two53).
  { rewrite <- Z.pow_add_r by lia.
    replace (d + (53 - d)) with 53 by lia. reflexivity. }
  assert (Hp2 : 0 < 2 ^ (53 - d)) by (apply Z.pow_pos_nonneg; lia).
  unfold shl_align. destruct (d - 53 - 0) as [|k|k] eqn:Ek; try lia.
  - assert (Hd' : d = 53) by lia.
    assert (Hm : is_canonical53 p).
    { unfold is_canonical53. rewrite Hd' in Hd. exact Hd. }
    rewrite binary_round_aux_exact by (auto; lia).
    exists p, d. rewrite Hd' in *. repeat split; try lia; apply Hm.
  - assert (Hm : Z.pos (Pos.iter xO p k) = Z.pos p * 2 ^ (53 - d)).
    { rewrite iter_xO_pow. f_equal. f_equal. lia. }
    assert (Hr : is_canonical53 (Pos.iter xO p k)).
    { unfold is_canonical53. rewrite Hm. nia. }
    rewrite binary_round_aux_exact by (auto; lia).
    exists (Pos.iter xO p k), d. repeat split; try lia; apply Hr.
Qed.

Lemma pow2_xO p : 2 ^ Z.pos p~0 = 2 ^ Z.pos p * 2 ^ Z.pos p.
Proof. rewrite <- Z.pow_add_r by lia. f_equal. lia. Qed.

Lemma pow2_xI p : 2 ^ Z.pos p~1 = 2 * (2 ^ Z.pos p * 2 ^ Z.pos p).
Proof. rewrite <- Z.pow_add_r, <- Z.pow_succ_r by lia. f_equal. lia. Qed.

Lemma shr_1_double z :
  0 <= z ->
  shr_1 (Build_shr_record (2 * z) false false) = Build_shr_record z false false.
Proof. intros Hz. destruct z as [|q|q]; try lia; reflexivity. Qed.

(** Shifting zeros out is exact. *)
Lemma iter_shr_1_exact p z :
  0 <= z ->
  SpecFloat.iter_pos shr_1 p (Build_shr_record (z * 2 ^ Z.pos p) false false)
  = Build_shr_record z false false.
Proof.
  revert z. induction p as [p IH|p IH|]; intros z Hz; cbn [SpecFloat.iter_pos].
  - rewrite pow2_xI.
    replace (z * (2 * (2 ^ Z.pos p * 2 ^ Z.pos p)))
      with (2 * (z * 2 ^ Z.pos p * 2 ^ Z.pos p)) by ring.
    assert (Hp : 0 < 2 ^ Z.pos p) by (apply Z.pow_pos_nonneg; lia).
    rewrite shr_1_double by nia.
    rewrite IH by nia. apply IH, Hz.
  - rewrite pow2_xO, Z.mul_assoc.
    assert (Hp : 0 < 2 ^ Z.pos p) by (apply Z.pow_pos_nonneg; lia).
    rewrite IH by nia. apply IH, Hz.
  - change (2 ^ 1) with 2. rewrite Z.mul_comm. apply shr_1_double, Hz.
Qed.

(** Normalising [n * 2^52] at exponent -52 gives the Number of [n]. *)
Lemma normalize_scaled n :
  (0 < n)%nat -> Z.of_nat n < Z.pos two53 ->
  binary_normalize prec emax (Z.of_nat n * Z.pos two52) (-52) false = of_nat n.
Proof.
  intros Hn Hb.
  destruct (of_nat_canonical n Hn Hb) as (m & d & -> & Hd & Hm & Hv & Hr).
  destruct (Z.of_nat n * Z.pos two52) as [|p|p] eqn:Ep; try lia.
  unfold binary_normalize, binary_round.
  assert (Hdig : Z.pos (digits2_pos p) = d + 52).
  { apply digits2_pos_unique. rewrite <- Ep.
    replace (d + 52 - 1) with ((d - 1) + 52) by lia.
    rewrite !Z.pow_add_r by lia. change (2 ^ 52) with (Z.pos two52).
    unfold two52 in *. nia. }
  rewrite Hdig. replace (d + 52 + -52) with d by lia.
  rewrite fexp_small by lia.
  unfold shl_align. destruct (d - 53 - -52) as [|k|k] eqn:Ek; try lia.
  - (* one digit: nothing to shift *)
    assert (d = 1) by lia. subst d.
    assert (Hp : is_canonical53 p).
    { unfold is_canonical53. rewrite <- Ep. unfold two52, two53 in *.
      change (2 ^ (1 - 1)) with 1 in Hr. change (2 ^ 1) with 2 in Hr. lia. }
    rewrite binary_round_aux_exact by (auto; lia).
    f_equal. change (53 - 1) with 52 in Hv.
    change (2 ^ 52) with (Z.pos two52) in Hv. lia.
  - (* [d] digits: a right shift by [d - 1] *)
    unfold binary_round_aux. unfold shr_fexp at 1. cbn [Zdigits2]. rewrite Hdig.
    replace (d + 52 + -52) with d by lia. rewrite fexp_small by lia.
    replace (d - 53 - -52) with (Z.pos k) by lia.
    cbn [shr shr_record_of_loc].
    assert (Hsplit : Z.pos p = Z.pos m * 2 ^ Z.pos k).
    { rewrite <- Ep, Hv, <- Z.mul_assoc, <- Z.pow_add_r by lia.
      replace (53 - d + Z.pos k) with 52 by lia. reflexivity. }
    rewrite Hsplit, iter_shr_1_exact by lia.
    cbn [shr_m loc_of_shr_record round_nearest_even].
    rewrite shr_fexp_53 by (try apply canonical53_digits; auto; lia).
    cbn [shr_record_of_loc shr_m].
    replace (-52 + Z.pos k) with (d - 53) by lia.
    replace (d - 53 <=? emax - prec) with true
      by (symmetry; apply Z.leb_le; unfold emax, prec; lia).
    reflexivity.
Qed.

(** [score += 1] on a counter below 2^53 *)
Lemma add_one n :
  Z.of_nat (S n) < Z.pos two53 -> add (of_nat n) one = of_nat (S n).
Proof.
  intros Hb. destruct n as [|n]; [reflexivity|].
  destruct (of_nat_canonical (S n) ltac:(lia) ltac:(lia))
    as (m & d & -> & Hd & Hm & Hv & Hr).
  rewrite <- (normalize_scaled (S (S n))) by lia.
  unfold add, SFadd, one.
  rewrite Z.min_r by lia.
  cbn [cond_Zopp]. f_equal.
  change (fst (shl_align 4503599627370496 (-52) (-52))) with two52.
  assert (Hx : Z.pos (fst (shl_align m (d - 53) (-52)))
               = Z.of_nat (S n) * Z.pos two52).
  { unfold shl_align.
    destruct (-52 - (d - 53)) as [|k|k] eqn:Ek; try lia; cbn [fst].
    - assert (d = 1) by lia. subst d.
      change (2 ^ (53 - 1)) with (Z.pos two52) in Hv.
      change (2 ^ (1 - 1)) with 1 in Hr. change (2 ^ 1) with 2 in Hr. lia.
    - rewrite iter_xO_pow, Hv, <- Z.mul_assoc, <- Z.pow_add_r by lia.
      replace (53 - d + Z.pos k) with 52 by lia. reflexivity. }
  rewrite Hx. lia.
Qed.

Lemma new_location_exact n : new_location n 0 = loc_Exact.
Proof. unfold new_location. destruct (Z.even n); reflexivity. Qed.

(** The division of two normal Numbers: one integer division, then
    rounding. *)
Lemma div_finite mx ex my ey :
  is_canonical53 mx -> is_canonical53 my -> -1021 <= ex - ey ->
  div (S754_finite false mx ex) (S754_finite false my ey)
  = binary_round_aux prec emax false
      (Z.pos mx * 2 ^ 53 / Z.pos my) (ex - ey - 53)
      (new_location (Z.pos my) ((Z.pos mx * 2 ^ 53) mod Z.pos my)).
Proof.
  intros Hx Hy He. unfold div, SFdiv, SFdiv_core_binary.
  cbn [Zdigits2 xorb].
  rewrite (canonical53_digits mx Hx), (canonical53_digits my Hy).
  replace (53 + ex - (53 + ey)) with (ex - ey) by lia.
  rewrite fexp_small by lia.
  rewrite Z.min_l by lia.
  replace (ex - ey - (ex - ey - 53)) with 53 by lia.
  rewrite Z.shiftl_mul_pow2 by lia.
  unfold Z.div, Z.modulo.
  destruct (Z.div_eucl (Z.pos mx * 2 ^ 53) (Z.pos my)) as [q r]. reflexivity.
Qed.

Lemma div_self n :
  (0 < n)%nat -> Z.of_nat n < Z.pos two53 ->
  div (of_nat n) (of_nat n) = one.
Proof.
  intros Hn Hb.
  destruct (of_nat_canonical n Hn Hb) as (m & d & -> & Hd & Hm & _).
  rewrite div_finite by (auto; lia).
  rewrite Z.mul_comm, Z.div_mul, Z.mod_mul by lia.
  rewrite new_location_exact.
  replace (d - 53 - (d - 53) - 53) with (-53) by lia.
  vm_compute. reflexivity.
Qed.

Lemma div_zero_l n :
  (0 < n)%nat -> Z.of_nat n < Z.pos two53 ->
  div (of_nat 0) (of_nat n) = zero.
Proof.
  intros Hn Hb.
  destruct (of_nat_canonical n Hn Hb) as (m & d & -> & _). reflexivity.
Qed.

Lemma div_zero_zero : div (of_nat 0) (of_nat 0) = S754_nan.
Proof. reflexivity. Qed.

Lemma geb_nan t : geb S754_nan t = false.
Proof. destruct t; reflexivity. Qed.

Lemma quotient_range mx my :
  is_canonical53 mx -> is_canonical53 my ->
  Z.pos two52 <= Z.pos mx * 2 ^ 53 / Z.pos my < 2 * Z.pos two53.
Proof.
  unfold is_canonical53, two52, two53. intros Hx Hy. split.
  - apply Z.div_le_lower_bound; [lia|].
    change (2 ^ 53) with 9007199254740992. nia.
  - apply Z.div_lt_upper_bound; [lia|].
    change (2 ^ 53) with 9007199254740992. nia.
Qed.

Lemma quotient_lt mx my :
  is_canonical53 mx -> is_canonical53 my -> Z.pos mx < Z.pos my ->
  Z.pos mx * 2 ^ 53 / Z.pos my < Z.pos two53.
Proof.
  unfold is_canonical53, two52, two53. intros Hx Hy Hlt.
  apply Z.div_lt_upper_bound; [lia|].
  change (2 ^ 53) with 9007199254740992. nia.
Qed.

Lemma unit_interval_below_1_01 x :
  in_unit_interval x -> geb x lit_1_01 = false.
Proof.
  destruct x as [s|s| |[|] m e]; cbn [in_unit_interval];
    try tauto; try reflexivity.
  unfold geb, SFleb, SFcompare, lit_1_01.
  intros [He|[-> ->]].
  - replace (-52 ?= e) with Gt; [reflexivity|].
    symmetry. apply Z.compare_gt_iff. lia.
  - reflexivity.
Qed.

Lemma unit_interval_nonneg x : in_unit_interval x -> geb x zero = true.
Proof.
  destruct x as [s|s| |[|] m e]; cbn [in_unit_interval];
    try tauto; reflexivity.
Qed.

(** [k / n] for [k <= n]: a Number from [+0] to [1.0]. *)
Lemma div_in_unit_interval k n :
  (k <= n)%nat -> (0 < n)%nat -> Z.of_nat n < Z.pos two53 ->
  in_unit_interval (div (of_nat k) (of_nat n)).
Proof.
  intros Hkn Hn Hb.
  destruct (Nat.eq_dec k 0%nat) as [->|Hk0].
  { rewrite div_zero_l by auto. exact I. }
  destruct (Nat.eq_dec k n) as [->|Hne].
  { rewrite div_self by auto. right. split; reflexivity. }
  destruct (of_nat_canonical n Hn Hb) as (mn & dn & -> & Hdn & Hmn & Hvn & Hrn).
  destruct (of_nat_canonical k ltac:(lia) ltac:(lia))
    as (mk & dk & -> & Hdk & Hmk & Hvk & Hrk).
  assert (Hdd : dk <= dn).
  { destruct (Z_lt_le_dec dn dk) as [Hlt|]; [|lia].
    assert (2 ^ dn <= 2 ^ (dk - 1)) by (apply Z.pow_le_mono_r; lia). lia. }
  rewrite div_finite by (auto; lia).
  pose proof (quotient_range mk mn Hmk Hmn) as Hq.
  set (q := Z.pos mk * 2 ^ 53 / Z.pos mn) in *.
  set (l := new_location _ _). clearbody l.
  destruct (Z.eq_dec dk dn) as [Hd|Hd].
  - (* same binade: the quotient is below 2^53 *)
    assert (Hlt : q < Z.pos two53).
    { apply quotient_lt; auto. rewrite Hvk, Hvn, Hd.
      apply Z.mul_lt_mono_pos_r; [apply Z.pow_pos_nonneg; lia | lia]. }
    destruct q as [|pq|pq]; try (unfold two52 in *; lia).
    destruct (binary_round_aux_53 pq (dk - 53 - (dn - 53) - 53) l)
      as (m & e2 & -> & He2); [unfold is_canonical53; lia|lia|].
    simpl. lia.
  - destruct (Z_lt_le_dec q (Z.pos two53)) as [Hlt|Hge].
    + destruct q as [|pq|pq]; try (unfold two52 in *; lia).
      destruct (binary_round_aux_53 pq (dk - 53 - (dn - 53) - 53) l)
        as (m & e2 & -> & He2); [unfold is_canonical53; lia|lia|].
      simpl. lia.
    + destruct q as [|pq|pq]; try (unfold two52, two53 in *; lia).
      destruct (binary_round_aux_54 pq (dk - 53 - (dn - 53) - 53) l)
        as (m & e2 & -> & He2); [lia|lia|].
      simpl. lia.
Qed.

(** [===] and SameValueZero with a normal Number or with zero *)
Lemma SFeqb_finite x s m e :
  SFeqb x (S754_finite s m e) = true -> x = S754_finite s m e.
Proof.
  unfold SFeqb, SFcompare.
  destruct x as [sx|sx| |sx mx ex]; try (destruct s; discriminate);
    try (destruct sx; discriminate); try discriminate.
  destruct sx, s; try discriminate;
    destruct (ex ?= e) eqn:Ee; try discriminate;
    apply Z.compare_eq in Ee; subst ex;
    destruct (Pos.compare_cont Eq mx m) eqn:Em; try discriminate;
    apply Pos.compare_eq in Em; subst mx; reflexivity.
Qed.

Lemma SFeqb_zero x s :
  SFeqb x (S754_zero s) = true -> exists s', x = S754_zero s'.
Proof.
  unfold SFeqb, SFcompare.
  destruct x as [sx|sx| |sx mx ex]; try (destruct sx; discriminate);
    try discriminate.
  eauto.
Qed.

End NumberFacts.

(** ** The relevance filter *)

Section RelevanceFilter.

Implicit Types (docs : list ExtendDocument.t) (doc : ExtendDocument.t).
Implicit Types (query content : string) (terms : list string).

Lemma List_filter_sublist {A : Type} (f : A -> bool) (l : list A) :
  List.filter f l `sublist_of` l.
Proof.
  induction l as [|x l IH]; simpl.
  - constructor.
  - destruct (f x); [apply sublist_skip | apply sublist_cons]; exact IH.
Qed.

Lemma List_filter_none {A : Type} (f : A -> bool) (l : list A) :
  (forall x, f x = false) -> List.filter f l = [].
Proof.
  intros Hf. induction l as [|x l IH]; simpl; [reflexivity|].
  rewrite Hf. exact IH.
Qed.

Lemma List_filter_all {A : Type} (f : A -> bool) (l : list A) :
  (forall x, f x = true) -> List.filter f l = l.
Proof.
  intros Hf. induction l as [|x l IH]; simpl; [reflexivity|].
  rewrite Hf, IH. reflexivity.
Qed.

(** The counter is the Number of the terms that the content includes. *)
Lemma score_from content terms (start : nat) :
  (Z.of_nat (start + length terms) < 2 ^ 53)%Z ->
  fold_left
    (fun score term =>
       if JSString.includes content term then Number.add score Number.one
       else score)
    terms (Number.of_nat start)
  = Number.of_nat (start + includedTerms content terms).
Proof.
  unfold includedTerms. revert start.
  induction terms as [|term terms IH]; intros start Hb; simpl.
  - rewrite Nat.add_0_r. reflexivity.
  - simpl in Hb. destruct (JSString.includes content term); simpl.
    + rewrite NumberFacts.add_one by (change (Z.pos Number.two53) with (2 ^ 53)%Z; lia).
      rewrite IH by lia. f_equal. lia.
    + apply IH. lia.
Qed.

Lemma score_count content terms :
  (Z.of_nat (length terms) < 2 ^ 53)%Z ->
  score content terms = Number.of_nat (includedTerms content terms).
Proof. intros Hb. exact (score_from content terms 0 Hb). Qed.

Lemma includedTerms_le content terms : includedTerms content terms <= length terms.
Proof.
  unfold includedTerms. induction terms as [|term terms IH]; simpl; [lia|].
  destruct (JSString.includes content term); simpl; lia.
Qed.

Lemma includedTerms_all content terms :
  Forall (fun term => JSString.includes content term = true) terms ->
  includedTerms content terms = length terms.
Proof.
  unfold includedTerms. induction 1 as [|term terms Ht _ IH]; simpl; [reflexivity|].
  rewrite Ht. simpl. rewrite IH. reflexivity.
Qed.

Lemma includedTerms_none content terms :
  Forall (fun term => JSString.includes content term = false) terms ->
  includedTerms content terms = 0.
Proof.
  unfold includedTerms. induction 1 as [|term terms Ht _ IH]; simpl; [reflexivity|].
  rewrite Ht. exact IH.
Qed.

(** Lower-casing keeps white space and distributes over concatenation. *)
Lemma isWhiteSpace_lowerChar c :
  JSString.isWhiteSpace (JSString.lowerChar c) = JSString.isWhiteSpace c.
Proof. destruct c as [[] [] [] [] [] [] [] []]; reflexivity. Qed.

Lemma toLowerCase_app s1 s2 :
  JSString.toLowerCase (s1 +:+ s2)
  = JSString.toLowerCase s1 +:+ JSString.toLowerCase s2.
Proof. induction s1 as [|c s1 IH]; simpl; [reflexivity|]. rewrite IH. reflexivity. Qed.

(** Without terms the score is [0 / 0]. *)
Lemma relevanceScore_nil doc : relevanceScore [] doc = S754_nan.
Proof. reflexivity. Qed.

(** With terms, few enough for a counter, the score is between 0 and 1. *)
Lemma relevanceScore_unit_interval terms doc :
  terms <> [] -> (Z.of_nat (length terms) < 2 ^ 53)%Z ->
  Number.in_unit_interval (relevanceScore terms doc).
Proof.
  intros Hne Hb. unfold relevanceScore. rewrite score_count by exact Hb.
  apply NumberFacts.div_in_unit_interval.
  - apply includedTerms_le.
  - destruct terms; [congruence | simpl; lia].
  - exact Hb.
Qed.

(** C10.  For every list of candidates, query and threshold, the filter
    returns a subsequence of its input: what it keeps are elements of
    the input, in the order of the input, none more often than in the
    input, and no more than the input has. *)
Theorem filterByContentRelevance_subsequence docs query threshold :
  filterByContentRelevance docs query threshold `sublist_of` docs
  /\ (forall doc, doc ∈ filterByContentRelevance docs query threshold -> doc ∈ docs)
  /\ length (filterByContentRelevance docs query threshold) <= length docs
  /\ (NoDup docs -> NoDup (filterByContentRelevance docs query threshold)).
Proof.
  assert (Hsub : filterByContentRelevance docs query threshold `sublist_of` docs)
    by apply List_filter_sublist.
  split; [exact Hsub|]. split; [|split].
  - intros doc Hin. exact (elem_of_sublist _ _ _ Hin Hsub).
  - apply sublist_length. exact Hsub.
  - intros Hnd. exact (sublist_NoDup _ _ Hnd Hsub).
Qed.

(** C6, amended.  For every query that leaves no term (none of the
    white-space pieces of the lower-cased query is longer than 2), the
    score of every candidate is the NaN of [0 / 0]; it reaches the
    comparison with the threshold, which is false for a NaN whatever the
    threshold: the filter rejects all candidates. *)
Theorem zero_terms_score_is_nan_and_all_rejected docs query threshold :
  queryTerms query = [] ->
  (forall doc, relevanceScore (queryTerms query) doc = S754_nan)
  /\ (forall doc, Number.geb (relevanceScore (queryTerms query) doc) threshold = false)
  /\ filterByContentRelevance docs query threshold = [].
Proof.
  intros Hq. unfold filterByContentRelevance. rewrite Hq.
  split; [|split].
  - intros doc. apply relevanceScore_nil.
  - intros doc. rewrite relevanceScore_nil. apply NumberFacts.geb_nan.
  - apply List_filter_none. intros doc.
    rewrite relevanceScore_nil. apply NumberFacts.geb_nan.
Qed.

(** C7, amended.  For a query with at least one term (and fewer than
    2^53 of them), a candidate whose lower-cased payload contains every
    term scores exactly 1.0, one that contains none scores exactly 0.0,
    and the filter with threshold 0 returns its input unchanged; with
    threshold 1.01 the filter returns the empty list, for every query. *)
Theorem relevance_scores_and_thresholds docs query :
  (Z.of_nat (length (queryTerms query)) < 2 ^ 53)%Z ->
  (queryTerms query <> [] ->
     (forall doc,
        Forall (fun term =>
                  JSString.includes
                    (JSString.toLowerCase (ExtendDocument.pageContent doc)) term
                  = true) (queryTerms query) ->
        relevanceScore (queryTerms query) doc = Number.one)
     /\ (forall doc,
        Forall (fun term =>
                  JSString.includes
                    (JSString.toLowerCase (ExtendDocument.pageContent doc)) term
                  = false) (queryTerms query) ->
        relevanceScore (queryTerms query) doc = Number.zero)
     /\ filterByContentRelevance docs query Number.zero = docs)
  /\ filterByContentRelevance docs query Number.lit_1_01 = [].
Proof.
  intros Hb. split.
  - intros Hne.
    assert (Hpos : 0 < length (queryTerms query))
      by (destruct (queryTerms query); [congruence | simpl; lia]).
    split; [|split].
    + intros doc Hall. unfold relevanceScore.
      rewrite score_count, (includedTerms_all _ _ Hall) by exact Hb.
      apply NumberFacts.div_self; assumption.
    + intros doc Hnone. unfold relevanceScore.
      rewrite score_count, (includedTerms_none _ _ Hnone) by exact Hb.
      apply NumberFacts.div_zero_l; assumption.
    + unfold filterByContentRelevance. apply List_filter_all. intros doc.
      apply NumberFacts.unit_interval_nonneg.
      apply relevanceScore_unit_interval; assumption.
  - unfold filterByContentRelevance. apply List_filter_none. intros doc.
    destruct (queryTerms query) as [|term terms] eqn:Eq.
    + rewrite relevanceScore_nil. apply NumberFacts.geb_nan.
    + apply NumberFacts.unit_interval_below_1_01.
      apply relevanceScore_unit_interval; [discriminate | exact Hb].
Qed.

End RelevanceFilter.

(** The pieces of a query, its terms, and a score of one third *)
Example splitWhiteSpace_pieces :
  JSString.splitWhiteSpace " Turn  ON the AC " = [""; "Turn"; "ON"; "the"; "AC"; ""].
Proof. reflexivity. Qed.

Example queryTerms_of_query :
  queryTerms " Turn  ON the AC " = ["turn"; "the"].
Proof. reflexivity. Qed.

Example relevanceScore_one_third :
  relevanceScore ["setpoint"; "lamp"; "garage"] Sample.thermostat
  = S754_finite false 6004799503160661 (-54)
  /\ filterByContentRelevance [Sample.thermostat; Sample.lights]
       "setpoint lamp garage" threshold_default = [Sample.thermostat].
Proof. split; vm_compute; reflexivity. Qed.

(** C6 as the specification states it fails: the query ["is it on"]
    leaves no term, and the score that is compared with the threshold is
    not a finite Number. *)
Lemma zero_terms_score_not_finite :
  queryTerms "is it on" = []
  /\ Number.isFinite (relevanceScore (queryTerms "is it on") Sample.thermostat)
     = false.
Proof. split; reflexivity. Qed.

Lemma zero_terms_score_is_nan_and_all_rejected_witness :
  queryTerms "is it on" = []
  /\ filterByContentRelevance [Sample.thermostat; Sample.lights] "is it on"
       threshold_default = [].
Proof.
  split; [reflexivity|].
  apply (zero_terms_score_is_nan_and_all_rejected
           [Sample.thermostat; Sample.lights] "is it on" threshold_default).
  reflexivity.
Defined.

(** C7 as the specification states it fails: with the empty query the
    filter with threshold 0 does not return its input, and a candidate,
    which contains every term of a query without terms, does not score
    1.0. *)
Lemma threshold_zero_drops_input :
  filterByContentRelevance [Sample.thermostat] EmptyString Number.zero
  <> [Sample.thermostat]
  /\ Forall (fun term =>
               JSString.includes
                 (JSString.toLowerCase (ExtendDocument.pageContent Sample.thermostat))
                 term = true) (queryTerms EmptyString)
  /\ relevanceScore (queryTerms EmptyString) Sample.thermostat <> Number.one.
Proof.
  split; [|split].
  - vm_compute. discriminate.
  - constructor.
  - vm_compute. discriminate.
Qed.

Lemma relevance_scores_and_thresholds_witness :
  (Z.of_nat (length (queryTerms "Temperature of the AIR conditioner")) < 2 ^ 53)%Z
  /\ queryTerms "Temperature of the AIR conditioner" <> []
  /\ relevanceScore (queryTerms "Temperature of the AIR conditioner")
       Sample.thermostat = Number.one
  /\ relevanceScore (queryTerms "Temperature of the AIR conditioner")
       Sample.lights = Number.zero
  /\ filterByContentRelevance [Sample.thermostat; Sample.lights]
       "Temperature of the AIR conditioner" Number.zero
     = [Sample.thermostat; Sample.lights]
  /\ filterByContentRelevance [Sample.thermostat; Sample.lights]
       "Temperature of the AIR conditioner" Number.lit_1_01 = [].
Proof.
  assert (Hb : (Z.of_nat (length (queryTerms "Temperature of the AIR conditioner"))
                < 2 ^ 53)%Z) by (vm_compute; reflexivity).
  assert (Hne : queryTerms "Temperature of the AIR conditioner" <> [])
    by (vm_compute; discriminate).
  destruct (relevance_scores_and_thresholds
              [Sample.thermostat; Sample.lights]
              "Temperature of the AIR conditioner" Hb) as [Hterms H101].
  destruct (Hterms Hne) as (Hone & Hzero & Hall).
  split; [exact Hb|]. split; [exact Hne|].
  split; [apply Hone; vm_compute; repeat constructor|].
  split; [apply Hzero; vm_compute; repeat constructor|].
  split; [exact Hall | exact H101].
Defined.

Lemma filterByContentRelevance_subsequence_witness :
  NoDup [Sample.thermostat; Sample.lights]
  /\ filterByContentRelevance [Sample.thermostat; Sample.lights]
       "thermostat setpoint" threshold_default = [Sample.thermostat]
  /\ NoDup (filterByContentRelevance [Sample.thermostat; Sample.lights]
              "thermostat setpoint" threshold_default).
Proof.
  assert (Hnd : NoDup [Sample.thermostat; Sample.lights]).
  { apply NoDup_cons. split.
    - intros Hin. apply list_elem_of_singleton in Hin. discriminate.
    - apply NoDup_singleton. }
  split; [exact Hnd|]. split; [vm_compute; reflexivity|].
  apply (filterByContentRelevance_subsequence
           [Sample.thermostat; Sample.lights] "thermostat setpoint"
           threshold_default).
  exact Hnd.
Defined.

(** ** The area-partition maps *)

Section AreaPartitionMaps.

Implicit Types (area jsonContent areaName partition : JSValue).
Implicit Types (areas items : list JSValue).

Lemma bind_returned {A B : Type} (m : Run A) (f : A -> Run B) lg a :
  m = (lg, Returned a) -> m ≫= f = (lg ++ fst (f a), snd (f a)).
Proof. intros ->. unfold mbind, Run_bind. destruct (f a). reflexivity. Qed.

Lemma bind_thrown {A B : Type} (m : Run A) (f : A -> Run B) lg e :
  m = (lg, Thrown e) -> m ≫= f = (lg, Thrown e).
Proof. intros ->. reflexivity. Qed.

Lemma omap_cons_some {A B : Type} (f : A -> option B) x l y :
  f x = Some y -> omap f (x :: l) = y :: omap f l.
Proof. intros Hx. cbn. rewrite Hx. reflexivity. Qed.

Lemma omap_cons_none {A B : Type} (f : A -> option B) x l :
  f x = None -> omap f (x :: l) = omap f l.
Proof. intros Hx. cbn. rewrite Hx. reflexivity. Qed.

Lemma tellWith_printable values l m :
  forallb printable values = true -> tellWith values l m = ([(l, m)], Returned tt).
Proof. intros Hp. unfold tellWith. rewrite Hp. reflexivity. Qed.

Lemma tellWith_unprintable values l m :
  forallb printable values = false -> tellWith values l m = ([], Thrown TypeError).
Proof. intros Hp. unfold tellWith. rewrite Hp. reflexivity. Qed.

(** A round of the loop over the partitions: an entry that gives a
    partition prints nothing; any other entry calls for a warning, which
    prints the name of the area. *)
Lemma mapPartition_some areaName partIndex partition p :
  partitionOf partition = Some p ->
  mapPartition areaName partIndex partition = ([], Returned (Some p)).
Proof.
  unfold partitionOf, mapPartition.
  destruct (truthy partition); [|discriminate]. cbn [negb].
  destruct (resolvePartition partition) as [partitionUuid partitionName].
  destruct (truthy partitionUuid && truthy partitionName); [|discriminate].
  intros [= <-]. reflexivity.
Qed.

Lemma mapPartition_none areaName partIndex partition :
  partitionOf partition = None ->
  (printable areaName = true ->
   exists m,
     mapPartition areaName partIndex partition = ([(WARN, m)], Returned None)
     /\ (m = MPartitionNull partIndex areaName
         \/ m = MPartitionIncomplete partIndex areaName))
  /\ (printable areaName = false ->
      mapPartition areaName partIndex partition = ([], Thrown TypeError)).
Proof.
  unfold partitionOf, mapPartition, tellWith. cbn [forallb].
  rewrite andb_true_r.
  destruct (truthy partition); cbn [negb].
  - destruct (resolvePartition partition) as [partitionUuid partitionName].
    destruct (truthy partitionUuid && truthy partitionName); [discriminate|].
    intros _. split; intros ->; [|reflexivity].
    eexists. split; [reflexivity|]. right. reflexivity.
  - intros _. split; intros ->; [|reflexivity].
    eexists. split; [reflexivity|]. left. reflexivity.
Qed.

(** The loop over the partitions of an area whose name can be printed:
    it returns the partitions of the entries, and warns of no area. *)
Lemma forEntriesRun_mapPartition_printable areaName index items :
  printable areaName = true ->
  exists lg,
    forEntriesRun (mapPartition areaName) index items
    = (lg, Returned (omap partitionOf items))
    /\ List.filter isAreaWarning lg = []
    /\ List.filter isAreaError lg = []
    /\ (Forall (fun partition => partitionOf partition <> None) items -> lg = []).
Proof.
  intros Hp. revert index.
  induction items as [|partition items IH]; intros index.
  - exists []. repeat split; reflexivity.
  - destruct (IH (S index)) as (lg' & Hrest & Hw & He & Hnil).
    cbn [forEntriesRun].
    destruct (partitionOf partition) as [p|] eqn:Ep.
    + rewrite (bind_returned _ _ [] (Some p)
                 (mapPartition_some areaName index partition p Ep)).
      rewrite (bind_returned _ _ lg' _ Hrest).
      rewrite (omap_cons_some _ _ _ p Ep). cbn. rewrite app_nil_r.
      exists lg'. split; [reflexivity|]. split; [exact Hw|]. split; [exact He|].
      intros Hall. apply Hnil. inversion Hall; assumption.
    + destruct (mapPartition_none areaName index partition Ep) as [Hwarn _].
      destruct (Hwarn Hp) as (m & Hrun & Hm).
      rewrite (bind_returned _ _ [(WARN, m)] None Hrun).
      rewrite (bind_returned _ _ lg' _ Hrest).
      rewrite (omap_cons_none _ _ _ Ep). cbn. rewrite app_nil_r.
      exists ((WARN, m) :: lg'). split; [reflexivity|].
      split; [|split].
      * cbn [List.filter]. destruct Hm as [-> | ->]; exact Hw.
      * cbn [List.filter]. destruct Hm as [-> | ->]; exact He.
      * intros Hall. inversion Hall; congruence.
Qed.

(** The same loop when the name cannot be printed: the first entry that
    calls for a warning ends it with a TypeError. *)
Lemma forEntriesRun_mapPartition_unprintable areaName index items :
  printable areaName = false ->
  forEntriesRun (mapPartition areaName) index items
  = if existsb (fun partition =>
                  match partitionOf partition with None => true | Some _ => false end)
         items
    then ([], Thrown TypeError)
    else ([], Returned (omap partitionOf items)).
Proof.
  intros Hp. revert index.
  induction items as [|partition items IH]; intros index; [reflexivity|].
  cbn [forEntriesRun existsb].
  destruct (partitionOf partition) as [p|] eqn:Ep.
  - rewrite (bind_returned _ _ [] (Some p)
               (mapPartition_some areaName index partition p Ep)).
    rewrite IH, (omap_cons_some _ _ _ p Ep).
    destruct (existsb _ items); reflexivity.
  - destruct (mapPartition_none areaName index partition Ep) as [_ Hthrow].
    rewrite (bind_thrown _ _ [] TypeError (Hthrow Hp)). reflexivity.
Qed.

(** The four ways through a round of the loop over the areas *)
Lemma mapArea_cases index area :
  (areaIsObject area = false
   /\ mapArea index area = ([(WARN, MAreaInvalid index area)], None))
  \/ (areaIsObject area = true /\ areaHasUuidAndName area = false
      /\ mapArea index area
         = ([(WARN, MAreaMissingUuidOrName index
                      (getProp area "uuid") (getProp area "name"))], None))
  \/ (areaAccepted area = true /\ areaDropped area = true
      /\ mapArea index area = ([(ERROR, MAreaError index TypeError)], None))
  \/ (areaMapped area = true
      /\ exists lg,
           mapArea index area = (lg, Some (areaPartitionMapOf area))
           /\ List.filter isAreaWarning lg = []
           /\ (printable (getProp area "name") = true ->
               List.filter isAreaError lg = []
               /\ (LOG, MMappedArea (getProp area "name")
                          (length (AreaPartitionMap.partitions
                                     (areaPartitionMapOf area)))) ∈ lg)
           /\ (printable (getProp area "name") = false ->
               lg = [(ERROR, MAreaError index TypeError)])).
Proof.
  unfold areaMapped, areaAccepted, areaDropped, mapArea, areaPartitionMapOf.
  destruct (areaIsObject area); cbn [negb andb]; [|left; split; reflexivity].
  right.
  destruct (areaHasUuidAndName area); cbn [negb andb];
    [|left; repeat split; reflexivity].
  right.
  destruct (printable (getProp area "name")) eqn:Hp; cbn [negb andb].
  - right. split; [reflexivity|].
    destruct (isArray (getProp area "partitions")).
    + destruct (forEntriesRun_mapPartition_printable (getProp area "name") 0
                  (arrayItems (getProp area "partitions")) Hp)
        as (lg & -> & Hw & He & _).
      rewrite tellWith_printable by (cbn; rewrite Hp; reflexivity).
      eexists. split; [reflexivity|].
      split; [rewrite List.filter_app, Hw; reflexivity|].
      split; [|discriminate]. intros _. split.
      * rewrite List.filter_app, He. reflexivity.
      * apply elem_of_app. right. apply list_elem_of_here.
    + cbn [mret Run_ret].
      rewrite tellWith_printable by (cbn; rewrite Hp; reflexivity).
      eexists. split; [reflexivity|]. split; [reflexivity|].
      split; [|discriminate]. intros _. split; [reflexivity|].
      apply list_elem_of_here.
  - destruct (isArray (getProp area "partitions")); cbn [andb].
    + rewrite forEntriesRun_mapPartition_unprintable by exact Hp.
      destruct (existsb _ _); cbn [negb].
      * left. repeat split; reflexivity.
      * right. split; [reflexivity|].
        rewrite tellWith_unprintable by (cbn; rewrite Hp; reflexivity).
        eexists. split; [reflexivity|]. split; [reflexivity|].
        split; [discriminate|]. intros _. reflexivity.
    + right. split; [reflexivity|]. cbn [mret Run_ret].
      rewrite tellWith_unprintable by (cbn; rewrite Hp; reflexivity).
      eexists. split; [reflexivity|]. split; [reflexivity|].
      split; [discriminate|]. intros _. reflexivity.
Qed.

Lemma mapArea_mapped index area :
  areaMapped area = true ->
  snd (mapArea index area) = Some (areaPartitionMapOf area).
Proof.
  intros Hm.
  destruct (mapArea_cases index area)
    as [(Ho & _)|[(Ho & Hu & _)|[(Ha & Hd & _)|(_ & lg & -> & _)]]];
    [..|reflexivity];
    unfold areaMapped, areaAccepted in *;
    rewrite ?Ho, ?Hu, ?Ha, ?Hd in Hm; discriminate.
Qed.

Lemma mapArea_unmapped index area :
  areaMapped area = false -> snd (mapArea index area) = None.
Proof.
  intros Hm.
  destruct (mapArea_cases index area)
    as [(_ & ->)|[(_ & _ & ->)|[(_ & _ & ->)|(Hm' & _)]]];
    try reflexivity. congruence.
Qed.

(** The loop keeps the maps of the areas that are mapped, in order. *)
Lemma forEntries_mapArea_maps index areas :
  snd (forEntries mapArea index areas)
  = areaPartitionMapOf <$> List.filter areaMapped areas.
Proof.
  revert index. induction areas as [|area areas IH]; intros index; [reflexivity|].
  cbn [forEntries List.filter].
  destruct (mapArea index area) as [lg r] eqn:Earea.
  specialize (IH (S index)).
  destruct (forEntries mapArea (S index) areas) as [lg' rs]. simpl in IH |- *.
  destruct (areaMapped area) eqn:Eacc.
  - pose proof (mapArea_mapped index area Eacc) as Hr.
    rewrite Earea in Hr. simpl in Hr. subst r. rewrite fmap_cons, IH. reflexivity.
  - pose proof (mapArea_unmapped index area Eacc) as Hr.
    rewrite Earea in Hr. simpl in Hr. subst r. exact IH.
Qed.

(** The loop prints the entries of each of its rounds. *)
Lemma forEntries_mapArea_log index areas i area entry :
  areas !! i = Some area ->
  entry ∈ fst (mapArea (index + i) area) ->
  entry ∈ fst (forEntries mapArea index areas).
Proof.
  revert index i. induction areas as [|a areas IH]; intros index i Hi Hin.
  - rewrite lookup_nil in Hi. discriminate.
  - cbn [forEntries].
    destruct (mapArea index a) as [lg r] eqn:Earea.
    destruct (forEntries mapArea (S index) areas) as [lg' rs] eqn:Erest.
    simpl. apply elem_of_app.
    destruct i as [|i]; simpl in Hi.
    + injection Hi as ->. rewrite Nat.add_0_r, Earea in Hin. left. exact Hin.
    + right. replace (index + S i) with (S index + i) in Hin by lia.
      specialize (IH (S index) i Hi Hin). rewrite Erest in IH. exact IH.
Qed.

(** On any configuration but [null] and [undefined] the function
    returns: the maps of the areas that are mapped, in order. *)
Lemma buildAreaPartitionMaps_maps jsonContent :
  nullish jsonContent = false ->
  exists lg,
    buildAreaPartitionMaps jsonContent
    = (lg, Returned (areaPartitionMapOf
                       <$> List.filter areaMapped
                             (arrayItems (getProp jsonContent "areas")))).
Proof.
  intros Hnn. unfold buildAreaPartitionMaps. rewrite Hnn.
  destruct (getProp jsonContent "areas") as [| |b|x|s|ref areas|ref props] eqn:Ea;
    try (eexists; reflexivity);
    try (destruct (truthy _); eexists; reflexivity).
  cbn [truthy isArray negb orb arrayItems].
  pose proof (forEntries_mapArea_maps 0 areas) as Hmaps.
  destruct (forEntries mapArea 0 areas) as [lg maps]. cbn [snd] in Hmaps.
  subst maps. eexists. reflexivity.
Qed.

(** An area whose name and partition names can be printed is mapped as
    soon as it is accepted, and so can its map. *)
Lemma areaPrintable_mapped area :
  areaPrintable area = true -> areaMapped area = areaAccepted area.
Proof.
  unfold areaPrintable, areaMapped, areaDropped.
  intros [Hp _]%andb_true_iff. rewrite Hp. cbn [negb andb].
  apply andb_true_r.
Qed.

Lemma partitionOf_name partition p :
  partitionOf partition = Some p ->
  printable (getProp partition "name") = true ->
  printable (Partition.name p) = true.
Proof.
  unfold partitionOf. destruct (truthy partition); [|discriminate].
  destruct partition as [| |b|x|s|r items|r props]; cbn [resolvePartition];
    match goal with
    | |- context [truthy ?u && truthy ?n] => destruct (truthy u && truthy n)
    end; try discriminate; intros [= <-]; auto.
Qed.

Lemma areaPartitionMapOf_printable area :
  areaPrintable area = true -> areaMapPrintable (areaPartitionMapOf area) = true.
Proof.
  unfold areaPrintable, areaMapPrintable, areaPartitionMapOf.
  intros [Hp Hnames]%andb_true_iff.
  cbn [AreaPartitionMap.areaName AreaPartitionMap.partitions]. rewrite Hp.
  cbn [andb].
  destruct (isArray (getProp area "partitions")); [|reflexivity].
  induction (arrayItems (getProp area "partitions")) as [|partition items IH];
    [reflexivity|].
  cbn [forallb] in Hnames. apply andb_true_iff in Hnames.
  destruct Hnames as [Hname Hrest].
  destruct (partitionOf partition) as [p|] eqn:Ep.
  - rewrite (omap_cons_some _ _ _ p Ep), fmap_cons. cbn [forallb].
    rewrite (partitionOf_name partition p Ep Hname). exact (IH Hrest).
  - rewrite (omap_cons_none _ _ _ Ep). exact (IH Hrest).
Qed.

(** C5, amended.  [buildAreaPartitionMaps] skips an area entry with a
    warning, and without failing, exactly when the entry is not a
    non-null object or when its [uuid] or its [name] is missing (or
    falsy).  An entry that passes both tests gives exactly one map,
    unless its name cannot be converted to a string while one of its
    partition entries calls for a warning (the entry is falsy, or lacks
    [uuid] or [name]): the warning then throws, the [catch] of the loop
    prints the error with the index of the area, and the area is left
    out.  The maps come in the order of the areas, with nothing in the
    place of an area that is left out. *)
Theorem buildAreaPartitionMaps_accepted_areas jsonContent ref areas :
  getProp jsonContent "areas" = JArray ref areas ->
  exists lg,
    buildAreaPartitionMaps jsonContent
    = (lg, Returned (areaPartitionMapOf <$> List.filter areaMapped areas))
    /\ (forall index area,
          areas !! index = Some area -> areaMapped area = false ->
          (areaIsObject area = false /\ (WARN, MAreaInvalid index area) ∈ lg)
          \/ (areaIsObject area = true /\ areaHasUuidAndName area = false
              /\ (WARN, MAreaMissingUuidOrName index
                          (getProp area "uuid") (getProp area "name")) ∈ lg)
          \/ (areaAccepted area = true
              /\ printable (getProp area "name") = false
              /\ (exists partition,
                    partition ∈ arrayItems (getProp area "partitions")
                    /\ partitionOf partition = None)
              /\ (ERROR, MAreaError index TypeError) ∈ lg))
    /\ (forall area,
          area ∈ areas -> areaAccepted area = true ->
          printable (getProp area "name") = true
          \/ Forall (fun partition => partitionOf partition <> None)
               (arrayItems (getProp area "partitions")) ->
          areaMapped area = true).
Proof.
  intros Hareas. unfold buildAreaPartitionMaps.
  assert (Hnn : nullish jsonContent = false).
  { destruct jsonContent; try reflexivity; discriminate. }
  rewrite Hnn, Hareas. simpl.
  pose proof (forEntries_mapArea_maps 0 areas) as Hmaps.
  pose proof (forEntries_mapArea_log 0 areas) as Hlog.
  destruct (forEntries mapArea 0 areas) as [lg maps]. simpl in Hmaps, Hlog.
  subst maps. eexists. split; [reflexivity|]. split.
  - intros index area Hi Hrej.
    assert (Hin : forall entry,
               mapArea index area = ([entry], None) -> entry ∈ lg ++ [(LOG, MAreaMapsCreated (length (areaPartitionMapOf <$> List.filter areaMapped areas)))]).
    { intros entry Heq. apply elem_of_app. left.
      apply (Hlog index area _ Hi). simpl. rewrite Heq. apply list_elem_of_here. }
    destruct (mapArea_cases index area)
      as [(Ho & Heq)|[(Ho & Hu & Heq)|[(Ha & Hd & Heq)|(Hm & _)]]];
      [| | |congruence].
    + left. split; [exact Ho | exact (Hin _ Heq)].
    + right. left. split; [exact Ho|]. split; [exact Hu | exact (Hin _ Heq)].
    + right. right. split; [exact Ha|].
      unfold areaDropped in Hd.
      apply andb_true_iff in Hd. destruct Hd as [Hd Hex].
      apply andb_true_iff in Hd. destruct Hd as [Hp _].
      apply negb_true_iff in Hp. split; [exact Hp|]. split; [|exact (Hin _ Heq)].
      apply existsb_exists in Hex. destruct Hex as (partition & Hpin & Hnone).
      exists partition. split; [apply list_elem_of_In; exact Hpin|].
      destruct (partitionOf partition); [discriminate | reflexivity].
  - intros area _ Hacc Hok. unfold areaMapped, areaDropped. rewrite Hacc.
    destruct Hok as [-> | Hall]; [reflexivity|].
    destruct (existsb _ _) eqn:Hex; [|rewrite andb_false_r; reflexivity].
    apply existsb_exists in Hex. destruct Hex as (partition & Hpin & Hnone).
    rewrite Forall_forall in Hall.
    apply list_elem_of_In in Hpin. specialize (Hall partition Hpin).
    destruct (partitionOf partition); [discriminate | congruence].
Qed.

End AreaPartitionMaps.

(** C5 as the specification states it fails: an area with a [uuid] and
    without a [name] is a keyed record that does not lack both, and it is
    skipped all the same. *)
Lemma area_without_name_is_skipped :
  areaSkipped_spec Sample.hallway = false
  /\ outcome (buildAreaPartitionMaps (Sample.areasOnly [Sample.hallway]))
     = Returned [].
Proof. split; reflexivity. Qed.

(** An area that passes both tests and is left out: its name cannot be
    converted to a string, and its second partition is [null]; the area
    after it is mapped.  With partitions that call for no warning, the
    map of such an area is stored, and the line that reports it
    throws. *)
Example area_dropped_by_the_catch :
  areaAccepted Cases.unnamedZone = true
  /\ buildAreaPartitionMaps (Sample.areasOnly [Cases.unnamedZone; Sample.kitchen])
     = ([(ERROR, MAreaError 0 TypeError);
         (LOG, MMappedArea (JString "Kitchen") 1);
         (LOG, MAreaMapsCreated 1)],
        Returned [Sample.kitchenMap]).
Proof. split; reflexivity. Qed.

Example area_stored_before_the_catch :
  buildAreaPartitionMaps (Sample.areasOnly [Cases.mutedZone])
  = ([(ERROR, MAreaError 0 TypeError); (LOG, MAreaMapsCreated 1)],
     Returned [AreaPartitionMap.mk (JString "a8") Cases.unprintable
                 [Partition.mk (JString "p7") (JString "Partition_p7")]]).
Proof. reflexivity. Qed.

Lemma buildAreaPartitionMaps_accepted_areas_witness :
  getProp (Sample.areasOnly [Sample.hallway; Sample.kitchen; Sample.garden]) "areas"
  = JArray 18 [Sample.hallway; Sample.kitchen; Sample.garden]
  /\ outcome (buildAreaPartitionMaps
                (Sample.areasOnly [Sample.hallway; Sample.kitchen; Sample.garden]))
     = Returned [areaPartitionMapOf Sample.kitchen; areaPartitionMapOf Sample.garden].
Proof.
  split; [reflexivity|].
  destruct (buildAreaPartitionMaps_accepted_areas
              (Sample.areasOnly [Sample.hallway; Sample.kitchen; Sample.garden])
              18 [Sample.hallway; Sample.kitchen; Sample.garden] eq_refl)
    as (lg & -> & _).
  reflexivity.
Defined.

(** ** The endpoint-area relations *)

Section MapFacts.

Context {V : Type}.
Implicit Types (m : JSMap.t V) (k : JSValue) (v : V).

Lemma Number_sameValueZero_refl x : Number.sameValueZero x x = true.
Proof.
  destruct x as [s|s| |s mx ex]; try (destruct s; reflexivity); try reflexivity.
  unfold Number.sameValueZero, SFeqb, SFcompare.
  rewrite Z.compare_refl, Pos.compare_cont_refl. destruct s; reflexivity.
Qed.

Lemma sameValueZero_refl k : sameValueZero k k = true.
Proof.
  destruct k as [| |b|x|s|r items|r props]; simpl; try reflexivity.
  - destruct b; reflexivity.
  - apply Number_sameValueZero_refl.
  - apply String.eqb_refl.
  - apply Nat.eqb_refl.
  - apply Nat.eqb_refl.
Qed.

Lemma JSMap_get_app m m' k :
  JSMap.get (m ++ m') k
  = match JSMap.get m k with Some v => Some v | None => JSMap.get m' k end.
Proof.
  induction m as [|[k' v'] m IH]; simpl; [reflexivity|].
  destruct (sameValueZero k' k); [reflexivity | exact IH].
Qed.

Lemma JSMap_set_absent m k v :
  JSMap.get m k = None -> JSMap.set m k v = m ++ [(k, v)].
Proof.
  induction m as [|[k' v'] m IH]; simpl; [reflexivity|].
  destruct (sameValueZero k' k); [discriminate|].
  intros Hnone. rewrite IH by exact Hnone. reflexivity.
Qed.

Lemma JSMap_get_set_absent m k v :
  JSMap.get m k = None -> JSMap.get (JSMap.set m k v) k = Some v.
Proof.
  intros Hnone. rewrite JSMap_set_absent, JSMap_get_app, Hnone by exact Hnone.
  simpl. rewrite sameValueZero_refl. reflexivity.
Qed.

Lemma JSMap_get_none m k :
  JSMap.get m k = None ->
  Forall (fun entry => sameValueZero (fst entry) k = false) m.
Proof.
  induction m as [|[k' v'] m IH]; simpl; [constructor|].
  destruct (sameValueZero k' k) eqn:Ek; [discriminate|].
  intros Hnone. constructor; [exact Ek | apply IH, Hnone].
Qed.

Lemma JSMap_uniqueKeys_snoc m k v :
  JSMap.uniqueKeys m -> JSMap.get m k = None ->
  JSMap.uniqueKeys (m ++ [(k, v)]).
Proof.
  induction m as [|[k' v'] m IH]; simpl.
  - intros _ _. split; constructor.
  - intros [Hk' Hm]. destruct (sameValueZero k' k) eqn:Ek; [discriminate|].
    intros Hnone. split; [|apply IH; assumption].
    apply Forall_app. split; [exact Hk'|]. repeat constructor. exact Ek.
Qed.

Lemma JSMap_get_some_size m k v : JSMap.get m k = Some v -> 0 < JSMap.size m.
Proof. destruct m; simpl; [discriminate | lia]. Qed.

End MapFacts.

Section Relations.

Implicit Types (endpoint endpointName jsonContent : JSValue).
Implicit Types (areaMap : AreaPartitionMap.t) (maps : list AreaPartitionMap.t).
Implicit Types (st : RelationState.t) (lg : list LogEntry).

(** A value stored under a key is an entry whose key is the same value
    (SameValueZero). *)
Lemma JSMap_get_entry {V : Type} (m : JSMap.t V) k v :
  JSMap.get m k = Some v ->
  exists k', (k', v) ∈ m /\ sameValueZero k' k = true.
Proof.
  induction m as [|[k1 v1] m IH]; simpl; [discriminate|].
  destruct (sameValueZero k1 k) eqn:Ek.
  - intros [= <-]. exists k1. split; [left | exact Ek].
  - intros Hget. destruct (IH Hget) as (k' & Hin & Hk').
    exists k'. split; [right; exact Hin | exact Hk'].
Qed.

Lemma tellWith_outcome values l m :
  snd (tellWith values l m) = Returned tt \/ snd (tellWith values l m) = Thrown TypeError.
Proof. unfold tellWith. destruct (forallb printable values); [left | right]; reflexivity. Qed.

(** The three ways through a round of the loop over the area maps *)
Lemma relateArea_no_share endpoint endpointName st areaMap :
  sharesPartition endpoint areaMap = false ->
  relateArea endpoint endpointName st areaMap = (([], Returned tt), st).
Proof. intros Hs. unfold relateArea. rewrite Hs. reflexivity. Qed.

Lemma relateArea_present endpoint endpointName st areaMap existing :
  sharesPartition endpoint areaMap = true ->
  JSMap.get (RelationState.relations st) (getProp endpoint "uuid") = Some existing ->
  relateArea endpoint endpointName st areaMap
  = (tellWith [getProp endpoint "uuid"; EndpointAreaRelation.areaName existing;
               AreaPartitionMap.areaName areaMap]
       LOG (MAlreadyMapped (getProp endpoint "uuid")
              (EndpointAreaRelation.areaName existing)
              (AreaPartitionMap.areaName areaMap)),
     st).
Proof. intros Hs Hget. unfold relateArea. rewrite Hs, Hget. reflexivity. Qed.

Lemma relateArea_absent endpoint endpointName st areaMap :
  sharesPartition endpoint areaMap = true ->
  JSMap.get (RelationState.relations st) (getProp endpoint "uuid") = None ->
  relateArea endpoint endpointName st areaMap
  = (tellWith [endpointName; AreaPartitionMap.areaName areaMap]
       LOG (MRelationCreated endpointName (AreaPartitionMap.areaName areaMap)
              (length (sharedPartitions endpoint areaMap))),
     related endpoint endpointName areaMap st).
Proof.
  intros Hs Hget. unfold relateArea, related. rewrite Hs, Hget.
  rewrite JSMap_set_absent by exact Hget. reflexivity.
Qed.

Lemma related_get endpoint endpointName areaMap st :
  JSMap.get (RelationState.relations st) (getProp endpoint "uuid") = None ->
  JSMap.get (RelationState.relations (related endpoint endpointName areaMap st))
    (getProp endpoint "uuid")
  = Some (mkRelation endpoint endpointName areaMap).
Proof.
  intros Hnone. unfold related. cbn [RelationState.relations].
  rewrite JSMap_get_app, Hnone. simpl. rewrite sameValueZero_refl. reflexivity.
Qed.

(** An endpoint that has a relation goes through the area maps without
    a change of the state; when the names can be printed, each area map
    it shares a partition with is printed as a conflict. *)
Lemma relateAreas_present endpoint endpointName maps st existing :
  JSMap.get (RelationState.relations st) (getProp endpoint "uuid") = Some existing ->
  exists lg o,
    relateAreas endpoint endpointName maps st = ((lg, o), st)
    /\ (o = Returned tt \/ o = Thrown TypeError)
    /\ (printable (getProp endpoint "uuid") = true ->
        printable (EndpointAreaRelation.areaName existing) = true ->
        Forall (fun a => printable (AreaPartitionMap.areaName a) = true) maps ->
        o = Returned tt
        /\ lg = conflict endpoint existing <$> List.filter (sharesPartition endpoint) maps).
Proof.
  intros Hget. induction maps as [|areaMap maps IH].
  - exists [], (Returned tt). split; [reflexivity|]. split; [left; reflexivity|].
    intros _ _ _. split; reflexivity.
  - destruct IH as (lg' & o' & Hrest & Ho' & Hprint).
    cbn [relateAreas List.filter].
    destruct (sharesPartition endpoint areaMap) eqn:Eshare.
    + rewrite (relateArea_present _ _ _ _ existing Eshare Hget).
      unfold tellWith. cbn [forallb].
      destruct (printable (getProp endpoint "uuid") && _) eqn:Ep.
      * cbn [tell]. rewrite Hrest.
        exists ((LOG, MAlreadyMapped (getProp endpoint "uuid")
                        (EndpointAreaRelation.areaName existing)
                        (AreaPartitionMap.areaName areaMap)) :: lg'), o'.
        split; [reflexivity|]. split; [exact Ho'|].
        intros Hu He Hall. apply Forall_cons in Hall. destruct Hall as [_ Hall].
        destruct (Hprint Hu He Hall) as [-> ->]. split; reflexivity.
      * exists [], (Thrown TypeError). split; [reflexivity|].
        split; [right; reflexivity|].
        intros Hu He Hall. apply Forall_cons in Hall. destruct Hall as [Ha _].
        rewrite Hu, He, Ha in Ep. discriminate.
    + rewrite (relateArea_no_share _ _ _ _ Eshare), Hrest.
      exists lg', o'. split; [reflexivity|]. split; [exact Ho'|].
      intros Hu He Hall. apply Forall_cons in Hall. destruct Hall as [_ Hall].
      exact (Hprint Hu He Hall).
Qed.

(** An endpoint without a relation passes the area maps it shares
    nothing with and is stored at the first one it shares a partition
    with, before the line that reports it; no later area map changes
    that. *)
Lemma relateAreas_absent endpoint endpointName before areaMap after st :
  JSMap.get (RelationState.relations st) (getProp endpoint "uuid") = None ->
  Forall (fun a => sharesPartition endpoint a = false) before ->
  sharesPartition endpoint areaMap = true ->
  exists lg o,
    relateAreas endpoint endpointName (before ++ areaMap :: after) st
    = ((lg, o), related endpoint endpointName areaMap st)
    /\ (o = Returned tt \/ o = Thrown TypeError)
    /\ (printable endpointName = true ->
        printable (getProp endpoint "uuid") = true ->
        Forall (fun a => printable (AreaPartitionMap.areaName a) = true)
          (areaMap :: after) ->
        o = Returned tt
        /\ lg = (LOG, MRelationCreated endpointName
                        (AreaPartitionMap.areaName areaMap)
                        (length (sharedPartitions endpoint areaMap)))
                :: (conflict endpoint (mkRelation endpoint endpointName areaMap)
                      <$> List.filter (sharesPartition endpoint) after)).
Proof.
  intros Hnone Hbefore Hshare.
  induction Hbefore as [|a before Ha _ IH].
  - cbn [app relateAreas].
    rewrite (relateArea_absent _ _ _ _ Hshare Hnone).
    destruct (relateAreas_present endpoint endpointName after
                (related endpoint endpointName areaMap st)
                (mkRelation endpoint endpointName areaMap)
                (related_get _ _ _ _ Hnone))
      as (lg' & o' & Hrest & Ho' & Hprint).
    unfold tellWith. cbn [forallb].
    destruct (printable endpointName && _) eqn:Ep.
    + cbn [tell]. rewrite Hrest. eexists _, o'. split; [reflexivity|].
      split; [exact Ho'|].
      intros Hn Hu Hall. apply Forall_cons in Hall. destruct Hall as [Ha Hall].
      destruct (Hprint Hu Ha Hall) as [-> ->]. split; reflexivity.
    + exists [], (Thrown TypeError). split; [reflexivity|].
      split; [right; reflexivity|].
      intros Hn Hu Hall. apply Forall_cons in Hall. destruct Hall as [Ha _].
      rewrite Hn, Ha in Ep. discriminate.
  - cbn [app relateAreas]. rewrite (relateArea_no_share _ _ _ _ Ha).
    destruct IH as (lg & o & -> & Ho & Hprint).
    exists lg, o. split; [reflexivity|]. split; [exact Ho | exact Hprint].
Qed.

Lemma relateAreas_none endpoint endpointName maps st :
  Forall (fun a => sharesPartition endpoint a = false) maps ->
  relateAreas endpoint endpointName maps st = (([], Returned tt), st).
Proof.
  induction 1 as [|a maps Ha _ IH]; [reflexivity|].
  cbn [relateAreas]. rewrite (relateArea_no_share _ _ _ _ Ha), IH. reflexivity.
Qed.

(** Splitting the area maps at the first one that shares a partition *)
Lemma first_share endpoint maps :
  Forall (fun a => sharesPartition endpoint a = false) maps
  \/ exists before areaMap after,
       maps = before ++ areaMap :: after
       /\ Forall (fun a => sharesPartition endpoint a = false) before
       /\ sharesPartition endpoint areaMap = true.
Proof.
  induction maps as [|a maps IH]; [left; constructor|].
  destruct (sharesPartition endpoint a) eqn:Ea.
  - right. exists [], a, maps. split; [reflexivity|]. split; [constructor | exact Ea].
  - destruct IH as [Hnone | (before & areaMap & after & -> & Hb & Hs)].
    + left. constructor; assumption.
    + right. exists (a :: before), areaMap, after.
      split; [reflexivity|]. split; [constructor; assumption | exact Hs].
Qed.

(** What the loop over the area maps does to the state, for one
    endpoint: nothing, or one relation more, under a key that had
    none. *)
Lemma relateAreas_state endpoint endpointName maps st :
  exists lg o st',
    relateAreas endpoint endpointName maps st = ((lg, o), st')
    /\ (o = Returned tt \/ o = Thrown TypeError)
    /\ (st' = st
        \/ exists areaMap,
             areaMap ∈ maps
             /\ JSMap.get (RelationState.relations st) (getProp endpoint "uuid") = None
             /\ sharesPartition endpoint areaMap = true
             /\ st' = related endpoint endpointName areaMap st).
Proof.
  destruct (first_share endpoint maps)
    as [Hnone | (before & areaMap & after & -> & Hb & Hs)].
  - rewrite (relateAreas_none _ _ _ _ Hnone).
    eexists _, _, _. split; [reflexivity|]. split; [left; reflexivity|].
    left. reflexivity.
  - destruct (JSMap.get (RelationState.relations st) (getProp endpoint "uuid"))
      as [existing|] eqn:Eget.
    + destruct (relateAreas_present endpoint endpointName
                  (before ++ areaMap :: after) st existing Eget)
        as (lg & o & -> & Ho & _).
      eexists _, _, _. split; [reflexivity|]. split; [exact Ho|]. left. reflexivity.
    + destruct (relateAreas_absent endpoint endpointName before areaMap after st
                  Eget Hb Hs) as (lg & o & -> & Ho & _).
      eexists _, _, _. split; [reflexivity|]. split; [exact Ho|]. right.
      exists areaMap. split; [|auto].
      apply elem_of_app. right. left.
Qed.

(** What the round of an endpoint does: it counts the endpoint, prints,
    and stores at most one relation, of that endpoint with one of the
    area maps, under a key that had none. *)
Lemma relateEndpoint_state maps endpointIndex endpoint lg st :
  exists lg' st',
    relateEndpoint maps endpointIndex endpoint (lg, st) = (lg ++ lg', st')
    /\ RelationState.totalEndpointsProcessed st'
       = RelationState.totalEndpointsProcessed st + 1
    /\ ((RelationState.relations st' = RelationState.relations st
         /\ RelationState.totalRelationsCreated st'
            = RelationState.totalRelationsCreated st)
        \/ exists endpointName areaMap,
             areaMap ∈ maps
             /\ endpointDisplayName endpoint = Returned endpointName
             /\ truthy (getProp endpoint "uuid") = true
             /\ JSMap.get (RelationState.relations st) (getProp endpoint "uuid") = None
             /\ sharesPartition endpoint areaMap = true
             /\ RelationState.relations st'
                = RelationState.relations st
                  ++ [(getProp endpoint "uuid",
                       mkRelation endpoint endpointName areaMap)]
             /\ RelationState.totalRelationsCreated st'
                = RelationState.totalRelationsCreated st + 1).
Proof.
  unfold relateEndpoint.
  destruct (negb (truthy endpoint) || negb (truthy (getProp endpoint "uuid")))
    eqn:Eguard.
  { eexists _, _. split; [reflexivity|]. split; [reflexivity|]. left.
    split; reflexivity. }
  destruct (negb (isArray (getProp endpoint "partitions"))
            || (length (arrayItems (getProp endpoint "partitions")) =? 0)).
  { exists [], (RelationState.mk (RelationState.relations st)
                  (RelationState.totalEndpointsProcessed st + 1)
                  (RelationState.totalRelationsCreated st)).
    rewrite app_nil_r. split; [reflexivity|]. split; [reflexivity|]. left.
    split; reflexivity. }
  destruct (endpointDisplayName endpoint) as [endpointName|e] eqn:Ename.
  2:{ eexists _, _. split; [reflexivity|]. split; [reflexivity|]. left.
      split; reflexivity. }
  apply orb_false_iff in Eguard. destruct Eguard as [_ Hu].
  apply negb_false_iff in Hu.
  destruct (relateAreas_state endpoint endpointName maps
              (RelationState.mk (RelationState.relations st)
                 (RelationState.totalEndpointsProcessed st + 1)
                 (RelationState.totalRelationsCreated st)))
    as (lg' & o & st' & -> & Ho & Hst).
  assert (Hout : exists lg'',
             match o with
             | Thrown error =>
                 (lg ++ lg' ++ [(ERROR, MEndpointError endpointIndex error)], st')
             | Returned _ => (lg ++ lg', st')
             end = (lg ++ lg'', st')).
  { destruct Ho as [-> | ->]; eexists; reflexivity. }
  destruct Hout as [lg'' ->]. exists lg'', st'. split; [reflexivity|].
  destruct Hst as [-> | (areaMap & Hin & Hnone & Hshare & ->)].
  - split; [reflexivity|]. left. split; reflexivity.
  - split; [reflexivity|]. right. exists endpointName, areaMap.
    repeat split; assumption.
Qed.

Lemma extends_refl acc : extends acc acc.
Proof.
  split; [exists []; rewrite app_nil_r; reflexivity|]. split; auto.
Qed.

Lemma extends_trans acc1 acc2 acc3 :
  extends acc1 acc2 -> extends acc2 acc3 -> extends acc1 acc3.
Proof.
  intros ([l1 H1] & G1 & U1) ([l2 H2] & G2 & U2).
  split; [exists (l1 ++ l2); rewrite H2, H1, app_assoc; reflexivity|].
  split; auto.
Qed.

Lemma relateEndpoint_extends maps endpointIndex endpoint acc :
  extends acc (relateEndpoint maps endpointIndex endpoint acc).
Proof.
  destruct acc as [lg st].
  destruct (relateEndpoint_state maps endpointIndex endpoint lg st)
    as (lg' & st' & -> & _ & [[Hrel _] | (endpointName & areaMap & _ & _ & _ & Hnone
                                         & _ & Hrel & _)]).
  - split; [exists lg'; reflexivity|]. cbn [snd]. rewrite Hrel. split; auto.
  - split; [exists lg'; reflexivity|]. cbn [snd]. rewrite Hrel. split.
    + intros k r Hget. rewrite JSMap_get_app, Hget. reflexivity.
    + intros Hu. apply JSMap_uniqueKeys_snoc; assumption.
Qed.

Lemma relateEndpoints_extends maps endpointIndex endpoints acc :
  extends acc (relateEndpoints maps endpointIndex endpoints acc).
Proof.
  revert endpointIndex acc.
  induction endpoints as [|endpoint endpoints IH]; intros endpointIndex acc; simpl.
  - apply extends_refl.
  - eapply extends_trans; [apply relateEndpoint_extends | apply IH].
Qed.

(** An endpoint leaves alone the keys that are not its [uuid]. *)
Lemma relateEndpoint_other_key maps endpointIndex endpoint acc k :
  sameValueZero (getProp endpoint "uuid") k = false ->
  JSMap.get (RelationState.relations (snd (relateEndpoint maps endpointIndex endpoint acc))) k
  = JSMap.get (RelationState.relations (snd acc)) k.
Proof.
  intros Hk. destruct acc as [lg st].
  destruct (relateEndpoint_state maps endpointIndex endpoint lg st)
    as (lg' & st' & -> & _ & [[Hrel _] | (endpointName & areaMap & _ & _ & _ & _
                                         & _ & Hrel & _)]);
    cbn [snd]; rewrite Hrel; [reflexivity|].
  rewrite JSMap_get_app. simpl. rewrite Hk.
  destruct (JSMap.get (RelationState.relations st) k); reflexivity.
Qed.

Lemma relateEndpoints_other_keys maps endpointIndex endpoints acc k :
  Forall (fun endpoint => sameValueZero (getProp endpoint "uuid") k = false)
    endpoints ->
  JSMap.get (RelationState.relations (snd (relateEndpoints maps endpointIndex endpoints acc))) k
  = JSMap.get (RelationState.relations (snd acc)) k.
Proof.
  intros Hall. revert endpointIndex acc.
  induction Hall as [|endpoint endpoints Hk _ IH]; intros endpointIndex acc; simpl.
  - reflexivity.
  - rewrite IH. apply relateEndpoint_other_key. exact Hk.
Qed.

Lemma relateEndpoints_app maps endpointIndex before after acc :
  relateEndpoints maps endpointIndex (before ++ after) acc
  = relateEndpoints maps (endpointIndex + length before) after
      (relateEndpoints maps endpointIndex before acc).
Proof.
  revert endpointIndex acc.
  induction before as [|endpoint before IH]; intros endpointIndex acc; simpl.
  - rewrite Nat.add_0_r. reflexivity.
  - rewrite IH. f_equal. lia.
Qed.

(** The counters of the loop over the endpoints: every endpoint is
    counted, every relation stored is counted once, and no endpoint
    stores more than one. *)
Lemma relateEndpoints_counters maps endpointIndex endpoints lg st :
  let st' := snd (relateEndpoints maps endpointIndex endpoints (lg, st)) in
  RelationState.totalEndpointsProcessed st'
  = RelationState.totalEndpointsProcessed st + length endpoints
  /\ JSMap.size (RelationState.relations st')
     <= JSMap.size (RelationState.relations st) + length endpoints
  /\ RelationState.totalRelationsCreated st' + JSMap.size (RelationState.relations st)
     = RelationState.totalRelationsCreated st + JSMap.size (RelationState.relations st').
Proof.
  revert endpointIndex lg st.
  induction endpoints as [|endpoint endpoints IH]; intros endpointIndex lg st.
  - simpl. repeat split; lia.
  - cbn [relateEndpoints length].
    destruct (relateEndpoint_state maps endpointIndex endpoint lg st)
      as (lg1 & st1 & -> & Hp & Hst).
    specialize (IH (S endpointIndex) (lg ++ lg1) st1). cbn zeta in IH.
    destruct IH as (IHp & IHs & IHc). cbn zeta.
    destruct Hst as [[Hrel Hc] | (endpointName & areaMap & _ & _ & _ & _ & _
                                  & Hrel & Hc)];
      rewrite Hrel in *; unfold JSMap.size in *; rewrite ?length_app in *;
      simpl in *; repeat split; lia.
Qed.

(** Every relation stored comes from an endpoint and an area map. *)
Lemma relateEndpoints_from all maps endpointIndex endpoints lg st :
  (forall endpoint, endpoint ∈ endpoints -> endpoint ∈ all) ->
  Forall (relationFrom all maps) (RelationState.relations st) ->
  Forall (relationFrom all maps)
    (RelationState.relations
       (snd (relateEndpoints maps endpointIndex endpoints (lg, st)))).
Proof.
  revert endpointIndex lg st.
  induction endpoints as [|endpoint endpoints IH];
    intros endpointIndex lg st Hsub Hfrom; cbn [relateEndpoints];
    [exact Hfrom|].
  destruct (relateEndpoint_state maps endpointIndex endpoint lg st)
    as (lg1 & st1 & -> & _ & Hst).
  apply IH; [intros e He; apply Hsub; right; exact He|].
  destruct Hst as [[-> _] | (endpointName & areaMap & Hin & Hname & Hu & _ & Hshare
                             & -> & _)]; [exact Hfrom|].
  apply Forall_app. split; [exact Hfrom|]. repeat constructor.
  exists endpoint, endpointName, areaMap.
  repeat split; try assumption; try reflexivity.
  apply Hsub. left.
Qed.

Lemma relateEndpoints_provenance maps endpoints :
  Forall (relationFrom endpoints maps)
    (RelationState.relations (snd (relateEndpoints maps 0 endpoints noRelations))).
Proof.
  unfold noRelations. apply relateEndpoints_from; [auto | constructor].
Qed.

(** Sharing a partition, on the partitions that the endpoint lists *)
Lemma sharesPartition_Exists endpoint ref partitions areaMap :
  getProp endpoint "partitions" = JArray ref partitions ->
  sharesPartition endpoint areaMap = true
  <-> Exists (fun p => Array_includes partitions (Partition.uuid p) = true)
        (AreaPartitionMap.partitions areaMap).
Proof.
  intros Hparts. unfold sharesPartition, sharedPartitions.
  rewrite Hparts. cbn [arrayItems]. rewrite Nat.ltb_lt.
  induction (AreaPartitionMap.partitions areaMap) as [|p ps IH]; cbn [List.filter].
  - simpl. split; [lia | intros Hex; inversion Hex].
  - destruct (Array_includes partitions (Partition.uuid p)) eqn:Ep.
    + split; [intros _; left; exact Ep | simpl; lia].
    + rewrite IH. split; [intros Hex; right; exact Hex|].
      intros Hex. inversion Hex; [congruence | assumption].
Qed.

Lemma sharesPartition_Forall endpoint ref partitions areaMap :
  getProp endpoint "partitions" = JArray ref partitions ->
  sharesPartition endpoint areaMap = false
  <-> Forall (fun p => Array_includes partitions (Partition.uuid p) = false)
        (AreaPartitionMap.partitions areaMap).
Proof.
  intros Hparts.
  pose proof (sharesPartition_Exists endpoint ref partitions areaMap Hparts) as Hex.
  destruct (sharesPartition endpoint areaMap).
  - split; [discriminate|]. intros Hall. exfalso.
    destruct Hex as [Hex _]. specialize (Hex eq_refl).
    apply Exists_exists in Hex. destruct Hex as (p & Hin & Hp).
    rewrite Forall_forall in Hall. rewrite (Hall p Hin) in Hp. discriminate.
  - split; [|reflexivity]. intros _. apply Forall_forall. intros p Hin.
    destruct (Array_includes partitions (Partition.uuid p)) eqn:Ep; [|reflexivity].
    destruct Hex as [_ Hex]. discriminate Hex.
    apply Exists_exists. exists p. split; assumption.
Qed.

(** The round of an endpoint with a string [uuid] under which nothing is
    stored yet, across areas of which one shares a partition with it *)
Lemma relateEndpoint_first_match maps_before areaMap maps_after endpointIndex
    endpoint uuid partitionsRef partitions acc :
  getProp endpoint "uuid" = JString uuid -> uuid <> EmptyString ->
  getProp endpoint "partitions" = JArray partitionsRef partitions ->
  Forall (fun a => sharesPartition endpoint a = false) maps_before ->
  sharesPartition endpoint areaMap = true ->
  JSMap.get (RelationState.relations (snd acc)) (JString uuid) = None ->
  exists endpointName,
    endpointDisplayName endpoint = Returned endpointName
    /\ endpointName
       = orElse (getProp endpoint "name")
           (JString ("Device_" +:+ String.substring 0 8 uuid))
    /\ JSMap.get
         (RelationState.relations
            (snd (relateEndpoint (maps_before ++ areaMap :: maps_after)
                    endpointIndex endpoint acc)))
         (JString uuid)
       = Some (mkRelation endpoint endpointName areaMap)
    /\ (printable (getProp endpoint "name") = true ->
        Forall (fun a => printable (AreaPartitionMap.areaName a) = true)
          (areaMap :: maps_after) ->
        forall other,
          other ∈ maps_after -> sharesPartition endpoint other = true ->
          conflict endpoint (mkRelation endpoint endpointName areaMap) other
          ∈ fst (relateEndpoint (maps_before ++ areaMap :: maps_after)
                   endpointIndex endpoint acc)).
Proof.
  intros Huuid Hne Hparts Hbefore Hshare Hnone.
  assert (Hname : endpointDisplayName endpoint
                  = Returned (orElse (getProp endpoint "name")
                                (JString ("Device_" +:+ String.substring 0 8 uuid)))).
  { unfold endpointDisplayName, orElse. rewrite Huuid.
    destruct (truthy (getProp endpoint "name")); reflexivity. }
  eexists. split; [exact Hname|]. split; [reflexivity|].
  set (endpointName := orElse (getProp endpoint "name") _) in *.
  assert (Htruthy : truthy endpoint = true).
  { destruct endpoint as [| |b|x|s|r items|r props]; try discriminate;
      reflexivity. }
  assert (Hu : truthy (JString uuid) = true).
  { simpl. destruct (String.eqb_spec uuid EmptyString); [contradiction|reflexivity]. }
  assert (Hnonempty : (length partitions =? 0) = false).
  { apply (sharesPartition_Exists endpoint partitionsRef partitions areaMap Hparts)
      in Hshare.
    destruct partitions; [|reflexivity].
    apply Exists_exists in Hshare. destruct Hshare as (p & _ & Hp). discriminate Hp. }
  destruct acc as [lg st]. cbn [snd] in Hnone. unfold relateEndpoint.
  rewrite Htruthy, Huuid, Hu, Hparts, Hname.
  cbn [negb orb isArray arrayItems]. rewrite Hnonempty.
  rewrite <- Huuid in Hnone |- *.
  destruct (relateAreas_absent endpoint endpointName maps_before areaMap maps_after
              (RelationState.mk (RelationState.relations st)
                 (RelationState.totalEndpointsProcessed st + 1)
                 (RelationState.totalRelationsCreated st))
              Hnone Hbefore Hshare) as (lg' & o & -> & Ho & Hprint).
  split.
  - assert (Hget : JSMap.get
                     (RelationState.relations
                        (related endpoint endpointName areaMap
                           (RelationState.mk (RelationState.relations st)
                              (RelationState.totalEndpointsProcessed st + 1)
                              (RelationState.totalRelationsCreated st))))
                     (getProp endpoint "uuid")
                   = Some (mkRelation endpoint endpointName areaMap))
      by (apply related_get; exact Hnone).
    destruct o; exact Hget.
  - intros Hpname Hall other Hin Hother.
    assert (Hpn : printable endpointName = true).
    { unfold endpointName, orElse.
      destruct (truthy (getProp endpoint "name")); [exact Hpname | reflexivity]. }
    assert (Hpu : printable (getProp endpoint "uuid") = true)
      by (rewrite Huuid; reflexivity).
    destruct (Hprint Hpn Hpu Hall) as [-> ->]. cbn [fst].
    apply elem_of_app. right. right.
    apply list_elem_of_fmap. exists other. split; [reflexivity|].
    apply list_elem_of_In, filter_In. split; [apply list_elem_of_In, Hin | exact Hother].
Qed.

(** The loop over the endpoints, at an endpoint with a string [uuid]
    that no earlier endpoint bears: its relation is the one with the
    first area map that shares a partition with it. *)
Lemma relateEndpoints_first_match maps_before areaMap maps_after earlier endpoint
    later uuid partitionsRef partitions :
  getProp endpoint "uuid" = JString uuid -> uuid <> EmptyString ->
  getProp endpoint "partitions" = JArray partitionsRef partitions ->
  Forall (fun other => sameValueZero (getProp other "uuid") (JString uuid) = false)
    earlier ->
  Forall (fun a => sharesPartition endpoint a = false) maps_before ->
  sharesPartition endpoint areaMap = true ->
  let endpointName :=
    orElse (getProp endpoint "name")
      (JString ("Device_" +:+ String.substring 0 8 uuid)) in
  let acc := relateEndpoints (maps_before ++ areaMap :: maps_after) 0
               (earlier ++ endpoint :: later) noRelations in
  JSMap.get (RelationState.relations (snd acc)) (JString uuid)
  = Some (mkRelation endpoint endpointName areaMap)
  /\ JSMap.uniqueKeys (RelationState.relations (snd acc))
  /\ (printable (getProp endpoint "name") = true ->
      Forall (fun a => printable (AreaPartitionMap.areaName a) = true)
        (areaMap :: maps_after) ->
      forall other,
        other ∈ maps_after -> sharesPartition endpoint other = true ->
        conflict endpoint (mkRelation endpoint endpointName areaMap) other
        ∈ fst acc).
Proof.
  intros Huuid Hne Hparts Hearlier Hbefore Hshare. cbn zeta.
  set (maps := maps_before ++ areaMap :: maps_after).
  set (acc1 := relateEndpoints maps 0 earlier noRelations).
  set (acc2 := relateEndpoint maps (0 + length earlier) endpoint acc1).
  set (acc3 := relateEndpoints maps (S (0 + length earlier)) later acc2).
  assert (Hrun : relateEndpoints maps 0 (earlier ++ endpoint :: later) noRelations
                 = acc3).
  { rewrite relateEndpoints_app. reflexivity. }
  rewrite Hrun.
  assert (Hnone : JSMap.get (RelationState.relations (snd acc1)) (JString uuid)
                  = None).
  { unfold acc1. rewrite relateEndpoints_other_keys by exact Hearlier.
    reflexivity. }
  destruct (relateEndpoint_first_match maps_before areaMap maps_after
              (0 + length earlier) endpoint uuid partitionsRef partitions
              acc1 Huuid Hne Hparts Hbefore Hshare Hnone)
    as (endpointName & Hname & -> & Hget & Hconflicts).
  fold maps in Hget, Hconflicts. fold acc2 in Hget, Hconflicts.
  destruct (relateEndpoints_extends maps (S (0 + length earlier)) later acc2)
    as ([lg3 Hlg3] & Hkeep3 & Huniq3).
  fold acc3 in Hlg3, Hkeep3, Huniq3.
  split; [apply Hkeep3, Hget|]. split.
  - apply Huniq3.
    destruct (relateEndpoint_extends maps (0 + length earlier) endpoint acc1)
      as (_ & _ & Huniq2).
    apply Huniq2.
    destruct (relateEndpoints_extends maps 0 earlier noRelations) as (_ & _ & Huniq1).
    apply Huniq1. exact I.
  - intros Hpname Hall other Hin Hother. rewrite Hlg3.
    apply elem_of_app. left. exact (Hconflicts Hpname Hall other Hin Hother).
Qed.

End Relations.

Section RelationsRun.

Context `{Runtime}.

Implicit Types (endpoint endpointName jsonContent ep : JSValue).
Implicit Types (areaMap : AreaPartitionMap.t) (maps : list AreaPartitionMap.t).
Implicit Types (st : RelationState.t) (lg : list LogEntry).
Implicit Types (endpoints : list JSValue).

Lemma elem_of_take_list {A : Type} (x : A) n (l : list A) :
  x ∈ take n l -> x ∈ l.
Proof. intros Hin. exact (elem_of_sublist _ _ _ Hin (sublist_take l n)). Qed.

Lemma forEach_returns {A : Type} (body : A -> Run unit) (l : list A) :
  Forall (fun x => exists lg, body x = (lg, Returned tt)) l ->
  exists lg, forEach body l = (lg, Returned tt).
Proof.
  induction 1 as [|x l [lg Hx] _ [lg' IH]]; simpl.
  - eexists; reflexivity.
  - rewrite (bind_returned _ _ lg tt Hx), IH. eexists; reflexivity.
Qed.

Lemma forEach_thrown {A : Type} (body : A -> Run unit) (l : list A) lg e :
  forEach body l = (lg, Thrown e) ->
  exists x lg', x ∈ l /\ body x = (lg', Thrown e).
Proof.
  revert lg. induction l as [|x l IH]; intros lg; cbn [forEach]; [discriminate|].
  destruct (body x) as [lg1 [[]|e1]] eqn:Ex.
  - rewrite (bind_returned _ _ lg1 tt eq_refl).
    destruct (forEach body l) as [lg2 o2] eqn:Erest. cbn [fst snd].
    intros [= _ ->].
    destruct (IH lg2 eq_refl) as (y & lg' & Hin & Hy).
    exists y, lg'. split; [right; exact Hin | exact Hy].
  - rewrite (bind_thrown _ _ lg1 e1 eq_refl). intros [= _ <-].
    exists x, lg1. split; [left | exact Ex].
Qed.

Lemma forEachEntry_returns {A : Type} (body : nat -> A -> Run unit) index (l : list A) :
  Forall (fun x => forall i, exists lg, body i x = (lg, Returned tt)) l ->
  exists lg, forEachEntry body index l = (lg, Returned tt).
Proof.
  intros Hall. revert index.
  induction Hall as [|x l Hx _ IH]; intros index; simpl.
  - eexists; reflexivity.
  - destruct (Hx index) as [lg Hrun]. destruct (IH (S index)) as [lg' Hrest].
    rewrite (bind_returned _ _ lg tt Hrun), Hrest. eexists; reflexivity.
Qed.

Lemma forEachEntry_thrown {A : Type} (body : nat -> A -> Run unit) index (l : list A)
    lg e :
  forEachEntry body index l = (lg, Thrown e) ->
  exists i x lg', x ∈ l /\ body i x = (lg', Thrown e).
Proof.
  revert index lg.
  induction l as [|x l IH]; intros index lg; cbn [forEachEntry]; [discriminate|].
  destruct (body index x) as [lg1 [[]|e1]] eqn:Ex.
  - rewrite (bind_returned _ _ lg1 tt eq_refl).
    destruct (forEachEntry body (S index) l) as [lg2 o2] eqn:Erest. cbn [fst snd].
    intros [= _ ->].
    destruct (IH (S index) lg2 Erest) as (i & y & lg' & Hin & Hy).
    exists i, y, lg'. split; [right; exact Hin | exact Hy].
  - rewrite (bind_thrown _ _ lg1 e1 eq_refl). intros [= _ <-].
    exists index, x, lg1. split; [left | exact Ex].
Qed.

Lemma wellFormed_not_nullish ep : endpointWellFormed ep = true -> nullish ep = false.
Proof. destruct ep; try discriminate; reflexivity. Qed.

(** The lines of the report: each is printed, or throws a TypeError at a
    value that cannot be converted. *)
Lemma reportRelation_cases count key relation :
  (printable (EndpointAreaRelation.endpointName relation) = true
   /\ printable (EndpointAreaRelation.areaName relation) = true
   /\ printable key = true
   /\ forallb printable (EndpointAreaRelation.location relation) = true
   /\ exists lg, reportRelation count (key, relation) = (lg, Returned tt))
  \/ ((printable (EndpointAreaRelation.endpointName relation) = false
       \/ printable (EndpointAreaRelation.areaName relation) = false
       \/ printable key = false
       \/ forallb printable (EndpointAreaRelation.location relation) = false)
      /\ exists lg, reportRelation count (key, relation) = (lg, Thrown TypeError)).
Proof.
  unfold reportRelation, tellWith. cbn [forallb].
  destruct (printable (EndpointAreaRelation.endpointName relation));
    [|right; split; [auto | eexists; reflexivity]].
  destruct (printable (EndpointAreaRelation.areaName relation));
    [|right; split; [auto | eexists; reflexivity]].
  destruct (printable key);
    [|right; split; [auto | eexists; reflexivity]].
  destruct (forallb printable (EndpointAreaRelation.location relation));
    [|right; split; [auto 6 | eexists; reflexivity]].
  left. repeat split. eexists. reflexivity.
Qed.

Lemma debugArea_cases areaMap :
  (areaMapPrintable areaMap = true /\ exists lg, debugArea areaMap = (lg, Returned tt))
  \/ (areaMapPrintable areaMap = false
      /\ debugArea areaMap = ([], Thrown TypeError)).
Proof.
  unfold debugArea, tellWith, areaMapPrintable. cbn [forallb].
  destruct (printable (AreaPartitionMap.areaName areaMap) && _).
  - left. split; [reflexivity | eexists; reflexivity].
  - right. split; reflexivity.
Qed.

(** The last loop, over the first endpoints: it throws nothing but a
    TypeError, and returns at an endpoint that is well formed and can be
    printed. *)
Lemma debugEndpoint_returns ep :
  endpointWellFormed ep = true -> endpointPrintable ep = true ->
  exists lg, debugEndpoint ep = (lg, Returned tt).
Proof.
  intros Hwf Hp. unfold debugEndpoint.
  rewrite (wellFormed_not_nullish ep Hwf).
  unfold endpointWellFormed in Hwf. apply andb_true_iff in Hwf as [_ Hparts].
  unfold endpointPrintable in Hp.
  apply andb_true_iff in Hp. destruct Hp as [Hp Hitems].
  apply andb_true_iff in Hp. destruct Hp as [Hname _].
  destruct (getProp ep "partitions") as [| |b|x|s|r items|r props];
    try discriminate; simpl.
  - eexists; reflexivity.
  - eexists; reflexivity.
  - destruct (Number.gtb _ _); [|eexists; reflexivity].
    unfold tellWith. cbn [forallb]. simpl in Hitems. rewrite Hname, Hitems.
    eexists; reflexivity.
Qed.

Lemma gtZero_thrown v lg e : gtZero v = (lg, Thrown e) -> e = TypeError.
Proof.
  destruct v; simpl; try discriminate.
  - destruct (forallb printable items); [discriminate|]. intros [= _ <-]. reflexivity.
  - destruct (negb _); [discriminate|]. intros [= _ <-]. reflexivity.
Qed.

Lemma debugEndpoint_thrown ep lg e :
  debugEndpoint ep = (lg, Thrown e) ->
  e = TypeError
  /\ (endpointWellFormed ep = false \/ endpointPrintable ep = false).
Proof.
  intros Hrun. split.
  - unfold debugEndpoint in Hrun.
    destruct (nullish ep); [injection Hrun as _ <-; reflexivity|].
    destruct (gtZero _) as [lg1 [positive|e1]] eqn:Egt.
    + rewrite (bind_returned _ _ lg1 positive eq_refl) in Hrun.
      destruct positive; [|discriminate].
      destruct (getProp ep "partitions"); try (injection Hrun as _ <-; reflexivity).
      unfold tellWith in Hrun. destruct (forallb printable _); [discriminate|].
      injection Hrun as _ <-. reflexivity.
    + rewrite (bind_thrown _ _ lg1 e1 eq_refl) in Hrun. injection Hrun as _ <-.
      exact (gtZero_thrown _ _ _ Egt).
  - destruct (endpointWellFormed ep) eqn:Ewf; [|left; reflexivity].
    destruct (endpointPrintable ep) eqn:Ep; [|right; reflexivity].
    destruct (debugEndpoint_returns ep Ewf Ep) as [lg' Hret]. congruence.
Qed.

Lemma debugEndpoint_nullish ep :
  nullish ep = true -> debugEndpoint ep = ([], Thrown TypeError).
Proof. intros Hn. unfold debugEndpoint. rewrite Hn. reflexivity. Qed.

(** What a relation that comes from an endpoint and an area map prints *)
Lemma relationFrom_printable all maps key relation :
  relationFrom all maps (key, relation) ->
  Forall (fun a => areaMapPrintable a = true) maps ->
  Forall (fun ep => endpointPrintable ep = true) all ->
  printable (EndpointAreaRelation.endpointName relation) = true
  /\ printable (EndpointAreaRelation.areaName relation) = true
  /\ printable key = true
  /\ forallb printable (EndpointAreaRelation.location relation) = true.
Proof.
  intros (endpoint & endpointName & areaMap & Hin & Hmap & Hname & _ & Hkey & Hrel
          & _) Hmaps Hall.
  cbn [fst snd] in Hkey, Hrel. subst key relation.
  rewrite Forall_forall in Hmaps. rewrite Forall_forall in Hall.
  specialize (Hmaps areaMap Hmap). specialize (Hall endpoint Hin).
  unfold areaMapPrintable in Hmaps. apply andb_true_iff in Hmaps.
  destruct Hmaps as [Harea Hnames].
  unfold endpointPrintable in Hall.
  apply andb_true_iff in Hall. destruct Hall as [Hall _].
  apply andb_true_iff in Hall. destruct Hall as [Hpname Hpuuid].
  cbn [mkRelation EndpointAreaRelation.endpointName EndpointAreaRelation.areaName
         EndpointAreaRelation.location].
  split; [|split; [exact Harea | split; [exact Hpuuid|]]].
  - unfold endpointDisplayName in Hname.
    destruct (truthy (getProp endpoint "name")).
    + injection Hname as <-. exact Hpname.
    + destruct (getProp endpoint "uuid"); try discriminate.
      injection Hname as <-. reflexivity.
  - rewrite forallb_forall in Hnames |- *. intros name Hn.
    apply Hnames. rewrite in_map_iff in Hn |- *.
    destruct Hn as (p & Hp & Hpin). exists p. split; [exact Hp|].
    unfold sharedPartitions in Hpin. apply filter_In in Hpin.
    destruct Hpin as [Hpin _]. exact Hpin.
Qed.

(** The detailed debug throws nothing but a TypeError: at a relation,
    an area map or an endpoint that cannot be printed, or, when there is
    no relation, at one of the first five endpoints that is not well
    formed. *)
Lemma debugReport_thrown relations maps endpoints lg e :
  debugReport relations maps endpoints = (lg, Thrown e) ->
  e = TypeError
  /\ ((exists key relation,
         (key, relation) ∈ relations
         /\ (printable (EndpointAreaRelation.endpointName relation) = false
             \/ printable (EndpointAreaRelation.areaName relation) = false
             \/ printable key = false
             \/ forallb printable (EndpointAreaRelation.location relation) = false))
      \/ (relations = []
          /\ (WARN, MNoRelations) ∈ lg
          /\ ((exists areaMap, areaMap ∈ maps /\ areaMapPrintable areaMap = false)
              \/ (exists ep,
                    ep ∈ take 5 endpoints
                    /\ (endpointWellFormed ep = false
                        \/ endpointPrintable ep = false))))).
Proof.
  unfold debugReport. destruct relations as [|entry relations'] eqn:Erel.
  - cbn [JSMap.size length Nat.ltb Nat.leb].
    destruct (forEach debugArea maps) as [lg1 [[]|e1]] eqn:Eareas.
    + destruct (forEach debugEndpoint (take 5 endpoints)) as [lg2 [[]|e2]] eqn:Eeps.
      * cbn. discriminate.
      * cbn. intros [= <- <-].
        destruct (forEach_thrown _ _ _ _ Eeps) as (ep & lg' & Hin & Hep).
        destruct (debugEndpoint_thrown ep lg' e2 Hep) as [-> Hbad].
        split; [reflexivity|]. right. split; [reflexivity|].
        split; [left|]. right. exists ep. split; assumption.
    + cbn. intros [= <- <-].
      destruct (forEach_thrown _ _ _ _ Eareas) as (areaMap & lg' & Hin & Harea).
      destruct (debugArea_cases areaMap) as [[_ [lg'' Hret]] | [Hbad Hthrow]];
        [congruence|].
      rewrite Hthrow in Harea. injection Harea as _ <-.
      split; [reflexivity|]. right. split; [reflexivity|].
      split; [left|]. left. exists areaMap. split; assumption.
  - cbn [JSMap.size length Nat.ltb Nat.leb].
    destruct (forEachEntry reportRelation 0 (take 3 (entry :: relations')))
      as [lg1 [[]|e1]] eqn:Ereport.
    + cbn. discriminate.
    + cbn. intros [= _ <-].
      destruct (forEachEntry_thrown _ _ _ _ _ Ereport)
        as (i & [key relation] & lg' & Hin & Hthrow).
      destruct (reportRelation_cases i key relation)
        as [(_ & _ & _ & _ & lg'' & Hret) | [Hbad [lg'' Hrun]]]; [congruence|].
      rewrite Hrun in Hthrow. injection Hthrow as _ <-.
      split; [reflexivity|]. left. exists key, relation.
      split; [|exact Hbad].
      exact (elem_of_take_list _ _ _ Hin).
Qed.

(** It returns when the relations, the area maps and the endpoints can
    be printed and, if there is no relation, the first five endpoints are
    well formed. *)
Lemma debugReport_returns relations maps endpoints :
  Forall (relationFrom endpoints maps) relations ->
  Forall (fun a => areaMapPrintable a = true) maps ->
  Forall (fun ep => endpointPrintable ep = true) endpoints ->
  (relations = [] -> Forall (fun ep => endpointWellFormed ep = true) (take 5 endpoints)) ->
  exists lg, debugReport relations maps endpoints = (lg, Returned tt).
Proof.
  intros Hfrom Hmaps Hall Hwf.
  destruct (debugReport relations maps endpoints) as [lg [[]|e]] eqn:Erun;
    [eexists; reflexivity|].
  exfalso.
  destruct (debugReport_thrown _ _ _ _ _ Erun)
    as (_ & [(key & relation & Hin & Hbad)
            | (Hnil & _ & [(areaMap & Hin & Hbad) | (ep & Hin & Hbad)])]).
  - rewrite Forall_forall in Hfrom.
    destruct (relationFrom_printable endpoints maps key relation (Hfrom _ Hin)
                Hmaps Hall) as (H1 & H2 & H3 & H4).
    destruct Hbad as [Hb|[Hb|[Hb|Hb]]]; congruence.
  - rewrite Forall_forall in Hmaps. rewrite (Hmaps _ Hin) in Hbad. discriminate.
  - specialize (Hwf Hnil). rewrite Forall_forall in Hwf. rewrite Forall_forall in Hall.
    assert (Hin' : ep ∈ endpoints).
    { exact (elem_of_take_list _ _ _ Hin). }
    destruct Hbad as [Hb|Hb]; [rewrite (Hwf _ Hin) in Hb | rewrite (Hall _ Hin') in Hb];
      discriminate.
Qed.

(** The two early exits, and the failure behind them *)
Lemma buildEndpointAreaRelations_no_areas jsonContent maps :
  isArray (getPropOpt jsonContent "areas") = false ->
  buildEndpointAreaRelations jsonContent maps
  = ([(LOG, MBuildingRelations); (WARN, MNoAreasForRelations)],
     Returned JSMap.empty).
Proof.
  intros Harr. unfold buildEndpointAreaRelations. rewrite Harr.
  rewrite orb_true_r. reflexivity.
Qed.

Lemma buildEndpointAreaRelations_no_maps jsonContent :
  isArray (getPropOpt jsonContent "areas") = true ->
  buildEndpointAreaRelations jsonContent []
  = ([(LOG, MBuildingRelations); (WARN, MNoPartitionMaps)],
     Returned JSMap.empty).
Proof.
  intros Harr. unfold buildEndpointAreaRelations.
  destruct (getPropOpt jsonContent "areas"); try discriminate. reflexivity.
Qed.

Lemma buildEndpointAreaRelations_no_endpoints jsonContent maps :
  isArray (getPropOpt jsonContent "areas") = true -> maps <> [] ->
  isArray (getProp jsonContent "endpoints") = false ->
  buildEndpointAreaRelations jsonContent maps
  = ([(LOG, MBuildingRelations);
      (LOG, MAreasToProcess
              (length (arrayItems (getProp jsonContent "areas"))) (length maps));
      (LOG, MProcessedAreas (getProp jsonContent "areas") maps)],
     Thrown TypeError).
Proof.
  intros Harr Hmaps Hend. unfold buildEndpointAreaRelations.
  assert (Hlen : (length maps =? 0) = false).
  { destruct maps; [congruence | reflexivity]. }
  destruct (getPropOpt jsonContent "areas") eqn:Ea; try discriminate.
  cbn [truthy isArray negb orb]. rewrite Hlen.
  destruct (getProp jsonContent "endpoints"); try discriminate; reflexivity.
Qed.

Lemma getPropOpt_array jsonContent k :
  isArray (getPropOpt jsonContent k) = true ->
  getPropOpt jsonContent k = getProp jsonContent k.
Proof.
  unfold getPropOpt. destruct (nullish jsonContent); [discriminate | reflexivity].
Qed.

(** The runs of [buildEndpointAreaRelations] that reach the loop over
    the endpoints: the lines of the loop, the report, and the detailed
    debug, whose exception, if any, is that of the call. *)
Lemma buildEndpointAreaRelations_loop jsonContent maps ref endpoints :
  isArray (getProp jsonContent "areas") = true -> maps <> [] ->
  getProp jsonContent "endpoints" = JArray ref endpoints ->
  exists lg0,
    buildEndpointAreaRelations jsonContent maps
    = (lg0 ++ fst (relateEndpoints maps 0 endpoints noRelations)
         ++ [(LOG, MReport);
             (LOG, MEndpointsProcessed
                     (RelationState.totalEndpointsProcessed
                        (snd (relateEndpoints maps 0 endpoints noRelations))));
             (LOG, MRelationsCreated
                     (RelationState.totalRelationsCreated
                        (snd (relateEndpoints maps 0 endpoints noRelations))));
             (LOG, MUniqueRelations
                     (JSMap.size
                        (RelationState.relations
                           (snd (relateEndpoints maps 0 endpoints noRelations)))))]
         ++ fst (debugReport
                   (RelationState.relations
                      (snd (relateEndpoints maps 0 endpoints noRelations)))
                   maps endpoints),
       match snd (debugReport
                    (RelationState.relations
                       (snd (relateEndpoints maps 0 endpoints noRelations)))
                    maps endpoints) with
       | Returned _ =>
           Returned (RelationState.relations
                       (snd (relateEndpoints maps 0 endpoints noRelations)))
       | Thrown e => Thrown e
       end).
Proof.
  intros Hareas Hmaps Hendpoints.
  assert (Hnn : nullish jsonContent = false).
  { destruct jsonContent; try reflexivity; discriminate. }
  assert (Hlen : (length maps =? 0) = false).
  { destruct maps; [congruence | reflexivity]. }
  unfold buildEndpointAreaRelations, getPropOpt. rewrite Hnn.
  destruct (getProp jsonContent "areas") as [| |b|x|s|r areas|r props] eqn:Ea;
    try discriminate.
  rewrite Hendpoints, Hlen. cbn [truthy isArray negb orb].
  fold noRelations.
  destruct (relateEndpoints maps 0 endpoints noRelations) as [lg st].
  cbn [fst snd].
  destruct (debugReport (RelationState.relations st) maps endpoints)
    as [lg5 [[]|e]].
  - eexists [_; _; _].
    unfold mbind, Run_bind, tell, tellAll, mret, Run_ret. simpl.
    rewrite app_nil_r. reflexivity.
  - eexists [_; _; _].
    unfold mbind, Run_bind, tell, tellAll, mret, Run_ret. simpl.
    reflexivity.
Qed.

(** What a call that returns has done: it has left early with no
    relation, or it has run the loop over the endpoints. *)
Lemma buildEndpointAreaRelations_returned jsonContent maps lg relations :
  buildEndpointAreaRelations jsonContent maps = (lg, Returned relations) ->
  relations = JSMap.empty
  \/ exists ref endpoints,
       isArray (getProp jsonContent "areas") = true /\ maps <> []
       /\ getProp jsonContent "endpoints" = JArray ref endpoints
       /\ relations
          = RelationState.relations
              (snd (relateEndpoints maps 0 endpoints noRelations))
       /\ exists lg0 lg1,
            lg = lg0 ++ fst (relateEndpoints maps 0 endpoints noRelations) ++ lg1.
Proof.
  intros Hrun.
  destruct (isArray (getPropOpt jsonContent "areas")) eqn:Ea.
  2:{ rewrite buildEndpointAreaRelations_no_areas in Hrun by exact Ea.
      injection Hrun as _ <-. left. reflexivity. }
  destruct maps as [|areaMap maps].
  { rewrite buildEndpointAreaRelations_no_maps in Hrun by exact Ea.
    injection Hrun as _ <-. left. reflexivity. }
  destruct (getProp jsonContent "endpoints")
    as [| |b|x|s|ref endpoints|ref props] eqn:Ee;
    try (rewrite buildEndpointAreaRelations_no_endpoints in Hrun
           by (try exact Ea; try discriminate; rewrite Ee; reflexivity);
         discriminate).
  right. exists ref, endpoints.
  rewrite getPropOpt_array in Ea by exact Ea.
  destruct (buildEndpointAreaRelations_loop jsonContent (areaMap :: maps)
              ref endpoints Ea ltac:(discriminate) Ee) as (lg0 & Heq).
  rewrite Heq in Hrun.
  split; [exact Ea|]. split; [discriminate|]. split; [reflexivity|].
  destruct (snd (debugReport _ _ _)); [|discriminate].
  injection Hrun as <- <-. split; [reflexivity|]. eexists _, _. reflexivity.
Qed.

(** What a call that throws has met *)
Lemma buildEndpointAreaRelations_thrown jsonContent maps lg e :
  buildEndpointAreaRelations jsonContent maps = (lg, Thrown e) ->
  e = TypeError
  /\ (isArray (getProp jsonContent "endpoints") = false
      \/ (exists areaMap, areaMap ∈ maps /\ areaMapPrintable areaMap = false)
      \/ (exists ep,
            ep ∈ arrayItems (getProp jsonContent "endpoints")
            /\ endpointPrintable ep = false)
      \/ ((WARN, MNoRelations) ∈ lg
          /\ exists ep,
               ep ∈ take 5 (arrayItems (getProp jsonContent "endpoints"))
               /\ endpointWellFormed ep = false)).
Proof.
  intros Hrun.
  destruct (isArray (getPropOpt jsonContent "areas")) eqn:Ea.
  2:{ rewrite buildEndpointAreaRelations_no_areas in Hrun by exact Ea.
      discriminate. }
  destruct maps as [|areaMap0 maps0].
  { rewrite buildEndpointAreaRelations_no_maps in Hrun by exact Ea.
    discriminate. }
  set (maps := areaMap0 :: maps0) in *.
  destruct (isArray (getProp jsonContent "endpoints")) eqn:Ee.
  2:{ rewrite buildEndpointAreaRelations_no_endpoints in Hrun
        by (try exact Ea; try exact Ee; discriminate).
      injection Hrun as _ <-. split; [reflexivity | left; reflexivity]. }
  destruct (getProp jsonContent "endpoints")
    as [| |b|x|s|ref endpoints|ref props] eqn:Eendpoints; try discriminate.
  rewrite getPropOpt_array in Ea by exact Ea.
  destruct (buildEndpointAreaRelations_loop jsonContent maps
              ref endpoints Ea ltac:(discriminate) Eendpoints)
    as (lg0 & Heq).
  rewrite Heq in Hrun. cbn [arrayItems].
  destruct (debugReport _ maps endpoints) as [lg5 [[]|e5]] eqn:E5;
    cbn [fst snd] in Hrun; [discriminate|].
  injection Hrun as <- <-.
  destruct (debugReport_thrown _ _ _ _ _ E5)
    as (-> & [(key & relation & Hin & Hbad)
             | (Hnil & Hwarn & [(areaMap & Hin & Hbad) | (ep & Hin & Hbad)])]).
  - split; [reflexivity|]. right.
    pose proof (relateEndpoints_provenance maps endpoints) as Hfrom.
    rewrite Forall_forall in Hfrom. specialize (Hfrom _ Hin).
    destruct (forallb areaMapPrintable maps) eqn:Emaps.
    + right. left.
      destruct (forallb endpointPrintable endpoints) eqn:Eeps.
      * exfalso.
        assert (Hm : Forall (fun a => areaMapPrintable a = true) maps).
        { apply Forall_forall. intros a Ha. rewrite forallb_forall in Emaps.
          apply Emaps, list_elem_of_In, Ha. }
        assert (He : Forall (fun ep => endpointPrintable ep = true) endpoints).
        { apply Forall_forall. intros a Ha. rewrite forallb_forall in Eeps.
          apply Eeps, list_elem_of_In, Ha. }
        destruct (relationFrom_printable endpoints maps key relation Hfrom Hm He)
          as (H1 & H2 & H3 & H4).
        destruct Hbad as [Hb|[Hb|[Hb|Hb]]]; congruence.
      * apply not_true_iff_false in Eeps.
        destruct (List.existsb (fun ep => negb (endpointPrintable ep)) endpoints)
          eqn:Eex.
        -- apply existsb_exists in Eex. destruct Eex as (ep & Hep & Hnp).
           exists ep. split; [apply list_elem_of_In, Hep|].
           apply negb_true_iff. exact Hnp.
        -- exfalso. apply Eeps. apply forallb_forall. intros ep Hep.
           destruct (endpointPrintable ep) eqn:Epp; [reflexivity|].
           assert (Hex : existsb (fun ep => negb (endpointPrintable ep)) endpoints
                         = true).
           { apply existsb_exists. exists ep. split; [exact Hep|].
             rewrite Epp. reflexivity. }
           congruence.
    + left.
      destruct (List.existsb (fun a => negb (areaMapPrintable a)) maps) eqn:Eex.
      * apply existsb_exists in Eex. destruct Eex as (a & Ha & Hnp).
        exists a. split; [apply list_elem_of_In, Ha|].
        apply negb_true_iff. exact Hnp.
      * exfalso. apply not_true_iff_false in Emaps. apply Emaps.
        apply forallb_forall. intros a Ha.
        destruct (areaMapPrintable a) eqn:Epp; [reflexivity|].
        assert (Hex : existsb (fun a => negb (areaMapPrintable a)) maps = true).
        { apply existsb_exists. exists a. split; [exact Ha|].
          rewrite Epp. reflexivity. }
        congruence.
  - split; [reflexivity|]. right. left. exists areaMap. split; assumption.
  - split; [reflexivity|]. right. right.
    destruct Hbad as [Hwf|Hp].
    + right. split.
      * apply elem_of_app. right. apply elem_of_app. right.
        do 4 apply list_elem_of_further. exact Hwarn.
      * exists ep. split; assumption.
    + left. exists ep. split; [|exact Hp].
      exact (elem_of_take_list _ _ _ Hin).
Qed.

(** A call throws nothing but a TypeError. *)
Lemma buildEndpointAreaRelations_throws_TypeError jsonContent maps lg e :
  buildEndpointAreaRelations jsonContent maps = (lg, Thrown e) -> e = TypeError.
Proof. intros Hrun. apply (buildEndpointAreaRelations_thrown _ _ _ _ Hrun). Qed.


(** C1, amended.  An endpoint whose [uuid] is a non-empty string that no
    earlier endpoint bears is related to the first area map, in the order
    of the maps, one of whose partitions has an identifier that the
    endpoint lists: whenever [buildEndpointAreaRelations] returns, the
    map it returns holds, under that [uuid], the relation with that area
    map, made of the identifiers and names of the partitions the two
    share, and no [uuid] has two relations.  A later area map that shares
    a partition with the endpoint changes nothing; it is printed as a
    conflict when the names of the endpoint and of the area maps can be
    converted to strings.  The call returns when every name, identifier
    and partition that it prints can be converted to a string. *)
Theorem buildEndpointAreaRelations_first_match_wins
    (jsonContent : JSValue) (areasRef endpointsRef partitionsRef : nat)
    (areas earlier later : list JSValue) (endpoint : JSValue) (uuid : string)
    (partitions : list JSValue)
    (maps_before maps_after : list AreaPartitionMap.t)
    (areaMap : AreaPartitionMap.t) :
  getProp jsonContent "areas" = JArray areasRef areas ->
  getProp jsonContent "endpoints" = JArray endpointsRef (earlier ++ endpoint :: later) ->
  getProp endpoint "uuid" = JString uuid -> uuid <> EmptyString ->
  getProp endpoint "partitions" = JArray partitionsRef partitions ->
  Forall (fun other => sameValueZero (getProp other "uuid") (JString uuid) = false)
    earlier ->
  Forall (fun a =>
            Forall (fun p => Array_includes partitions (Partition.uuid p) = false)
              (AreaPartitionMap.partitions a))
    maps_before ->
  Exists (fun p => Array_includes partitions (Partition.uuid p) = true)
    (AreaPartitionMap.partitions areaMap) ->
  (forall lg relations,
     buildEndpointAreaRelations jsonContent (maps_before ++ areaMap :: maps_after)
     = (lg, Returned relations) ->
     JSMap.get relations (JString uuid)
     = Some (EndpointAreaRelation.mk
               (JString uuid)
               (orElse (getProp endpoint "name")
                  (JString ("Device_" +:+ String.substring 0 8 uuid)))
               (AreaPartitionMap.areaUuid areaMap)
               (AreaPartitionMap.areaName areaMap)
               (Partition.uuid
                  <$> List.filter
                        (fun p => Array_includes partitions (Partition.uuid p))
                        (AreaPartitionMap.partitions areaMap))
               (Partition.name
                  <$> List.filter
                        (fun p => Array_includes partitions (Partition.uuid p))
                        (AreaPartitionMap.partitions areaMap)))
     /\ JSMap.uniqueKeys relations
     /\ (printable (getProp endpoint "name") = true ->
         Forall (fun a => printable (AreaPartitionMap.areaName a) = true)
           (areaMap :: maps_after) ->
         forall other,
           other ∈ maps_after ->
           Exists (fun p => Array_includes partitions (Partition.uuid p) = true)
             (AreaPartitionMap.partitions other) ->
           (LOG, MAlreadyMapped (JString uuid) (AreaPartitionMap.areaName areaMap)
                   (AreaPartitionMap.areaName other)) ∈ lg))
  /\ (Forall (fun a => areaMapPrintable a = true)
        (maps_before ++ areaMap :: maps_after) ->
      Forall (fun ep => endpointPrintable ep = true) (earlier ++ endpoint :: later) ->
      exists lg relations,
        buildEndpointAreaRelations jsonContent (maps_before ++ areaMap :: maps_after)
        = (lg, Returned relations)).
Proof.
  intros Hareas Hendpoints Huuid Hne Hparts Hearlier Hbefore Hshare.
  assert (Hbefore' : Forall (fun a => sharesPartition endpoint a = false) maps_before).
  { eapply Forall_impl; [exact Hbefore|]. intros a Ha.
    apply (sharesPartition_Forall endpoint partitionsRef partitions a Hparts), Ha. }
  assert (Hshare' : sharesPartition endpoint areaMap = true).
  { apply (sharesPartition_Exists endpoint partitionsRef partitions areaMap Hparts),
      Hshare. }
  destruct (relateEndpoints_first_match maps_before areaMap maps_after earlier
              endpoint later uuid partitionsRef partitions Huuid Hne Hparts
              Hearlier Hbefore' Hshare') as (Hget & Huniq & Hconflicts).
  set (maps := maps_before ++ areaMap :: maps_after) in *.
  set (endpoints := earlier ++ endpoint :: later) in *.
  assert (Hmaps : maps <> []) by (unfold maps; destruct maps_before; discriminate).
  assert (Harr : isArray (getProp jsonContent "areas") = true)
    by (rewrite Hareas; reflexivity).
  destruct (buildEndpointAreaRelations_loop jsonContent maps endpointsRef endpoints
              Harr Hmaps Hendpoints) as (lg0 & Hrun).
  split.
  - intros lg relations Hret. rewrite Hrun in Hret.
    destruct (snd (debugReport _ maps endpoints)); [|discriminate].
    injection Hret as <- <-.
    split; [|split; [exact Huniq|]].
    + rewrite Hget. unfold mkRelation, sharedPartitions.
      rewrite Huuid, Hparts. reflexivity.
    + intros Hpname Hall other Hin Hother.
      apply elem_of_app. right. apply elem_of_app. left.
      pose proof (Hconflicts Hpname Hall other Hin) as Hc.
      unfold conflict in Hc. rewrite Huuid in Hc. apply Hc.
      apply (sharesPartition_Exists endpoint partitionsRef partitions other Hparts),
        Hother.
  - intros Hpmaps Hpall.
    pose proof (relateEndpoints_provenance maps endpoints) as Hfrom.
    destruct (debugReport_returns _ maps endpoints Hfrom Hpmaps Hpall) as [lg5 Hret].
    + intros Hnil. rewrite Hnil in Hget. discriminate.
    + rewrite Hrun, Hret. eexists _, _. reflexivity.
Qed.

End RelationsRun.

(** The example of section 8 of the specification: one relation, of [e1]
    with the kitchen, located by the name made for [p1]. *)
Example example_relations :
  outcome (@buildEndpointAreaRelations Sample.runtime Sample.example
             [areaPartitionMapOf
                (JObject 6 [("uuid", JString "a1"); ("name", JString "Kitchen");
                            ("partitions", JArray 7 [JString "p1"])])])
  = Returned
      [(JString "e1",
        EndpointAreaRelation.mk (JString "e1") (JString "Device_e1")
          (JString "a1") (JString "Kitchen")
          [JString "p1"] [JString "Partition_p1"])].
Proof. reflexivity. Qed.

(** An endpoint whose name cannot be converted to a string: its
    relation is stored, the line that reports it throws inside the [try]
    and is caught, and the detailed debug, outside the [try], throws when
    it prints the relation. *)
Example unprintable_name_ends_the_call :
  outcome (@buildEndpointAreaRelations Sample.runtime Cases.unprintableName
             [Sample.kitchenMap])
  = Thrown TypeError
  /\ (ERROR, MEndpointError 0 TypeError)
     ∈ console (@buildEndpointAreaRelations Sample.runtime Cases.unprintableName
                  [Sample.kitchenMap])
  /\ (LOG, MRelationsCreated 1)
     ∈ console (@buildEndpointAreaRelations Sample.runtime Cases.unprintableName
                  [Sample.kitchenMap]).
Proof. split; [reflexivity|]. split; simpl; repeat constructor. Qed.

(** C1 as the specification states it fails, in two ways.  In the first
    installation the second endpoint has a [uuid], the number 7, and one
    partition, [p1], which is the partition of the kitchen; it has no
    name, and the name [Device_...] cannot be made from a number: the
    [catch] of the loop prints the error, the call returns, and the
    endpoint has no relation.  In the second installation the second
    endpoint has the [uuid] of the first and one partition, [p2], which
    only the garden has: the first area that shares a partition with it
    is the garden, but its [uuid] has a relation already, with the
    kitchen: no relation with the garden is stored. *)
Lemma endpoint_sharing_a_partition_is_not_related :
  (getProp Cases.seventh "uuid" = JNumber (Number.of_nat 7)
   /\ truthy (getProp Cases.seventh "uuid") = true
   /\ getProp Cases.seventh "partitions" = JArray 62 [JString "p1"]
   /\ AreaPartitionMap.partitions Sample.kitchenMap
      = [Partition.mk (JString "p1") (JString "Partition_p1")]
   /\ getProp Cases.numbered "endpoints" = JArray 61 [Sample.sensor; Cases.seventh]
   /\ exists lg,
        @buildEndpointAreaRelations Sample.runtime Cases.numbered [Sample.kitchenMap]
        = (lg, Returned
                 [(JString "e1",
                   EndpointAreaRelation.mk (JString "e1") (JString "Device_e1")
                     (JString "a1") (JString "Kitchen")
                     [JString "p1"] [JString "Partition_p1"])])
        /\ (ERROR, MEndpointError 1 TypeError) ∈ lg)
  /\ (getProp Cases.twin "uuid" = JString "e1"
      /\ getProp Cases.twin "partitions" = JArray 71 [JString "p2"]
      /\ AreaPartitionMap.partitions Sample.kitchenMap
         = [Partition.mk (JString "p1") (JString "Partition_p1")]
      /\ AreaPartitionMap.partitions Sample.gardenMap
         = [Partition.mk (JString "p2") (JString "Sprinklers");
            Partition.mk (JString "p1") (JString "Partition_p1")]
      /\ getProp Cases.twins "endpoints" = JArray 73 [Sample.sensor; Cases.twin]
      /\ exists lg,
           @buildEndpointAreaRelations Sample.runtime Cases.twins
             [Sample.kitchenMap; Sample.gardenMap]
           = (lg, Returned
                    [(JString "e1",
                      EndpointAreaRelation.mk (JString "e1") (JString "Device_e1")
                        (JString "a1") (JString "Kitchen")
                        [JString "p1"] [JString "Partition_p1"])])).
Proof.
  split.
  - split; [reflexivity|]. split; [reflexivity|]. split; [reflexivity|].
    split; [reflexivity|]. split; [reflexivity|].
    eexists. split; [reflexivity|]. simpl. repeat constructor.
  - split; [reflexivity|]. split; [reflexivity|]. split; [reflexivity|].
    split; [reflexivity|]. split; [reflexivity|].
    eexists. reflexivity.
Qed.

Lemma buildEndpointAreaRelations_first_match_wins_witness :
  (forall lg relations,
     @buildEndpointAreaRelations Sample.runtime Sample.installation
       [Sample.kitchenMap; Sample.gardenMap] = (lg, Returned relations) ->
     JSMap.get relations (JString "e1")
     = Some (EndpointAreaRelation.mk (JString "e1") (JString "Device_e1")
               (JString "a1") (JString "Kitchen")
               [JString "p1"] [JString "Partition_p1"])
     /\ (LOG, MAlreadyMapped (JString "e1") (JString "Kitchen") (JString "Garden"))
        ∈ lg)
  /\ exists lg relations,
       @buildEndpointAreaRelations Sample.runtime Sample.installation
         [Sample.kitchenMap; Sample.gardenMap] = (lg, Returned relations).
Proof.
  destruct (@buildEndpointAreaRelations_first_match_wins Sample.runtime
              Sample.installation 25 24 22
              [Sample.hallway; Sample.kitchen; Sample.garden] [] [Sample.lamp]
              Sample.sensor "e1" [JString "p1"] [] [Sample.gardenMap]
              Sample.kitchenMap)
    as [Hret Hruns].
  - reflexivity.
  - reflexivity.
  - reflexivity.
  - discriminate.
  - reflexivity.
  - constructor.
  - constructor.
  - left. reflexivity.
  - split.
    + intros lg relations Hrun.
      destruct (Hret lg relations Hrun) as (Hget & _ & Hconflicts).
      split; [exact Hget|].
      apply (Hconflicts eq_refl ltac:(repeat constructor) Sample.gardenMap).
      * left.
      * right. left. reflexivity.
    + apply Hruns; repeat constructor.
Defined.

(** ** The statistics *)

Section StatisticsFacts.

Implicit Types (ep jsonContent : JSValue) (endpoints : list JSValue).

Lemma SFeqb_finite_l x s m e :
  SFeqb (S754_finite s m e) x = true -> x = S754_finite s m e.
Proof.
  unfold SFeqb, SFcompare.
  destruct x as [sx|sx| |sx mx ex]; try (destruct s; discriminate);
    try (destruct sx; discriminate); try discriminate.
  destruct s, sx; try discriminate;
    destruct (e ?= ex)%Z eqn:Ee; try discriminate;
    apply Z.compare_eq in Ee; subst ex;
    destruct (Pos.compare_cont Eq m mx) eqn:Em; try discriminate;
    apply Pos.compare_eq in Em; subst mx; reflexivity.
Qed.

Lemma SFeqb_zero_l x s :
  SFeqb (S754_zero s) x = true -> exists s', x = S754_zero s'.
Proof.
  unfold SFeqb, SFcompare.
  destruct x as [sx|sx| |sx mx ex]; try (destruct sx; discriminate);
    try discriminate.
  eauto.
Qed.

(** The categories that each test accepts *)
Lemma isSensor_category ep :
  isSensor ep = true ->
  getProp ep "category" = JNumber (Number.of_nat 18).
Proof.
  unfold isSensor, strictEqNumber.
  destruct (getProp ep "category") as [| |b|x|s|r items|r props]; try discriminate.
  intros Heq. f_equal. apply NumberFacts.SFeqb_finite. exact Heq.
Qed.

Lemma isActuator_category ep :
  isActuator ep = true ->
  getProp ep "category" = JNumber (Number.of_nat 11)
  \/ getProp ep "category" = JNumber (Number.of_nat 12)
  \/ getProp ep "category" = JNumber (Number.of_nat 15).
Proof.
  unfold isActuator, Array_includes, actuatorCategories.
  destruct (getProp ep "category") as [| |b|x|s|r items|r props]; try discriminate.
  cbn [existsb sameValueZero]. rewrite !orb_true_iff.
  intros [Heq|[Heq|[Heq|Heq]]]; try discriminate;
    apply SFeqb_finite_l in Heq; subst x; auto.
Qed.

Lemma isController_category ep :
  isController ep = true ->
  (exists s, getProp ep "category" = JNumber (S754_zero s))
  \/ getProp ep "category" = JNumber (Number.of_nat 1)
  \/ getProp ep "category" = JNumber (Number.of_nat 2).
Proof.
  unfold isController, Array_includes, controllerCategories.
  destruct (getProp ep "category") as [| |b|x|s|r items|r props]; try discriminate.
  cbn [existsb sameValueZero]. rewrite !orb_true_iff.
  intros [Heq|[Heq|[Heq|Heq]]]; try discriminate.
  - apply SFeqb_zero_l in Heq. destruct Heq as [s' ->]. eauto.
  - apply SFeqb_finite_l in Heq; subst x; auto.
  - apply SFeqb_finite_l in Heq; subst x; auto.
Qed.

Lemma sensor_not_actuator ep : isSensor ep = true -> isActuator ep = false.
Proof.
  intros Hs. apply isSensor_category in Hs.
  unfold isActuator. rewrite Hs. reflexivity.
Qed.

Lemma sensor_not_controller ep : isSensor ep = true -> isController ep = false.
Proof.
  intros Hs. apply isSensor_category in Hs.
  unfold isController. rewrite Hs. reflexivity.
Qed.

Lemma actuator_not_controller ep : isActuator ep = true -> isController ep = false.
Proof.
  intros Ha. unfold isController.
  destruct (isActuator_category ep Ha) as [->|[->| ->]]; reflexivity.
Qed.

(** Three tests of which no two hold together count, in all, the
    entries on which one of them holds. *)
Lemma disjoint_counts {A : Type} (p q r : A -> bool) (l : list A) :
  (forall x, p x = true -> q x = false) ->
  (forall x, p x = true -> r x = false) ->
  (forall x, q x = true -> r x = false) ->
  length (List.filter p l) + length (List.filter q l) + length (List.filter r l)
  = length (List.filter (fun x => p x || q x || r x) l).
Proof.
  intros Hpq Hpr Hqr. induction l as [|x l IH]; [reflexivity|].
  cbn [List.filter].
  destruct (p x) eqn:Ep.
  - rewrite (Hpq x Ep), (Hpr x Ep). simpl. lia.
  - destruct (q x) eqn:Eq.
    + rewrite (Hqr x Eq). simpl. lia.
    + destruct (r x); simpl; lia.
Qed.

Lemma List_filter_length_le {A : Type} (p : A -> bool) (l : list A) :
  length (List.filter p l) <= length l.
Proof. induction l as [|x l IH]; simpl; [lia|]. destruct (p x); simpl; lia. Qed.

Lemma countEndpoints_returns test endpoints :
  Forall (fun ep => nullish ep = false) endpoints ->
  countEndpoints test endpoints
  = ([], Returned (length (List.filter test endpoints))).
Proof.
  intros Hall. unfold countEndpoints.
  replace (existsb nullish endpoints) with false; [reflexivity|].
  symmetry. induction Hall as [|ep endpoints Hep _ IH]; simpl; [reflexivity|].
  rewrite Hep. exact IH.
Qed.

(** [length || 0] of an array that a counter can number *)
Lemma lengthOrZero_array ref (items : list JSValue) :
  (Z.of_nat (length items) < 2 ^ 53)%Z ->
  lengthOrZero (JArray ref items) = JNumber (Number.of_nat (length items)).
Proof.
  intros Hb. unfold lengthOrZero, getPropOpt, orElse. simpl.
  destruct (length items) as [|n] eqn:En; [reflexivity|].
  destruct (NumberFacts.of_nat_canonical (S n) ltac:(lia) Hb)
    as (m & d & -> & _). reflexivity.
Qed.

Lemma lengthOrZero_undefined : lengthOrZero JUndefined = JNumber Number.zero.
Proof. reflexivity. Qed.

(** C9.  For a configuration whose endpoints are an array without null
    entries, no two of the three category tests (sensor: 18; actuator:
    11, 12, 15; controller: 0, 1, 2) hold of the same endpoint; the
    statistics are computed, the three counts add up to the number of
    endpoints that pass one of the tests, which is at most
    [totalEndpoints], and an endpoint that passes none is in none of the
    counts. *)
Theorem category_counts_disjoint_and_bounded jsonContent ref endpoints
    (globalPartitionMap : PartitionMap) :
  getProp jsonContent "endpoints" = JArray ref endpoints ->
  Forall (fun ep => nullish ep = false) endpoints ->
  (Z.of_nat (length endpoints) < 2 ^ 53)%Z ->
  (forall ep, isSensor ep = true -> isActuator ep = false /\ isController ep = false)
  /\ (forall ep, isActuator ep = true -> isController ep = false)
  /\ exists statistics,
      installationStatistics jsonContent globalPartitionMap
      = ([], Returned statistics)
      /\ Statistics.totalEndpoints statistics
         = JNumber (Number.of_nat (length endpoints))
      /\ Statistics.sensorCount statistics = length (List.filter isSensor endpoints)
      /\ Statistics.actuatorCount statistics = length (List.filter isActuator endpoints)
      /\ Statistics.controllerCount statistics
         = length (List.filter isController endpoints)
      /\ Statistics.sensorCount statistics + Statistics.actuatorCount statistics
         + Statistics.controllerCount statistics
         = length (List.filter
                     (fun ep => isSensor ep || isActuator ep || isController ep)
                     endpoints)
      /\ Statistics.sensorCount statistics + Statistics.actuatorCount statistics
         + Statistics.controllerCount statistics <= length endpoints.
Proof.
  intros Hendpoints Hall Hb.
  split; [intros ep Hs; split;
          [apply sensor_not_actuator | apply sensor_not_controller]; exact Hs|].
  split; [exact actuator_not_controller|].
  unfold installationStatistics. rewrite Hendpoints. cbn [arrayItems].
  rewrite !countEndpoints_returns by exact Hall.
  eexists. split; [reflexivity|]. cbn.
  split; [apply lengthOrZero_array; exact Hb|].
  split; [reflexivity|]. split; [reflexivity|]. split; [reflexivity|].
  assert (Hsum := disjoint_counts isSensor isActuator isController endpoints
                    sensor_not_actuator sensor_not_controller
                    actuator_not_controller).
  split; [exact Hsum|]. rewrite Hsum. apply List_filter_length_le.
Qed.

End StatisticsFacts.

(** A [null] among the endpoints: reading its [category] throws. *)
Example null_endpoint_throws :
  installationStatistics
    (JObject 1 [("endpoints", JArray 2 [JNull; Sample.sensor])]) JSMap.empty
  = ([], Thrown TypeError).
Proof. reflexivity. Qed.

Lemma category_counts_disjoint_and_bounded_witness :
  Forall (fun ep => nullish ep = false) [Sample.sensor; Sample.lamp]
  /\ exists statistics,
      installationStatistics Sample.installation JSMap.empty
      = ([], Returned statistics)
      /\ Statistics.sensorCount statistics + Statistics.actuatorCount statistics
         + Statistics.controllerCount statistics <= 2.
Proof.
  assert (Hall : Forall (fun ep => nullish ep = false) [Sample.sensor; Sample.lamp])
    by (repeat constructor).
  split; [exact Hall|].
  destruct (category_counts_disjoint_and_bounded Sample.installation 24
              [Sample.sensor; Sample.lamp] JSMap.empty eq_refl Hall)
    as (_ & _ & statistics & Hrun & _ & _ & _ & _ & _ & Hle).
  - vm_compute. reflexivity.
  - exists statistics. split; [exact Hrun | exact Hle].
Defined.

(** ** The loader *)

Section LoaderFacts.

Context `{Runtime}.
Variable buildGlobalPartitionMap : JSValue -> PartitionMap.

Implicit Types (env : Env.t) (jsonContent ep : JSValue).
Implicit Types (endpoints : list JSValue) (lg : list LogEntry).

Lemma existsb_nullish endpoints :
  existsb nullish endpoints = false <->
  Forall (fun ep => nullish ep = false) endpoints.
Proof.
  induction endpoints as [|ep endpoints IH]; simpl.
  - split; [constructor | reflexivity].
  - rewrite orb_false_iff, IH. split.
    + intros [Hep Hrest]. constructor; assumption.
    + intros Hall. apply Forall_cons in Hall. exact Hall.
Qed.

Lemma hasValidEndpoints_object jsonContent :
  hasValidEndpoints jsonContent = true ->
  nullish jsonContent = false /\ truthy jsonContent = true
  /\ isTObject (typeof jsonContent) = true.
Proof.
  unfold hasValidEndpoints. intros [Harr _]%andb_true_iff.
  destruct jsonContent as [| |b|x|s|r items|r props];
    try discriminate; repeat split; reflexivity.
Qed.

(** The statistics fail exactly on a [null] or [undefined] endpoint. *)
Lemma installationStatistics_cases jsonContent (globalPartitionMap : PartitionMap) :
  let endpoints := arrayItems (getProp jsonContent "endpoints") in
  if existsb nullish endpoints
  then installationStatistics jsonContent globalPartitionMap = ([], Thrown TypeError)
  else installationStatistics jsonContent globalPartitionMap
       = ([], Returned
                (Statistics.mk
                   (lengthOrZero (getProp jsonContent "endpoints"))
                   (lengthOrZero (getProp jsonContent "areas"))
                   (JSMap.size globalPartitionMap)
                   (length (List.filter isSensor endpoints))
                   (length (List.filter isActuator endpoints))
                   (length (List.filter isController endpoints)))).
Proof.
  cbn zeta. unfold installationStatistics, countEndpoints.
  destruct (existsb nullish (arrayItems (getProp jsonContent "endpoints")));
    reflexivity.
Qed.

Lemma areaMaps_return jsonContent :
  nullish jsonContent = false ->
  exists lg,
    (if hasValidAreas jsonContent then buildAreaPartitionMaps jsonContent
     else mret [])
    = (lg, Returned
             (if hasValidAreas jsonContent
              then areaPartitionMapOf
                     <$> List.filter areaMapped
                           (arrayItems (getProp jsonContent "areas"))
              else [])).
Proof.
  intros Hnn. destruct (hasValidAreas jsonContent);
    [apply buildAreaPartitionMaps_maps; exact Hnn | eexists; reflexivity].
Qed.

(** The second part of the loader, step by step: the line that prints
    the two lengths, the two mappers when there are areas, the
    statistics, the keys of the global partition map, and the summary
    document. *)
Lemma loadInstallation_steps env jsonContent :
  hasValidEndpoints jsonContent = true ->
  exists lg1 maps,
    (if hasValidAreas jsonContent then buildAreaPartitionMaps jsonContent
     else mret []) = (lg1, Returned maps)
    /\ maps = (if hasValidAreas jsonContent
               then areaPartitionMapOf
                      <$> List.filter areaMapped
                            (arrayItems (getProp jsonContent "areas"))
               else [])
    /\ loadInstallation buildGlobalPartitionMap env jsonContent
       = if printable (lengthOrZero (getProp jsonContent "areas"))
         then
           match (if hasValidAreas jsonContent
                  then buildEndpointAreaRelations jsonContent maps
                  else mret JSMap.empty) with
           | (lg2, Thrown e) =>
               ((LOG, MDataStructure
                        (getProp (getProp jsonContent "endpoints") "length")
                        (lengthOrZero (getProp jsonContent "areas")))
                :: lg1 ++ lg2, Thrown e)
           | (lg2, Returned _) =>
               if existsb nullish (arrayItems (getProp jsonContent "endpoints"))
                  || negb (forallb printable
                             (JSMap.keys (buildGlobalPartitionMap jsonContent)))
               then ((LOG, MDataStructure
                             (getProp (getProp jsonContent "endpoints") "length")
                             (lengthOrZero (getProp jsonContent "areas")))
                     :: lg1 ++ lg2, Thrown TypeError)
               else ((LOG, MDataStructure
                             (getProp (getProp jsonContent "endpoints") "length")
                             (lengthOrZero (getProp jsonContent "areas")))
                     :: lg1 ++ lg2 ++ [(LOG, MSingleDocumentCreated)],
                     Returned (summaryOf buildGlobalPartitionMap env jsonContent
                                 (statisticsOf buildGlobalPartitionMap jsonContent)))
           end
         else ([], Thrown TypeError).
Proof.
  intros Hvalid.
  destruct (hasValidEndpoints_object jsonContent Hvalid) as (Hnn & _).
  destruct (areaMaps_return jsonContent Hnn) as (lg1 & Hmaps).
  eexists lg1, _. split; [exact Hmaps|]. split; [reflexivity|].
  set (maps := if hasValidAreas jsonContent then _ <$> _ else []) in *.
  assert (Hlen : printable (getProp (getProp jsonContent "endpoints") "length") = true).
  { unfold hasValidEndpoints in Hvalid. apply andb_true_iff in Hvalid.
    destruct Hvalid as [Harr _].
    destruct (getProp jsonContent "endpoints"); try discriminate. reflexivity. }
  unfold loadInstallation, tellWith. cbn [forallb]. rewrite Hlen.
  cbn [andb]. rewrite andb_true_r.
  destruct (printable (lengthOrZero (getProp jsonContent "areas"))); [|reflexivity].
  unfold tell. rewrite (bind_returned _ _ _ tt eq_refl).
  rewrite (bind_returned _ _ lg1 maps Hmaps).
  destruct (if hasValidAreas jsonContent
            then buildEndpointAreaRelations jsonContent maps
            else mret JSMap.empty) as [lg2 [relations|e2]].
  2:{ rewrite (bind_thrown _ _ lg2 e2 eq_refl). reflexivity. }
  rewrite (bind_returned _ _ lg2 relations eq_refl).
  pose proof (installationStatistics_cases jsonContent
                (buildGlobalPartitionMap jsonContent)) as Hstats.
  cbn zeta in Hstats.
  destruct (existsb nullish (arrayItems (getProp jsonContent "endpoints"))).
  { rewrite (bind_thrown _ _ [] TypeError Hstats). cbn. rewrite app_nil_r.
    reflexivity. }
  rewrite (bind_returned _ _ [] _ Hstats).
  unfold Object_fromEntries.
  destruct (forallb printable (JSMap.keys (buildGlobalPartitionMap jsonContent))).
  - cbn. reflexivity.
  - cbn. rewrite !app_nil_r. reflexivity.
Qed.

(** Whenever the second part of the loader returns, it returns the
    summary document. *)
Lemma loadInstallation_inv env jsonContent lg result :
  hasValidEndpoints jsonContent = true ->
  loadInstallation buildGlobalPartitionMap env jsonContent = (lg, Returned result) ->
  result = summaryOf buildGlobalPartitionMap env jsonContent (statisticsOf buildGlobalPartitionMap jsonContent).
Proof.
  intros Hvalid.
  destruct (loadInstallation_steps env jsonContent Hvalid)
    as (lg1 & maps & _ & _ & ->).
  destruct (printable _); [|discriminate].
  destruct (if hasValidAreas jsonContent then _ else _) as [lg2 [relations|e2]];
    [|discriminate].
  destruct (existsb nullish _ || _); [discriminate|].
  intros [= _ <-]. reflexivity.
Qed.

(** It throws nothing but a TypeError. *)
Lemma loadInstallation_thrown env jsonContent lg e :
  hasValidEndpoints jsonContent = true ->
  loadInstallation buildGlobalPartitionMap env jsonContent = (lg, Thrown e) ->
  e = TypeError.
Proof.
  intros Hvalid.
  destruct (loadInstallation_steps env jsonContent Hvalid)
    as (lg1 & maps & _ & _ & ->).
  destruct (printable _); [|intros [= _ <-]; reflexivity].
  destruct (if hasValidAreas jsonContent then _ else _)
    as [lg2 [relations|e2]] eqn:Erels.
  - destruct (existsb nullish _ || _); [|discriminate].
    intros [= _ <-]. reflexivity.
  - intros [= _ <-].
    destruct (hasValidAreas jsonContent); [|discriminate].
    exact (buildEndpointAreaRelations_throws_TypeError _ _ _ _ Erels).
Qed.

(** With a [null] or [undefined] endpoint it does throw. *)
Lemma loadInstallation_nullish_endpoint env jsonContent :
  hasValidEndpoints jsonContent = true ->
  existsb nullish (arrayItems (getProp jsonContent "endpoints")) = true ->
  exists lg,
    loadInstallation buildGlobalPartitionMap env jsonContent
    = (lg, Thrown TypeError).
Proof.
  intros Hvalid Hnull.
  destruct (loadInstallation buildGlobalPartitionMap env jsonContent)
    as [lg [result|e]] eqn:Erun.
  - exfalso. revert Erun.
    destruct (loadInstallation_steps env jsonContent Hvalid)
      as (lg1 & maps & _ & _ & ->).
    destruct (printable _); [|discriminate].
    destruct (if hasValidAreas jsonContent then _ else _) as [lg2 [relations|e2]];
      [|discriminate].
    rewrite Hnull. discriminate.
  - exists lg. rewrite (loadInstallation_thrown env jsonContent lg e Hvalid Erun).
    reflexivity.
Qed.


End LoaderFacts.

Section LoaderTheorems.

Context `{Runtime}.
Variable buildGlobalPartitionMap : JSValue -> PartitionMap.

Implicit Types (env : Env.t) (jsonContent : JSValue) (rawContent : string).

Lemma trim_empty : JSString.trim EmptyString = EmptyString.
Proof. reflexivity. Qed.

(** The loader up to the test of the root *)
Lemma loadDocumentsJSON_parsed env rawContent jsonContent :
  Env.fileContent env = Some rawContent ->
  String.length (JSString.trim rawContent) <> 0 ->
  JSON_parse rawContent = Some jsonContent ->
  loadDocumentsJSON buildGlobalPartitionMap env
  = if negb (truthy jsonContent) || negb (isTObject (typeof jsonContent))
    then throw (Error "Invalid JSON structure: root must be an object")
    else if negb (hasValidEndpoints jsonContent)
    then ([(WARN, MNoValidEndpoint)],
          Returned (getFallbackDocument env "No valid endpoints in configuration"))
    else loadInstallation buildGlobalPartitionMap env jsonContent.
Proof.
  intros Hfile Htrim Hparse. unfold loadDocumentsJSON. rewrite Hfile.
  assert (Hne : String.eqb rawContent EmptyString = false).
  { destruct (String.eqb_spec rawContent EmptyString) as [->|]; [|reflexivity].
    exfalso. apply Htrim. reflexivity. }
  rewrite Hne. apply Nat.eqb_neq in Htrim. rewrite Htrim. cbn [orb].
  rewrite Hparse. reflexivity.
Qed.

(** C2.  For every file that parses to a keyed record whose [endpoints]
    are missing, not a sequence, or empty, [loadDocumentsJSON] returns
    exactly one record, the fallback, whose metadata has [isValid] false
    and [chunkType] ["fallback"], together with an empty partition
    map. *)
Theorem loadDocumentsJSON_fallback env rawContent ref props :
  Env.fileContent env = Some rawContent ->
  String.length (JSString.trim rawContent) <> 0 ->
  JSON_parse rawContent = Some (JObject ref props) ->
  (forall r items, getProp (JObject ref props) "endpoints" = JArray r items ->
                   items = []) ->
  exists lg document,
    loadDocumentsJSON buildGlobalPartitionMap env
    = (lg, Returned (LoadDocumentResult.mk [document] JSMap.empty))
    /\ EndpointMetadata.isValid (ExtendDocument.metadata document) = false
    /\ EndpointMetadata.chunkType (ExtendDocument.metadata document) = fallback.
Proof.
  intros Hfile Htrim Hparse Hno.
  rewrite (loadDocumentsJSON_parsed env rawContent _ Hfile Htrim Hparse).
  cbn [truthy typeof isTObject negb orb].
  assert (Hvalid : hasValidEndpoints (JObject ref props) = false).
  { unfold hasValidEndpoints.
    destruct (getProp (JObject ref props) "endpoints")
      as [| |b|x|s|r items|r ps] eqn:E; try reflexivity.
    rewrite (Hno r items eq_refl). reflexivity. }
  rewrite Hvalid. cbn [negb]. eexists _, _. split; [reflexivity|].
  split; reflexivity.
Qed.

(** C3, amended.  When the file cannot be read, when its content is
    empty after trimming, when it does not parse, or when it parses to
    [null] or to a value that is not of type object, the load throws an
    error that tells which, and no document is produced.  When it parses
    to a keyed record without usable endpoints the load returns the
    fallback document, and a fallback document is only ever returned for
    a file that was read and parsed to a value of type object without
    usable endpoints. *)
Theorem loadDocumentsJSON_failures env :
  (Env.fileContent env = None ->
   outcome (loadDocumentsJSON buildGlobalPartitionMap env)
   = Thrown (Error "Execution blocked: file doesn't exist"))
  /\ (forall rawContent,
       Env.fileContent env = Some rawContent ->
       String.length (JSString.trim rawContent) = 0 ->
       outcome (loadDocumentsJSON buildGlobalPartitionMap env)
       = Thrown (Error "Execution blocked: file contents empty."))
  /\ (forall rawContent,
       Env.fileContent env = Some rawContent ->
       String.length (JSString.trim rawContent) <> 0 ->
       JSON_parse rawContent = None ->
       outcome (loadDocumentsJSON buildGlobalPartitionMap env)
       = Thrown (Error "Invalid JSON format in configuration"))
  /\ (forall rawContent jsonContent,
       Env.fileContent env = Some rawContent ->
       String.length (JSString.trim rawContent) <> 0 ->
       JSON_parse rawContent = Some jsonContent ->
       isKeyedRecord jsonContent = false -> isArray jsonContent = false ->
       outcome (loadDocumentsJSON buildGlobalPartitionMap env)
       = Thrown (Error "Invalid JSON structure: root must be an object"))
  /\ (forall rawContent jsonContent,
       Env.fileContent env = Some rawContent ->
       String.length (JSString.trim rawContent) <> 0 ->
       JSON_parse rawContent = Some jsonContent ->
       isKeyedRecord jsonContent = true ->
       hasValidEndpoints jsonContent = false ->
       outcome (loadDocumentsJSON buildGlobalPartitionMap env)
       = Returned (getFallbackDocument env "No valid endpoints in configuration"))
  /\ (forall result document,
       outcome (loadDocumentsJSON buildGlobalPartitionMap env) = Returned result ->
       document ∈ LoadDocumentResult.documents result ->
       EndpointMetadata.chunkType (ExtendDocument.metadata document) = fallback ->
       exists rawContent jsonContent,
         Env.fileContent env = Some rawContent
         /\ String.length (JSString.trim rawContent) <> 0
         /\ JSON_parse rawContent = Some jsonContent
         /\ isTObject (typeof jsonContent) = true
         /\ jsonContent <> JNull
         /\ hasValidEndpoints jsonContent = false).
Proof.
  split; [|split; [|split; [|split; [|split]]]].
  - intros Hfile. unfold loadDocumentsJSON. rewrite Hfile. reflexivity.
  - intros rawContent Hfile Htrim. unfold loadDocumentsJSON. rewrite Hfile, Htrim.
    rewrite orb_true_r. reflexivity.
  - intros rawContent Hfile Htrim Hparse. unfold loadDocumentsJSON. rewrite Hfile.
    destruct (String.eqb_spec rawContent EmptyString) as [->|];
      [exfalso; apply Htrim; reflexivity|].
    apply Nat.eqb_neq in Htrim. rewrite Htrim, Hparse. reflexivity.
  - intros rawContent jsonContent Hfile Htrim Hparse Hrec Harr.
    rewrite (loadDocumentsJSON_parsed env rawContent _ Hfile Htrim Hparse).
    destruct jsonContent as [| |b|x|s|r items|r props]; try discriminate;
      try reflexivity.
    + destruct b; reflexivity.
    + unfold truthy. destruct x; reflexivity.
    + unfold truthy. destruct (String.eqb s EmptyString); reflexivity.
  - intros rawContent jsonContent Hfile Htrim Hparse Hrec Hvalid.
    rewrite (loadDocumentsJSON_parsed env rawContent _ Hfile Htrim Hparse).
    destruct jsonContent as [| |b|x|s|r items|r props]; try discriminate.
    cbn [truthy typeof isTObject negb orb]. rewrite Hvalid. reflexivity.
  - intros result document Hout Hin Hchunk.
    unfold loadDocumentsJSON in Hout.
    destruct (Env.fileContent env) as [rawContent|] eqn:Hfile; [|discriminate].
    destruct (String.eqb rawContent EmptyString
              || (String.length (JSString.trim rawContent) =? 0)) eqn:Hblank;
      [discriminate|].
    apply orb_false_iff in Hblank as [_ Htrim]. apply Nat.eqb_neq in Htrim.
    destruct (JSON_parse rawContent) as [jsonContent|] eqn:Hparse; [|discriminate].
    destruct (negb (truthy jsonContent) || negb (isTObject (typeof jsonContent)))
      eqn:Hroot; [discriminate|].
    apply orb_false_iff in Hroot as [Htruthy Htype].
    apply negb_false_iff in Htruthy, Htype.
    exists rawContent, jsonContent.
    split; [reflexivity|]. split; [exact Htrim|]. split; [exact Hparse|].
    split; [exact Htype|]. split; [intros ->; discriminate|].
    destruct (hasValidEndpoints jsonContent) eqn:Hvalid; [|reflexivity].
    cbn [negb] in Hout. unfold outcome in Hout.
    destruct (loadInstallation buildGlobalPartitionMap env jsonContent)
      as [lg o] eqn:Hload.
    simpl in Hout. subst o.
    rewrite (loadInstallation_inv _ _ _ _ _ Hvalid Hload) in Hin.
    simpl in Hin. apply list_elem_of_singleton in Hin. subst document.
    discriminate.
Qed.


(** C8.  For every load that succeeds, the [hasPartitions] of the
    summary record is true if and only if the global partition map built
    from the configuration, which is the map the load returns, is not
    empty. *)
Theorem hasPartitions_iff_partition_map_nonempty env rawContent jsonContent
    lg result document :
  Env.fileContent env = Some rawContent ->
  JSON_parse rawContent = Some jsonContent ->
  loadDocumentsJSON buildGlobalPartitionMap env = (lg, Returned result) ->
  document ∈ LoadDocumentResult.documents result ->
  EndpointMetadata.chunkType (ExtendDocument.metadata document) = summary ->
  LoadDocumentResult.partitionMap result = buildGlobalPartitionMap jsonContent
  /\ (EndpointMetadata.hasPartitions (ExtendDocument.metadata document) = Some true
      <-> buildGlobalPartitionMap jsonContent <> JSMap.empty)
  /\ (EndpointMetadata.hasPartitions (ExtendDocument.metadata document) = Some false
      <-> buildGlobalPartitionMap jsonContent = JSMap.empty).
Proof.
  intros Hfile Hparse Hload Hin Hchunk.
  unfold loadDocumentsJSON in Hload. rewrite Hfile in Hload.
  destruct (String.eqb rawContent EmptyString
            || (String.length (JSString.trim rawContent) =? 0)); [discriminate|].
  rewrite Hparse in Hload.
  destruct (negb (truthy jsonContent) || negb (isTObject (typeof jsonContent)));
    [discriminate|].
  destruct (hasValidEndpoints jsonContent) eqn:Hvalid; cbn [negb] in Hload.
  2:{ injection Hload as _ <-. simpl in Hin.
      apply list_elem_of_singleton in Hin. subst document. discriminate. }
  - rewrite (loadInstallation_inv _ _ _ _ _ Hvalid Hload) in *.
    simpl in Hin. apply list_elem_of_singleton in Hin. subst document.
    split; [reflexivity|]. simpl.
    unfold JSMap.empty.
    destruct (buildGlobalPartitionMap jsonContent) as [|entry entries]; simpl.
    + split; split; [discriminate | congruence | reflexivity | reflexivity].
    + split; split; [discriminate | reflexivity | discriminate | discriminate].
Qed.

End LoaderTheorems.

Lemma loadDocumentsJSON_fallback_witness :
  Env.fileContent (Sample.env (Some Sample.noEndpointsText))
  = Some Sample.noEndpointsText
  /\ String.length (JSString.trim Sample.noEndpointsText) <> 0
  /\ @JSON_parse Sample.runtime Sample.noEndpointsText
     = Some (JObject 1 [("endpoints", JArray 2 [])])
  /\ exists lg document,
      @loadDocumentsJSON Sample.runtime buildGlobalPartitionMap_spec
        (Sample.env (Some Sample.noEndpointsText))
      = (lg, Returned (LoadDocumentResult.mk [document] JSMap.empty))
      /\ EndpointMetadata.isValid (ExtendDocument.metadata document) = false
      /\ EndpointMetadata.chunkType (ExtendDocument.metadata document) = fallback.
Proof.
  split; [reflexivity|]. split; [vm_compute; discriminate|]. split; [reflexivity|].
  apply (@loadDocumentsJSON_fallback Sample.runtime buildGlobalPartitionMap_spec
           (Sample.env (Some Sample.noEndpointsText)) Sample.noEndpointsText
           1 [("endpoints", JArray 2 [])]).
  - reflexivity.
  - vm_compute. discriminate.
  - reflexivity.
  - intros r items Heq. injection Heq as _ <-. reflexivity.
Defined.

(** C3 as the specification states it fails: the file ["[]"] parses to an
    array, which is not a keyed record, and the load returns the fallback
    document instead of throwing. *)
Lemma array_root_is_not_fatal :
  @JSON_parse Sample.runtime Sample.arrayText = Some (JArray 1 [])
  /\ isKeyedRecord (JArray 1 []) = false
  /\ outcome (@loadDocumentsJSON Sample.runtime buildGlobalPartitionMap_spec
                (Sample.env (Some Sample.arrayText)))
     = Returned (@getFallbackDocument Sample.runtime
                   (Sample.env (Some Sample.arrayText))
                   "No valid endpoints in configuration").
Proof. split; [|split]; reflexivity. Qed.

Lemma loadDocumentsJSON_failures_witness :
  outcome (@loadDocumentsJSON Sample.runtime buildGlobalPartitionMap_spec
             (Sample.env None))
  = Thrown (Error "Execution blocked: file doesn't exist")
  /\ outcome (@loadDocumentsJSON Sample.runtime buildGlobalPartitionMap_spec
                (Sample.env (Some Sample.blankText)))
     = Thrown (Error "Execution blocked: file contents empty.")
  /\ outcome (@loadDocumentsJSON Sample.runtime buildGlobalPartitionMap_spec
                (Sample.env (Some Sample.malformedText)))
     = Thrown (Error "Invalid JSON format in configuration")
  /\ outcome (@loadDocumentsJSON Sample.runtime buildGlobalPartitionMap_spec
                (Sample.env (Some Sample.numberText)))
     = Thrown (Error "Invalid JSON structure: root must be an object")
  /\ outcome (@loadDocumentsJSON Sample.runtime buildGlobalPartitionMap_spec
                (Sample.env (Some Sample.noEndpointsText)))
     = Returned (@getFallbackDocument Sample.runtime
                   (Sample.env (Some Sample.noEndpointsText))
                   "No valid endpoints in configuration").
Proof.
  split; [|split; [|split; [|split]]].
  - apply (@loadDocumentsJSON_failures Sample.runtime buildGlobalPartitionMap_spec
             (Sample.env None)).
    reflexivity.
  - apply (proj1 (proj2 (@loadDocumentsJSON_failures Sample.runtime
                           buildGlobalPartitionMap_spec
                           (Sample.env (Some Sample.blankText))))
             Sample.blankText); reflexivity.
  - apply (proj1 (proj2 (proj2 (@loadDocumentsJSON_failures Sample.runtime
                                  buildGlobalPartitionMap_spec
                                  (Sample.env (Some Sample.malformedText)))))
             Sample.malformedText);
      [reflexivity | vm_compute; discriminate | reflexivity].
  - apply (proj1 (proj2 (proj2 (proj2 (@loadDocumentsJSON_failures Sample.runtime
                                         buildGlobalPartitionMap_spec
                                         (Sample.env (Some Sample.numberText))))))
             Sample.numberText (JNumber (Number.of_nat 42)));
      [reflexivity | vm_compute; discriminate | reflexivity | reflexivity | reflexivity].
  - apply (proj1 (proj2 (proj2 (proj2 (proj2
             (@loadDocumentsJSON_failures Sample.runtime
                buildGlobalPartitionMap_spec
                (Sample.env (Some Sample.noEndpointsText)))))))
             Sample.noEndpointsText Sample.noEndpoints);
      [reflexivity | vm_compute; discriminate | reflexivity | reflexivity | reflexivity].
Defined.


Lemma hasPartitions_iff_partition_map_nonempty_witness :
  exists lg result document,
    @loadDocumentsJSON Sample.runtime buildGlobalPartitionMap_spec
      (Sample.env (Some Sample.exampleText)) = (lg, Returned result)
    /\ document ∈ LoadDocumentResult.documents result
    /\ EndpointMetadata.chunkType (ExtendDocument.metadata document) = summary
    /\ LoadDocumentResult.partitionMap result
       = [(JString "p1", JString "Partition_p1")]
    /\ (EndpointMetadata.hasPartitions (ExtendDocument.metadata document) = Some true
        <-> buildGlobalPartitionMap_spec Sample.example <> JSMap.empty).
Proof.
  destruct (@loadDocumentsJSON Sample.runtime buildGlobalPartitionMap_spec
              (Sample.env (Some Sample.exampleText))) as [lg o] eqn:Hload.
  vm_compute in Hload. injection Hload as <- <-.
  eexists _, _, _.
  split; [reflexivity|]. split; [apply list_elem_of_here|]. split; [reflexivity|].
  split; [reflexivity|].
  refine (proj1 (proj2 (@hasPartitions_iff_partition_map_nonempty Sample.runtime
                          buildGlobalPartitionMap_spec
                          (Sample.env (Some Sample.exampleText)) Sample.exampleText
                          Sample.example _ _ _ eq_refl eq_refl _ _ _)));
    [vm_compute; reflexivity | apply list_elem_of_here | reflexivity].
Defined.

(** ** The relevance filter: thresholds, case and white space *)

Section SpecFloatOrder.

(** [<=] on Numbers is transitive (it fails as soon as a NaN is
    involved). *)
Lemma SFleb_trans x y z :
  SFleb x y = true -> SFleb y z = true -> SFleb x z = true.
Proof.
  unfold SFleb, SFcompare.
  destruct x as [sx|sx| |sx mx ex], y as [sy|sy| |sy my ey],
    z as [sz|sz| |sz mz ez];
    try discriminate; try reflexivity;
    try (destruct sx, sy, sz; simpl; congruence).
  change (PosDef.Pos.compare_cont Eq) with Pos.compare.
  destruct sx, sy, sz; try discriminate; try reflexivity;
    destruct (Z.compare_spec ex ey), (Z.compare_spec ey ez),
      (Z.compare_spec ex ez);
    try discriminate; try reflexivity; try lia;
    destruct (Pos.compare_spec mx my), (Pos.compare_spec my mz),
      (Pos.compare_spec mx mz);
    simpl; try discriminate; try reflexivity; try lia.
Qed.

End SpecFloatOrder.

Section RelevanceFilterMore.

Implicit Types (docs : list ExtendDocument.t) (doc : ExtendDocument.t).
Implicit Types (query content word : string) (terms : list string).

Lemma List_filter_weaker {A : Type} (f g : A -> bool) (l : list A) :
  (forall x, f x = true -> g x = true) ->
  List.filter f l `sublist_of` List.filter g l.
Proof.
  intros Hfg. induction l as [|x l IH]; simpl; [constructor|].
  destruct (f x) eqn:Ef.
  - rewrite (Hfg x Ef). apply sublist_skip, IH.
  - destruct (g x); [apply sublist_cons|]; exact IH.
Qed.

Lemma List_filter_idempotent {A : Type} (f : A -> bool) (l : list A) :
  List.filter f (List.filter f l) = List.filter f l.
Proof.
  induction l as [|x l IH]; simpl; [reflexivity|].
  destruct (f x) eqn:Ef; simpl; [rewrite Ef, IH|]; auto.
Qed.

Lemma lowerChar_idempotent c :
  JSString.lowerChar (JSString.lowerChar c) = JSString.lowerChar c.
Proof. destruct c as [[] [] [] [] [] [] [] []]; reflexivity. Qed.

Lemma toLowerCase_idempotent s :
  JSString.toLowerCase (JSString.toLowerCase s) = JSString.toLowerCase s.
Proof.
  induction s as [|c s IH]; simpl; [reflexivity|].
  rewrite lowerChar_idempotent, IH. reflexivity.
Qed.

(** After white space, whether a gap is open changes the pieces by an
    empty one at most. *)
Lemma splitLoop_gap s :
  List.filter (fun term => 2 <? String.length term)
    (JSString.splitLoop s EmptyString true)
  = List.filter (fun term => 2 <? String.length term)
      (JSString.splitLoop s EmptyString false).
Proof.
  destruct s as [|c s]; simpl; [reflexivity|].
  destruct (JSString.isWhiteSpace c); reflexivity.
Qed.

Lemma splitLoop_app s1 c s2 cur gap :
  JSString.isWhiteSpace c = true -> (gap = true -> cur = EmptyString) ->
  List.filter (fun term => 2 <? String.length term)
    (JSString.splitLoop (s1 +:+ String c s2) cur gap)
  = List.filter (fun term => 2 <? String.length term)
      (JSString.splitLoop s1 cur gap)
    ++ List.filter (fun term => 2 <? String.length term)
         (JSString.splitLoop s2 EmptyString false).
Proof.
  intros Hc. revert cur gap.
  induction s1 as [|x s1 IH]; intros cur gap Hgap.
  - change (EmptyString +:+ String c s2) with (String c s2).
    cbn [JSString.splitLoop]. rewrite Hc. destruct gap.
    + rewrite (Hgap eq_refl). rewrite splitLoop_gap. reflexivity.
    + cbn [List.filter].
      destruct (2 <? String.length cur); cbn [app]; rewrite splitLoop_gap;
        reflexivity.
  - change (String x s1 +:+ String c s2) with (String x (s1 +:+ String c s2)).
    cbn [JSString.splitLoop].
    destruct (JSString.isWhiteSpace x).
    + destruct gap.
      * apply IH. exact Hgap.
      * cbn [List.filter]. rewrite (IH EmptyString true) by reflexivity.
        destruct (2 <? String.length cur); reflexivity.
    + apply IH. discriminate.
Qed.

(** The terms of two queries joined by white space are the terms of the
    first followed by the terms of the second. *)
Lemma queryTerms_app query1 c query2 :
  JSString.isWhiteSpace c = true ->
  queryTerms (query1 +:+ String c query2) = queryTerms query1 ++ queryTerms query2.
Proof.
  intros Hc. unfold queryTerms, JSString.splitWhiteSpace.
  rewrite toLowerCase_app. cbn [JSString.toLowerCase].
  apply splitLoop_app; [|discriminate].
  rewrite isWhiteSpace_lowerChar. exact Hc.
Qed.

Lemma includedTerms_app content terms1 terms2 :
  includedTerms content (terms1 ++ terms2)
  = includedTerms content terms1 + includedTerms content terms2.
Proof.
  unfold includedTerms. rewrite List.filter_app, length_app. reflexivity.
Qed.

(** X1.  Raising the threshold never lets one more candidate through:
    what [filterByContentRelevance] keeps at a threshold is a
    subsequence of what it keeps at any lower threshold. *)
Theorem filterByContentRelevance_threshold_monotone docs query low high :
  Number.geb high low = true ->
  filterByContentRelevance docs query high
  `sublist_of` filterByContentRelevance docs query low.
Proof.
  intros Hle. unfold filterByContentRelevance.
  apply List_filter_weaker. intros doc Hhigh.
  unfold Number.geb in *. exact (SFleb_trans _ _ _ Hle Hhigh).
Qed.

(** X2.  Each candidate is judged on its own: filtering a concatenation
    is filtering its parts, and filtering the result once more with the
    same query and threshold changes nothing. *)
Theorem filterByContentRelevance_app_idempotent docs1 docs2 query threshold :
  filterByContentRelevance (docs1 ++ docs2) query threshold
  = filterByContentRelevance docs1 query threshold
    ++ filterByContentRelevance docs2 query threshold
  /\ filterByContentRelevance
       (filterByContentRelevance docs1 query threshold) query threshold
     = filterByContentRelevance docs1 query threshold.
Proof.
  unfold filterByContentRelevance. split.
  - apply List.filter_app.
  - apply List_filter_idempotent.
Qed.

(** X3.  The filter does not see the case of the query: two queries
    with the same lower-casing keep the same candidates, and so do a
    query and its lower-casing. *)
Theorem filterByContentRelevance_ignores_case docs query query' threshold :
  JSString.toLowerCase query' = JSString.toLowerCase query ->
  filterByContentRelevance docs query' threshold
  = filterByContentRelevance docs query threshold
  /\ filterByContentRelevance docs (JSString.toLowerCase query) threshold
     = filterByContentRelevance docs query threshold.
Proof.
  intros Hq. unfold filterByContentRelevance, queryTerms.
  rewrite Hq, toLowerCase_idempotent. split; reflexivity.
Qed.

(** X4.  A text that leaves no term of its own, as the word ["of"]
    does, changes nothing when it is added to a query with a space, at
    either end. *)
Theorem filterByContentRelevance_short_word docs query word threshold :
  queryTerms word = [] ->
  filterByContentRelevance docs (query +:+ " " +:+ word) threshold
  = filterByContentRelevance docs query threshold
  /\ filterByContentRelevance docs (word +:+ " " +:+ query) threshold
     = filterByContentRelevance docs query threshold.
Proof.
  intros Hw. unfold filterByContentRelevance.
  change (" " +:+ word) with (String " "%char word).
  change (" " +:+ query) with (String " "%char query).
  rewrite !queryTerms_app by reflexivity.
  rewrite Hw, app_nil_r. split; reflexivity.
Qed.

(** X5.  The order of the words of a query does not matter: the score
    counts the terms that the content includes. *)
Theorem filterByContentRelevance_word_order docs query1 query2 threshold :
  (Z.of_nat (length (queryTerms query1) + length (queryTerms query2)) < 2 ^ 53)%Z ->
  filterByContentRelevance docs (query1 +:+ " " +:+ query2) threshold
  = filterByContentRelevance docs (query2 +:+ " " +:+ query1) threshold.
Proof.
  intros Hb. unfold filterByContentRelevance.
  change (" " +:+ query2) with (String " "%char query2).
  change (" " +:+ query1) with (String " "%char query1).
  rewrite !queryTerms_app by reflexivity.
  apply filter_ext. intros doc. unfold relevanceScore.
  rewrite !score_count by (rewrite length_app; lia).
  rewrite !includedTerms_app, !length_app.
  rewrite (Nat.add_comm (includedTerms _ (queryTerms query2))).
  rewrite (Nat.add_comm (length (queryTerms query2))).
  reflexivity.
Qed.

End RelevanceFilterMore.

Lemma filterByContentRelevance_threshold_monotone_witness :
  Number.geb Number.one Number.lit_0_3 = true
  /\ filterByContentRelevance [Sample.thermostat; Sample.lights]
       "thermostat lights" Number.one
     `sublist_of` filterByContentRelevance [Sample.thermostat; Sample.lights]
                    "thermostat lights" Number.lit_0_3.
Proof.
  split; [reflexivity|].
  apply (filterByContentRelevance_threshold_monotone
           [Sample.thermostat; Sample.lights] "thermostat lights"
           Number.lit_0_3 Number.one).
  reflexivity.
Defined.

Lemma filterByContentRelevance_ignores_case_witness :
  JSString.toLowerCase "AIR Conditioner" = JSString.toLowerCase "air conditioner"
  /\ filterByContentRelevance [Sample.thermostat; Sample.lights]
       "AIR Conditioner" threshold_default
     = filterByContentRelevance [Sample.thermostat; Sample.lights]
         "air conditioner" threshold_default.
Proof.
  split; [reflexivity|].
  apply (filterByContentRelevance_ignores_case
           [Sample.thermostat; Sample.lights] "air conditioner"
           "AIR Conditioner" threshold_default).
  reflexivity.
Defined.

Lemma filterByContentRelevance_short_word_witness :
  queryTerms "of" = []
  /\ filterByContentRelevance [Sample.thermostat; Sample.lights]
       ("temperature setpoint" +:+ " " +:+ "of") threshold_default
     = filterByContentRelevance [Sample.thermostat; Sample.lights]
         "temperature setpoint" threshold_default.
Proof.
  split; [reflexivity|].
  apply (filterByContentRelevance_short_word
           [Sample.thermostat; Sample.lights] "temperature setpoint" "of"
           threshold_default).
  reflexivity.
Defined.

Lemma filterByContentRelevance_word_order_witness :
  (Z.of_nat (length (queryTerms "living room") + length (queryTerms "lights"))
   < 2 ^ 53)%Z
  /\ filterByContentRelevance [Sample.thermostat; Sample.lights]
       ("living room" +:+ " " +:+ "lights") threshold_default
     = filterByContentRelevance [Sample.thermostat; Sample.lights]
         ("lights" +:+ " " +:+ "living room") threshold_default.
Proof.
  assert (Hb : (Z.of_nat (length (queryTerms "living room")
                          + length (queryTerms "lights")) < 2 ^ 53)%Z)
    by (vm_compute; reflexivity).
  split; [exact Hb|].
  apply (filterByContentRelevance_word_order
           [Sample.thermostat; Sample.lights] "living room" "lights"
           threshold_default Hb).
Defined.

(** ** The area-partition maps: what is stored, and what is said *)

Section AreaPartitionMapsMore.

Implicit Types (area jsonContent areaName partition : JSValue).
Implicit Types (areas items : list JSValue).

Lemma partitionOf_complete partition p :
  partitionOf partition = Some p -> partitionComplete p = true.
Proof.
  unfold partitionOf, partitionComplete.
  destruct (truthy partition); [|discriminate].
  destruct (resolvePartition partition) as [partitionUuid partitionName].
  destruct (truthy partitionUuid && truthy partitionName) eqn:Et; [|discriminate].
  intros [= <-]. exact Et.
Qed.

Lemma omap_partitionOf_complete items :
  Forall (fun p => partitionComplete p = true) (omap partitionOf items).
Proof.
  induction items as [|partition items IH]; [constructor|].
  destruct (partitionOf partition) as [p|] eqn:Ep.
  - rewrite (omap_cons_some _ _ _ p Ep). constructor; [|exact IH].
    exact (partitionOf_complete partition p Ep).
  - rewrite (omap_cons_none _ _ _ Ep). exact IH.
Qed.

Lemma areaPartitionMapOf_complete area :
  Forall (fun p => partitionComplete p = true)
    (AreaPartitionMap.partitions (areaPartitionMapOf area)).
Proof.
  unfold areaPartitionMapOf. cbn [AreaPartitionMap.partitions].
  destruct (isArray (getProp area "partitions")); [|constructor].
  apply omap_partitionOf_complete.
Qed.

Lemma partitionOf_identifier id :
  id <> EmptyString -> partitionOf (JString id) = Some (identifierPartition id).
Proof.
  intros Hid. unfold partitionOf, identifierPartition.
  cbn [truthy resolvePartition].
  destruct (String.eqb_spec id EmptyString) as [->|_]; [contradiction|].
  reflexivity.
Qed.

Lemma omap_partitionOf_identifiers ids :
  Forall (fun id => id <> EmptyString) ids ->
  omap partitionOf (JString <$> ids) = identifierPartition <$> ids.
Proof.
  induction 1 as [|id ids Hid _ IH]; [reflexivity|].
  rewrite !fmap_cons.
  rewrite (omap_cons_some _ _ _ _ (partitionOf_identifier id Hid)), IH.
  reflexivity.
Qed.

(** The loop over partitions that are bare identifiers prints nothing
    and throws nothing, whatever the name of the area. *)
Lemma forEntriesRun_mapPartition_identifiers areaName index ids :
  Forall (fun id => id <> EmptyString) ids ->
  forEntriesRun (mapPartition areaName) index (JString <$> ids)
  = ([], Returned (identifierPartition <$> ids)).
Proof.
  intros Hids. revert index.
  induction Hids as [|id ids Hid _ IH]; intros index; [reflexivity|].
  rewrite !fmap_cons. cbn [forEntriesRun].
  rewrite (bind_returned _ _ [] _
             (mapPartition_some areaName index (JString id) _
                (partitionOf_identifier id Hid))).
  rewrite IH. reflexivity.
Qed.

(** A round of the loop over the areas stores a map, or warns of the
    area, or reports it from the [catch]. *)
Lemma mapArea_tally index area :
  let warnings := length (List.filter isAreaWarning (fst (mapArea index area))) in
  let errors := length (List.filter isAreaError (fst (mapArea index area))) in
  let stored := match snd (mapArea index area) with Some _ => 1 | None => 0 end in
  warnings + stored <= 1 /\ 1 <= warnings + stored + errors.
Proof.
  cbn zeta.
  destruct (mapArea_cases index area)
    as [(_ & ->)|[(_ & _ & ->)|[(_ & _ & ->)|(_ & lg & -> & Hw & _)]]];
    cbn [fst snd]; try (simpl; lia).
  rewrite Hw. simpl. lia.
Qed.

Lemma forEntries_mapArea_tally index areas :
  let warnings :=
    length (List.filter isAreaWarning (fst (forEntries mapArea index areas))) in
  let errors :=
    length (List.filter isAreaError (fst (forEntries mapArea index areas))) in
  let stored := length (snd (forEntries mapArea index areas)) in
  warnings + stored <= length areas /\ length areas <= warnings + stored + errors.
Proof.
  cbn zeta. revert index. induction areas as [|area areas IH]; intros index.
  - simpl. lia.
  - cbn [forEntries]. pose proof (mapArea_tally index area) as Hone.
    cbn zeta in Hone.
    destruct (mapArea index area) as [lg r].
    specialize (IH (S index)).
    destruct (forEntries mapArea (S index) areas) as [lg' rs].
    cbn [fst snd] in *. rewrite !List.filter_app, !length_app.
    destruct r; simpl in *; lia.
Qed.

(** The runs of [buildAreaPartitionMaps] on an array of areas *)
Lemma buildAreaPartitionMaps_run jsonContent ref areas :
  getProp jsonContent "areas" = JArray ref areas ->
  buildAreaPartitionMaps jsonContent
  = (fst (forEntries mapArea 0 areas)
       ++ [(LOG, MAreaMapsCreated (length (snd (forEntries mapArea 0 areas))))],
     Returned (snd (forEntries mapArea 0 areas))).
Proof.
  intros Hareas. unfold buildAreaPartitionMaps.
  assert (Hnn : nullish jsonContent = false).
  { destruct jsonContent; try reflexivity; discriminate. }
  rewrite Hnn, Hareas. cbn [truthy isArray negb orb arrayItems].
  destruct (forEntries mapArea 0 areas) as [lg maps]. reflexivity.
Qed.

(** X6.  Whatever the configuration holds, every map that
    [buildAreaPartitionMaps] returns has a truthy [areaUuid] and a truthy
    [areaName], and every partition in it has a truthy [uuid] and a
    truthy [name]. *)
Theorem buildAreaPartitionMaps_maps_complete jsonContent lg maps :
  buildAreaPartitionMaps jsonContent = (lg, Returned maps) ->
  Forall (fun areaMap =>
            truthy (AreaPartitionMap.areaUuid areaMap) = true
            /\ truthy (AreaPartitionMap.areaName areaMap) = true
            /\ Forall (fun p => truthy (Partition.uuid p) = true
                                /\ truthy (Partition.name p) = true)
                 (AreaPartitionMap.partitions areaMap))
    maps.
Proof.
  intros Hrun.
  assert (Hnn : nullish jsonContent = false).
  { unfold buildAreaPartitionMaps in Hrun.
    destruct (nullish jsonContent); [discriminate | reflexivity]. }
  destruct (buildAreaPartitionMaps_maps jsonContent Hnn) as (lg' & Heq).
  rewrite Heq in Hrun. injection Hrun as _ <-.
  apply Forall_fmap, Forall_forall. intros area Hin.
  apply list_elem_of_In, filter_In in Hin. destruct Hin as [_ Hacc].
  unfold areaMapped, areaAccepted, areaHasUuidAndName in Hacc.
  apply andb_true_iff in Hacc. destruct Hacc as [Hacc _].
  apply andb_true_iff in Hacc. destruct Hacc as [_ Hun].
  apply andb_true_iff in Hun. destruct Hun as [Hu Hn].
  split; [exact Hu|]. split; [exact Hn|].
  eapply Forall_impl; [apply areaPartitionMapOf_complete|].
  intros p Hp. apply andb_true_iff in Hp. exact Hp.
Qed.

(** X7.  No area is dropped in silence: every entry of [areas] gives a
    map, or is skipped with one of the two warnings about areas, or is
    reported by the [catch] with the line "Error processing area".  The
    maps returned and the warnings never exceed the number of entries;
    with the lines of the [catch] they reach it, so that without such a
    line the maps and the warnings add up to the number of entries.
    There are never more maps than areas. *)
Theorem buildAreaPartitionMaps_maps_and_warnings jsonContent ref areas lg maps :
  getProp jsonContent "areas" = JArray ref areas ->
  buildAreaPartitionMaps jsonContent = (lg, Returned maps) ->
  length maps + length (List.filter isAreaWarning lg) <= length areas
  /\ length areas
     <= length maps + length (List.filter isAreaWarning lg)
        + length (List.filter isAreaError lg)
  /\ (List.filter isAreaError lg = [] ->
      length maps + length (List.filter isAreaWarning lg) = length areas)
  /\ length maps <= length areas.
Proof.
  intros Hareas Hrun.
  rewrite (buildAreaPartitionMaps_run jsonContent ref areas Hareas) in Hrun.
  injection Hrun as <- <-.
  pose proof (forEntries_mapArea_tally 0 areas) as Htally. cbn zeta in Htally.
  rewrite !List.filter_app, !length_app. cbn [List.filter isAreaWarning isAreaError
                                               length].
  rewrite !Nat.add_0_r.
  split; [lia|]. split; [lia|]. split; [|lia].
  intros Hnil. apply app_eq_nil in Hnil. destruct Hnil as [Hnil _].
  rewrite Hnil in Htally. simpl in Htally. lia.
Qed.

(** X8.  [buildAreaPartitionMaps] throws exactly when the configuration
    is [null] or [undefined]: reading [areas] of it is a TypeError, and
    nothing is printed before.  On any other value it returns, since an
    exception in the loop over the areas is caught there; it returns no
    map, after one warning, when [areas] is not an array. *)
Theorem buildAreaPartitionMaps_throws_iff_nullish jsonContent :
  (nullish jsonContent = true ->
   buildAreaPartitionMaps jsonContent = ([], Thrown TypeError))
  /\ (nullish jsonContent = false ->
      exists lg maps, buildAreaPartitionMaps jsonContent = (lg, Returned maps))
  /\ (nullish jsonContent = false ->
      isArray (getProp jsonContent "areas") = false ->
      buildAreaPartitionMaps jsonContent = ([(WARN, MNoAreas)], Returned [])).
Proof.
  split; [|split].
  - intros Hn. unfold buildAreaPartitionMaps. rewrite Hn. reflexivity.
  - intros Hn. destruct (buildAreaPartitionMaps_maps jsonContent Hn) as (lg & Heq).
    eauto.
  - intros Hn Harr. unfold buildAreaPartitionMaps. rewrite Hn, Harr.
    rewrite orb_true_r. reflexivity.
Qed.

(** X9.  An area whose partitions are bare identifiers, none of them
    empty, keeps them all, in order: each becomes a partition with the
    identifier as [uuid], named ["Partition_"] and the first eight
    characters of the identifier.  No warning is printed for the area:
    the console shows the one line "Mapped Area", with the number of
    partitions, or, when the name of the area cannot be converted to a
    string, the one line of the [catch]; the map is stored in both
    cases. *)
Theorem mapArea_identifier_partitions index area ref ids :
  areaAccepted area = true ->
  getProp area "partitions" = JArray ref (JString <$> ids) ->
  Forall (fun id => id <> EmptyString) ids ->
  snd (mapArea index area)
  = Some (AreaPartitionMap.mk (getProp area "uuid") (getProp area "name")
            (identifierPartition <$> ids))
  /\ (printable (getProp area "name") = true ->
      fst (mapArea index area)
      = [(LOG, MMappedArea (getProp area "name") (length ids))])
  /\ (printable (getProp area "name") = false ->
      fst (mapArea index area) = [(ERROR, MAreaError index TypeError)]).
Proof.
  intros Hacc Hparts Hids. unfold areaAccepted in Hacc.
  apply andb_true_iff in Hacc. destruct Hacc as [Hobj Hun].
  unfold mapArea. rewrite Hobj, Hun, Hparts. cbn [negb isArray arrayItems].
  rewrite forEntriesRun_mapPartition_identifiers by exact Hids.
  rewrite length_fmap. unfold tellWith. cbn [forallb].
  destruct (printable (getProp area "name")); cbn.
  - split; [reflexivity|]. split; [reflexivity | discriminate].
  - split; [reflexivity|]. split; [discriminate | reflexivity].
Qed.

End AreaPartitionMapsMore.

Lemma buildAreaPartitionMaps_maps_complete_witness :
  exists lg,
    buildAreaPartitionMaps Sample.installation
    = (lg, Returned [Sample.kitchenMap; Sample.gardenMap])
    /\ Forall (fun areaMap =>
                 truthy (AreaPartitionMap.areaUuid areaMap) = true
                 /\ truthy (AreaPartitionMap.areaName areaMap) = true
                 /\ Forall (fun p => truthy (Partition.uuid p) = true
                                     /\ truthy (Partition.name p) = true)
                      (AreaPartitionMap.partitions areaMap))
         [Sample.kitchenMap; Sample.gardenMap].
Proof.
  eexists. split; [reflexivity|].
  eapply (buildAreaPartitionMaps_maps_complete Sample.installation).
  reflexivity.
Defined.

Lemma buildAreaPartitionMaps_maps_and_warnings_witness :
  exists lg maps,
    buildAreaPartitionMaps Sample.installation = (lg, Returned maps)
    /\ length maps + length (List.filter isAreaWarning lg) = 3.
Proof.
  eexists _, _. split; [reflexivity|].
  destruct (buildAreaPartitionMaps_maps_and_warnings Sample.installation 25
              [Sample.hallway; Sample.kitchen; Sample.garden] _ _
              eq_refl eq_refl) as (_ & _ & Hsum & _).
  apply Hsum. reflexivity.
Defined.

Lemma buildAreaPartitionMaps_throws_iff_nullish_witness :
  buildAreaPartitionMaps JNull = ([], Thrown TypeError)
  /\ buildAreaPartitionMaps Sample.noEndpoints = ([(WARN, MNoAreas)], Returned []).
Proof.
  destruct (buildAreaPartitionMaps_throws_iff_nullish JNull) as (Hnull & _).
  destruct (buildAreaPartitionMaps_throws_iff_nullish Sample.noEndpoints)
    as (_ & _ & Hnone).
  split.
  - apply Hnull. reflexivity.
  - apply Hnone; reflexivity.
Defined.

Lemma mapArea_identifier_partitions_witness :
  mapArea 1 Sample.kitchen
  = ([(LOG, MMappedArea (JString "Kitchen") 1)],
     Some (AreaPartitionMap.mk (JString "a1") (JString "Kitchen")
             [Partition.mk (JString "p1") (JString "Partition_p1")])).
Proof.
  destruct (mapArea_identifier_partitions 1 Sample.kitchen 14 ["p1"])
    as (Hmap & Hlog & _).
  - reflexivity.
  - reflexivity.
  - repeat constructor. discriminate.
  - rewrite (surjective_pairing (mapArea 1 Sample.kitchen)).
    rewrite Hmap, (Hlog eq_refl). reflexivity.
Defined.

(** ** The endpoint-area relations: provenance, counters and failures *)

Section RelationsMore.

Context `{Runtime}.

Implicit Types (endpoint endpointName jsonContent ep : JSValue).
Implicit Types (areaMap : AreaPartitionMap.t) (maps : list AreaPartitionMap.t).
Implicit Types (st : RelationState.t) (lg : list LogEntry).
Implicit Types (endpoints : list JSValue).

Lemma forEach_returned {A : Type} (body : A -> Run unit) (l : list A) lg x :
  forEach body l = (lg, Returned tt) -> x ∈ l ->
  exists lg', body x = (lg', Returned tt).
Proof.
  revert lg. induction l as [|y l IH]; intros lg Hrun Hin; [inversion Hin|].
  cbn [forEach] in Hrun.
  destruct (body y) as [lg1 [[]|e1]] eqn:Ey.
  - rewrite (bind_returned _ _ lg1 tt eq_refl) in Hrun.
    destruct (forEach body l) as [lg2 [[]|e2]] eqn:Erest; [|discriminate].
    apply elem_of_cons in Hin. destruct Hin as [->|Hin]; [eauto|].
    exact (IH lg2 eq_refl Hin).
  - rewrite (bind_thrown _ _ lg1 e1 eq_refl) in Hrun. discriminate.
Qed.

(** Without a relation, a [null] among the first five endpoints ends the
    detailed debug with a TypeError. *)
Lemma debugReport_nullish maps endpoints ep :
  ep ∈ take 5 endpoints -> nullish ep = true ->
  snd (debugReport [] maps endpoints) = Thrown TypeError.
Proof.
  intros Hin Hnull.
  destruct (debugReport [] maps endpoints) as [lg [[]|e]] eqn:Erun.
  - exfalso. unfold debugReport in Erun.
    cbn [JSMap.size length Nat.ltb Nat.leb] in Erun.
    destruct (forEach debugArea maps) as [lg1 [[]|e1]]; [|discriminate].
    destruct (forEach debugEndpoint (take 5 endpoints)) as [lg2 [[]|e2]] eqn:Eeps;
      [|discriminate].
    destruct (forEach_returned _ _ _ _ Eeps Hin) as [lg' Hret].
    rewrite (debugEndpoint_nullish ep Hnull) in Hret. discriminate.
  - destruct (debugReport_thrown _ _ _ _ _ Erun) as [-> _]. reflexivity.
Qed.

Lemma relationFrom_shared all maps key relation :
  relationFrom all maps (key, relation) ->
  EndpointAreaRelation.endpointUuid relation = key
  /\ EndpointAreaRelation.partitionUuids relation <> []
  /\ exists endpoint areaMap,
       endpoint ∈ all /\ areaMap ∈ maps
       /\ getProp endpoint "uuid" = key
       /\ EndpointAreaRelation.areaUuid relation = AreaPartitionMap.areaUuid areaMap
       /\ EndpointAreaRelation.areaName relation = AreaPartitionMap.areaName areaMap
       /\ Forall (fun uuid =>
                    Array_includes (arrayItems (getProp endpoint "partitions")) uuid
                    = true
                    /\ uuid ∈ Partition.uuid <$> AreaPartitionMap.partitions areaMap)
            (EndpointAreaRelation.partitionUuids relation).
Proof.
  intros (endpoint & endpointName & areaMap & Hin & Hmap & _ & _ & Hkey & Hrel
          & Hshare).
  cbn [fst snd] in Hkey, Hrel. subst key relation.
  cbn [mkRelation EndpointAreaRelation.endpointUuid
         EndpointAreaRelation.partitionUuids EndpointAreaRelation.areaUuid
         EndpointAreaRelation.areaName].
  split; [reflexivity|]. split.
  - unfold sharesPartition in Hshare. apply Nat.ltb_lt in Hshare.
    destruct (sharedPartitions endpoint areaMap); [simpl in Hshare; lia|].
    discriminate.
  - exists endpoint, areaMap. repeat split; try assumption.
    apply Forall_fmap, Forall_forall. intros p Hp.
    apply list_elem_of_In, filter_In in Hp. destruct Hp as [Hp Hinc].
    split; [exact Hinc|].
    apply list_elem_of_fmap. exists p. split; [reflexivity|].
    apply list_elem_of_In. exact Hp.
Qed.

(** X10.  Every relation that [buildEndpointAreaRelations] returns is
    stored under the [uuid] of one of the endpoints, which is also its
    [endpointUuid]; its area is one of the area maps that were given; its
    partitions are not empty, and each of them is a partition of that
    area map that the endpoint lists. *)
Theorem buildEndpointAreaRelations_provenance jsonContent maps lg relations
    key relation :
  buildEndpointAreaRelations jsonContent maps = (lg, Returned relations) ->
  (key, relation) ∈ relations ->
  EndpointAreaRelation.endpointUuid relation = key
  /\ EndpointAreaRelation.partitionUuids relation <> []
  /\ exists endpoint areaMap,
       endpoint ∈ arrayItems (getProp jsonContent "endpoints") /\ areaMap ∈ maps
       /\ getProp endpoint "uuid" = key
       /\ EndpointAreaRelation.areaUuid relation = AreaPartitionMap.areaUuid areaMap
       /\ EndpointAreaRelation.areaName relation = AreaPartitionMap.areaName areaMap
       /\ Forall (fun uuid =>
                    Array_includes (arrayItems (getProp endpoint "partitions")) uuid
                    = true
                    /\ uuid ∈ Partition.uuid <$> AreaPartitionMap.partitions areaMap)
            (EndpointAreaRelation.partitionUuids relation).
Proof.
  intros Hrun Hin.
  destruct (buildEndpointAreaRelations_returned _ _ _ _ Hrun)
    as [-> | (ref & endpoints & _ & _ & Hendpoints & -> & _)]; [inversion Hin|].
  rewrite Hendpoints. cbn [arrayItems].
  apply relationFrom_shared.
  pose proof (relateEndpoints_provenance maps endpoints) as Hall.
  rewrite Forall_forall in Hall. apply Hall, Hin.
Qed.

(** X11.  The report agrees with what is returned: the console shows
    every endpoint as processed, and the number of relations created that
    it prints is the size of the map it returns, which is at most the
    number of endpoints. *)
Theorem buildEndpointAreaRelations_report jsonContent maps ref endpoints lg
    relations :
  isArray (getProp jsonContent "areas") = true -> maps <> [] ->
  getProp jsonContent "endpoints" = JArray ref endpoints ->
  buildEndpointAreaRelations jsonContent maps = (lg, Returned relations) ->
  (LOG, MEndpointsProcessed (length endpoints)) ∈ lg
  /\ (LOG, MRelationsCreated (JSMap.size relations)) ∈ lg
  /\ (LOG, MUniqueRelations (JSMap.size relations)) ∈ lg
  /\ JSMap.size relations <= length endpoints.
Proof.
  intros Hareas Hmaps Hendpoints Hrun.
  destruct (buildEndpointAreaRelations_loop jsonContent maps ref endpoints
              Hareas Hmaps Hendpoints) as (lg0 & Heq).
  pose proof (relateEndpoints_counters maps 0 endpoints []
                (RelationState.mk JSMap.empty 0 0)) as Hcount.
  fold noRelations in Hcount. cbn zeta in Hcount.
  destruct (relateEndpoints maps 0 endpoints noRelations) as [lgs st].
  cbn [fst snd RelationState.relations RelationState.totalEndpointsProcessed
         RelationState.totalRelationsCreated] in *.
  destruct Hcount as (Hp & Hs & Hc). unfold JSMap.size, JSMap.empty in *.
  cbn [length] in *.
  rewrite Heq in Hrun.
  destruct (debugReport (RelationState.relations st) maps endpoints)
    as [lg5 [[]|e5]]; cbn [fst snd] in Hrun; [|discriminate].
  injection Hrun as <- <-.
  replace (RelationState.totalEndpointsProcessed st) with (length endpoints) by lia.
  replace (RelationState.totalRelationsCreated st)
    with (length (RelationState.relations st)) by lia.
  repeat split; try lia;
    apply elem_of_app; right; apply elem_of_app; right;
    simpl; repeat constructor.
Qed.

(** X12.  The two early exits, and the failure behind them: without an
    array of areas, or without area maps, the function returns an empty
    map and does not look at the endpoints (the configuration may even be
    [null]); with both, endpoints that are not an array are a
    TypeError. *)
Theorem buildEndpointAreaRelations_early_exits jsonContent maps :
  (isArray (getPropOpt jsonContent "areas") = false ->
   buildEndpointAreaRelations jsonContent maps
   = ([(LOG, MBuildingRelations); (WARN, MNoAreasForRelations)],
      Returned JSMap.empty))
  /\ (isArray (getPropOpt jsonContent "areas") = true -> maps = [] ->
      buildEndpointAreaRelations jsonContent maps
      = ([(LOG, MBuildingRelations); (WARN, MNoPartitionMaps)],
         Returned JSMap.empty))
  /\ (isArray (getPropOpt jsonContent "areas") = true -> maps <> [] ->
      isArray (getProp jsonContent "endpoints") = false ->
      outcome (buildEndpointAreaRelations jsonContent maps) = Thrown TypeError).
Proof.
  split; [|split].
  - apply buildEndpointAreaRelations_no_areas.
  - intros Ha ->. apply buildEndpointAreaRelations_no_maps, Ha.
  - intros Ha Hm He.
    rewrite buildEndpointAreaRelations_no_endpoints by assumption. reflexivity.
Qed.

(** X13.  No relation without a shared partition: if none of the
    endpoints that bear a [uuid] shares a partition with any of the area
    maps, nothing is stored under that [uuid]. *)
Theorem buildEndpointAreaRelations_no_shared_partition jsonContent maps lg
    relations key :
  buildEndpointAreaRelations jsonContent maps = (lg, Returned relations) ->
  (forall endpoint areaMap,
     endpoint ∈ arrayItems (getProp jsonContent "endpoints") -> areaMap ∈ maps ->
     sameValueZero (getProp endpoint "uuid") key = true ->
     sharesPartition endpoint areaMap = false) ->
  JSMap.get relations key = None.
Proof.
  intros Hrun Hnone.
  destruct (JSMap.get relations key) as [relation|] eqn:Eget; [|reflexivity].
  exfalso.
  destruct (JSMap_get_entry relations key relation Eget) as (k' & Hin & Hk').
  destruct (buildEndpointAreaRelations_returned _ _ _ _ Hrun)
    as [-> | (ref & endpoints & _ & _ & Hendpoints & -> & _)]; [inversion Hin|].
  pose proof (relateEndpoints_provenance maps endpoints) as Hall.
  rewrite Forall_forall in Hall.
  destruct (Hall _ Hin)
    as (endpoint & endpointName & areaMap & He & Hm & _ & _ & Hkey & _ & Hshare).
  cbn [fst] in Hkey. subst k'.
  rewrite Hendpoints in Hnone. cbn [arrayItems] in Hnone.
  rewrite (Hnone endpoint areaMap He Hm Hk') in Hshare. discriminate.
Qed.

(** X14.  The only failures: [buildEndpointAreaRelations] throws
    nothing but a TypeError, and it does so only when [endpoints] is not
    an array, or when a value that it prints cannot be converted to a
    string (the name of an area map or of one of its partitions; the
    name, the [uuid] or a partition of an endpoint), or when no relation
    was created and one of the first five endpoints is not a record
    whose [partitions], if present, is an array.  An exception inside the
    loop over the endpoints never leaves the function; the detailed
    debug that follows the loop stands outside its [try]. *)
Theorem buildEndpointAreaRelations_failures jsonContent maps lg e :
  buildEndpointAreaRelations jsonContent maps = (lg, Thrown e) ->
  e = TypeError
  /\ (isArray (getProp jsonContent "endpoints") = false
      \/ (exists areaMap,
            areaMap ∈ maps
            /\ (printable (AreaPartitionMap.areaName areaMap) = false
                \/ exists p,
                     p ∈ AreaPartitionMap.partitions areaMap
                     /\ printable (Partition.name p) = false))
      \/ (exists ep,
            ep ∈ arrayItems (getProp jsonContent "endpoints")
            /\ (printable (getProp ep "name") = false
                \/ printable (getProp ep "uuid") = false
                \/ printable (getProp ep "partitions") = false))
      \/ ((WARN, MNoRelations) ∈ lg
          /\ exists ep,
               ep ∈ take 5 (arrayItems (getProp jsonContent "endpoints"))
               /\ endpointWellFormed ep = false)).
Proof.
  intros Hrun.
  destruct (buildEndpointAreaRelations_thrown _ _ _ _ Hrun)
    as (-> & [Harr | [(areaMap & Hin & Hbad) | [(ep & Hin & Hbad) | Hdebug]]]).
  - split; [reflexivity|]. left. exact Harr.
  - split; [reflexivity|]. right. left. exists areaMap. split; [exact Hin|].
    unfold areaMapPrintable in Hbad.
    destruct (printable (AreaPartitionMap.areaName areaMap)); [|left; reflexivity].
    right. cbn [andb] in Hbad.
    destruct (existsb (fun p => negb (printable (Partition.name p)))
                (AreaPartitionMap.partitions areaMap)) eqn:Eex.
    + apply existsb_exists in Eex. destruct Eex as (p & Hp & Hnp).
      exists p. split; [apply list_elem_of_In, Hp|].
      apply negb_true_iff. exact Hnp.
    + exfalso. apply not_true_iff_false in Hbad. apply Hbad.
      apply forallb_forall. intros name Hname.
      apply in_map_iff in Hname. destruct Hname as (p & <- & Hp).
      destruct (printable (Partition.name p)) eqn:Epp; [reflexivity|].
      assert (Hex : existsb (fun p => negb (printable (Partition.name p)))
                      (AreaPartitionMap.partitions areaMap) = true).
      { apply existsb_exists. exists p. split; [exact Hp|].
        rewrite Epp. reflexivity. }
      congruence.
  - split; [reflexivity|]. right. right. left. exists ep. split; [exact Hin|].
    unfold endpointPrintable in Hbad.
    destruct (printable (getProp ep "name")); [|left; reflexivity].
    destruct (printable (getProp ep "uuid")); [|right; left; reflexivity].
    right. right. exact Hbad.
  - split; [reflexivity|]. right. right. right. exact Hdebug.
Qed.

(** X15.  A [null] among the first five endpoints is fatal when no
    relation is created: if no endpoint shares a partition with any area
    map, the function throws a TypeError. *)
Theorem buildEndpointAreaRelations_null_endpoint jsonContent maps ref endpoints ep :
  isArray (getProp jsonContent "areas") = true -> maps <> [] ->
  getProp jsonContent "endpoints" = JArray ref endpoints ->
  ep ∈ take 5 endpoints -> nullish ep = true ->
  (forall endpoint areaMap,
     endpoint ∈ endpoints -> areaMap ∈ maps ->
     sharesPartition endpoint areaMap = false) ->
  outcome (buildEndpointAreaRelations jsonContent maps) = Thrown TypeError.
Proof.
  intros Hareas Hmaps Hendpoints Hin Hnull Hnone.
  destruct (buildEndpointAreaRelations_loop jsonContent maps ref endpoints
              Hareas Hmaps Hendpoints) as (lg0 & ->).
  pose proof (relateEndpoints_provenance maps endpoints) as Hall.
  destruct (RelationState.relations
              (snd (relateEndpoints maps 0 endpoints noRelations)))
    as [|[key relation] rest] eqn:Erel.
  - cbn [outcome snd].
    rewrite (debugReport_nullish maps endpoints ep Hin Hnull). reflexivity.
  - exfalso. apply Forall_cons in Hall. destruct Hall as [Hfrom _].
    destruct Hfrom as (endpoint & _ & areaMap & He & Hm & _ & _ & _ & _ & Hshare).
    rewrite (Hnone endpoint areaMap He Hm) in Hshare. discriminate.
Qed.

End RelationsMore.

Lemma buildEndpointAreaRelations_provenance_witness :
  exists lg relations,
    @buildEndpointAreaRelations Sample.runtime Sample.installation
      [Sample.kitchenMap; Sample.gardenMap] = (lg, Returned relations)
    /\ (JString "e1", mkRelation Sample.sensor (JString "Device_e1") Sample.kitchenMap)
       ∈ relations
    /\ EndpointAreaRelation.partitionUuids
         (mkRelation Sample.sensor (JString "Device_e1") Sample.kitchenMap)
       <> [].
Proof.
  eexists _, _. split; [reflexivity|]. split; [left|].
  eapply (@buildEndpointAreaRelations_provenance Sample.runtime
            Sample.installation [Sample.kitchenMap; Sample.gardenMap]).
  - reflexivity.
  - left.
Defined.

Lemma buildEndpointAreaRelations_report_witness :
  exists lg relations,
    @buildEndpointAreaRelations Sample.runtime Sample.installation
      [Sample.kitchenMap; Sample.gardenMap] = (lg, Returned relations)
    /\ (LOG, MEndpointsProcessed 2) ∈ lg
    /\ (LOG, MRelationsCreated (JSMap.size relations)) ∈ lg.
Proof.
  eexists _, _. split; [reflexivity|].
  destruct (@buildEndpointAreaRelations_report Sample.runtime
              Sample.installation [Sample.kitchenMap; Sample.gardenMap] 24
              [Sample.sensor; Sample.lamp] _ _
              eq_refl ltac:(discriminate) eq_refl eq_refl)
    as (Hp & Hc & _).
  split; [exact Hp | exact Hc].
Defined.

Lemma buildEndpointAreaRelations_early_exits_witness :
  @buildEndpointAreaRelations Sample.runtime JNull [Sample.kitchenMap]
  = ([(LOG, MBuildingRelations); (WARN, MNoAreasForRelations)],
     Returned JSMap.empty)
  /\ outcome (@buildEndpointAreaRelations Sample.runtime
                (Sample.areasOnly [Sample.kitchen]) [Sample.kitchenMap])
     = Thrown TypeError.
Proof.
  split.
  - apply (@buildEndpointAreaRelations_early_exits Sample.runtime JNull
             [Sample.kitchenMap]).
    reflexivity.
  - apply (@buildEndpointAreaRelations_early_exits Sample.runtime
             (Sample.areasOnly [Sample.kitchen]) [Sample.kitchenMap]).
    + reflexivity.
    + discriminate.
    + reflexivity.
Defined.

Lemma buildEndpointAreaRelations_no_shared_partition_witness :
  exists lg relations,
    @buildEndpointAreaRelations Sample.runtime Sample.installation
      [Sample.kitchenMap; Sample.gardenMap] = (lg, Returned relations)
    /\ JSMap.get relations (JString "e2") = None.
Proof.
  eexists _, _. split; [reflexivity|].
  eapply (@buildEndpointAreaRelations_no_shared_partition Sample.runtime
            Sample.installation [Sample.kitchenMap; Sample.gardenMap]).
  - reflexivity.
  - intros endpoint areaMap He Hm Hkey.
    apply list_elem_of_In in He. simpl in He.
    destruct He as [<-|[<-|[]]]; [discriminate Hkey|].
    apply list_elem_of_In in Hm. simpl in Hm.
    destruct Hm as [<-|[<-|[]]]; reflexivity.
Defined.

Lemma buildEndpointAreaRelations_failures_witness :
  exists lg,
    @buildEndpointAreaRelations Sample.runtime Cases.nullFirst [Sample.kitchenMap]
    = (lg, Thrown TypeError)
    /\ (WARN, MNoRelations) ∈ lg.
Proof.
  eexists. split; [reflexivity|].
  destruct (@buildEndpointAreaRelations_failures Sample.runtime Cases.nullFirst
              [Sample.kitchenMap] _ TypeError eq_refl)
    as (_ & [Harr | [(areaMap & Hin & Hbad) | [(ep & Hin & Hbad) | [Hwarn _]]]]).
  - discriminate Harr.
  - exfalso. apply list_elem_of_In in Hin. simpl in Hin.
    destruct Hin as [<-|[]].
    destruct Hbad as [Hbad | (p & Hp & Hbad)]; [discriminate Hbad|].
    apply list_elem_of_In in Hp. simpl in Hp.
    destruct Hp as [<-|[]]. discriminate Hbad.
  - exfalso. apply list_elem_of_In in Hin. simpl in Hin.
    destruct Hin as [<-|[<-|[]]];
      destruct Hbad as [Hbad|[Hbad|Hbad]]; discriminate Hbad.
  - exact Hwarn.
Defined.

Lemma buildEndpointAreaRelations_null_endpoint_witness :
  nullish JNull = true
  /\ outcome (@buildEndpointAreaRelations Sample.runtime Cases.nullFirst
                [Sample.kitchenMap])
     = Thrown TypeError.
Proof.
  split; [reflexivity|].
  apply (@buildEndpointAreaRelations_null_endpoint Sample.runtime
           Cases.nullFirst [Sample.kitchenMap] 31 [JNull; Sample.lamp] JNull).
  - reflexivity.
  - discriminate.
  - reflexivity.
  - left.
  - reflexivity.
  - intros endpoint areaMap He Hm.
    apply list_elem_of_In in He, Hm. simpl in He, Hm.
    destruct Hm as [<-|[]]. destruct He as [<-|[<-|[]]]; reflexivity.
Defined.

(** ** The loader: what it returns, what it throws *)

Section LoaderMore.

Context `{Runtime}.
Variable buildGlobalPartitionMap : JSValue -> PartitionMap.

Implicit Types (env : Env.t) (jsonContent ep : JSValue) (rawContent : string).
Implicit Types (endpoints : list JSValue) (lg : list LogEntry).

(** The six ways through [loadDocumentsJSON] *)
Lemma loadDocumentsJSON_cases env :
  (Env.fileContent env = None
   /\ loadDocumentsJSON buildGlobalPartitionMap env
      = ([(ERROR, MDocumentNotFound)],
         Thrown (Error "Execution blocked: file doesn't exist")))
  \/ (exists rawContent,
        Env.fileContent env = Some rawContent
        /\ String.length (JSString.trim rawContent) = 0
        /\ loadDocumentsJSON buildGlobalPartitionMap env
           = ([(ERROR, MEmptyDocument)],
              Thrown (Error "Execution blocked: file contents empty.")))
  \/ (exists rawContent,
        Env.fileContent env = Some rawContent
        /\ String.length (JSString.trim rawContent) <> 0
        /\ JSON_parse rawContent = None
        /\ loadDocumentsJSON buildGlobalPartitionMap env
           = ([(ERROR, MParsingFailed)],
              Thrown (Error "Invalid JSON format in configuration")))
  \/ (exists rawContent jsonContent,
        Env.fileContent env = Some rawContent
        /\ String.length (JSString.trim rawContent) <> 0
        /\ JSON_parse rawContent = Some jsonContent
        /\ (truthy jsonContent = false \/ isTObject (typeof jsonContent) = false)
        /\ loadDocumentsJSON buildGlobalPartitionMap env
           = ([], Thrown (Error "Invalid JSON structure: root must be an object")))
  \/ (exists rawContent jsonContent,
        Env.fileContent env = Some rawContent
        /\ String.length (JSString.trim rawContent) <> 0
        /\ JSON_parse rawContent = Some jsonContent
        /\ truthy jsonContent = true /\ isTObject (typeof jsonContent) = true
        /\ hasValidEndpoints jsonContent = false
        /\ loadDocumentsJSON buildGlobalPartitionMap env
           = ([(WARN, MNoValidEndpoint)],
              Returned (getFallbackDocument env "No valid endpoints in configuration")))
  \/ (exists rawContent jsonContent,
        Env.fileContent env = Some rawContent
        /\ String.length (JSString.trim rawContent) <> 0
        /\ JSON_parse rawContent = Some jsonContent
        /\ hasValidEndpoints jsonContent = true
        /\ loadDocumentsJSON buildGlobalPartitionMap env
           = loadInstallation buildGlobalPartitionMap env jsonContent).
Proof.
  destruct (Env.fileContent env) as [rawContent|] eqn:Efile.
  2:{ left. split; [reflexivity|]. unfold loadDocumentsJSON. rewrite Efile.
      reflexivity. }
  right.
  destruct (Nat.eq_dec (String.length (JSString.trim rawContent)) 0) as [Hz|Hnz].
  { left. exists rawContent. split; [reflexivity|]. split; [exact Hz|].
    unfold loadDocumentsJSON. rewrite Efile, Hz. rewrite orb_true_r. reflexivity. }
  right.
  destruct (JSON_parse rawContent) as [jsonContent|] eqn:Eparse.
  2:{ left. exists rawContent. repeat split; try assumption.
      unfold loadDocumentsJSON. rewrite Efile, Eparse.
      destruct (String.eqb_spec rawContent EmptyString) as [->|_];
        [exfalso; apply Hnz; reflexivity|].
      apply Nat.eqb_neq in Hnz. rewrite Hnz. reflexivity. }
  right.
  pose proof (loadDocumentsJSON_parsed buildGlobalPartitionMap env rawContent
                jsonContent Efile Hnz Eparse) as Hrun.
  destruct (truthy jsonContent) eqn:Et.
  2:{ left. exists rawContent, jsonContent. repeat split; auto. }
  destruct (isTObject (typeof jsonContent)) eqn:Eo.
  2:{ left. exists rawContent, jsonContent. repeat split; auto. }
  right. cbn [negb orb] in Hrun.
  destruct (hasValidEndpoints jsonContent) eqn:Ee; cbn [negb] in Hrun.
  - right. exists rawContent, jsonContent. repeat split; auto.
  - left. exists rawContent, jsonContent. repeat split; auto.
Qed.

Lemma orElse_truthy a b : truthy b = true -> truthy (orElse a b) = true.
Proof. unfold orElse. destruct (truthy a) eqn:Ea; auto. Qed.

Lemma String_substring_length n m s :
  String.length (String.substring n m s) = Nat.min m (String.length s - n).
Proof.
  revert n m. induction s as [|c s IH]; intros n m.
  - destruct n, m; reflexivity.
  - destruct n as [|n].
    + destruct m as [|m]; [reflexivity|]. simpl. rewrite IH.
      rewrite Nat.sub_0_r. reflexivity.
    + simpl. apply IH.
Qed.

(** X16.  What [loadDocumentsJSON] hands back when it returns: one
    document and no more, stamped with the time of the call; either the
    summary, marked valid, or the fallback, marked invalid, with an empty
    partition map and a text for the reader. *)
Theorem loadDocumentsJSON_returns_one_document env lg result :
  loadDocumentsJSON buildGlobalPartitionMap env = (lg, Returned result) ->
  exists document,
    LoadDocumentResult.documents result = [document]
    /\ EndpointMetadata.timestamp (ExtendDocument.metadata document) = Env.now env
    /\ ((EndpointMetadata.chunkType (ExtendDocument.metadata document) = summary
         /\ EndpointMetadata.isValid (ExtendDocument.metadata document) = true
         /\ EndpointMetadata.source (ExtendDocument.metadata document) = targetFile
         /\ ExtendDocument.readableText document = None)
        \/ (EndpointMetadata.chunkType (ExtendDocument.metadata document) = fallback
            /\ EndpointMetadata.isValid (ExtendDocument.metadata document) = false
            /\ EndpointMetadata.source (ExtendDocument.metadata document) = "fallback"
            /\ ExtendDocument.readableText document <> None
            /\ LoadDocumentResult.partitionMap result = JSMap.empty)).
Proof.
  intros Hrun.
  destruct (loadDocumentsJSON_cases env)
    as [(_ & Heq) | [(raw & _ & _ & Heq) | [(raw & _ & _ & _ & Heq)
       | [(raw & json & _ & _ & _ & _ & Heq)
       | [(raw & json & _ & _ & _ & _ & _ & _ & Heq)
       | (raw & json & _ & _ & _ & Hvalid & Heq)]]]]];
    rewrite Heq in Hrun; try discriminate.
  - injection Hrun as _ <-. eexists. split; [reflexivity|].
    split; [reflexivity|]. right. repeat split. discriminate.
  - rewrite (loadInstallation_inv _ _ _ _ _ Hvalid Hrun).
    eexists. split; [reflexivity|]. split; [reflexivity|]. left.
    repeat split.
Qed.

(** X17.  The error tells the cause.  Whatever [loadDocumentsJSON]
    throws is one of four errors or a TypeError: the file could not be
    read, or its content is blank, or it does not parse, or the parsed
    value is falsy or not of type object; a TypeError comes only after
    all these checks, from a configuration with a non-empty array of
    endpoints. *)
Theorem loadDocumentsJSON_error_causes env lg e :
  loadDocumentsJSON buildGlobalPartitionMap env = (lg, Thrown e) ->
  (e = Error "Execution blocked: file doesn't exist"
   /\ Env.fileContent env = None)
  \/ (e = Error "Execution blocked: file contents empty."
      /\ exists rawContent,
           Env.fileContent env = Some rawContent
           /\ String.length (JSString.trim rawContent) = 0)
  \/ (e = Error "Invalid JSON format in configuration"
      /\ exists rawContent,
           Env.fileContent env = Some rawContent
           /\ String.length (JSString.trim rawContent) <> 0
           /\ JSON_parse rawContent = None)
  \/ (e = Error "Invalid JSON structure: root must be an object"
      /\ exists rawContent jsonContent,
           Env.fileContent env = Some rawContent
           /\ JSON_parse rawContent = Some jsonContent
           /\ (truthy jsonContent = false
               \/ isTObject (typeof jsonContent) = false))
  \/ (e = TypeError
      /\ exists rawContent jsonContent,
           Env.fileContent env = Some rawContent
           /\ JSON_parse rawContent = Some jsonContent
           /\ hasValidEndpoints jsonContent = true).
Proof.
  intros Hrun.
  destruct (loadDocumentsJSON_cases env)
    as [(Hfile & Heq) | [(raw & Hfile & Hblank & Heq)
       | [(raw & Hfile & Hnb & Hparse & Heq)
       | [(raw & json & Hfile & Hnb & Hparse & Hroot & Heq)
       | [(raw & json & _ & _ & _ & _ & _ & _ & Heq)
       | (raw & json & Hfile & Hnb & Hparse & Hvalid & Heq)]]]]];
    rewrite Heq in Hrun; try discriminate.
  - injection Hrun as _ <-. left. split; [reflexivity | exact Hfile].
  - injection Hrun as _ <-. right. left. split; [reflexivity|]. eauto.
  - injection Hrun as _ <-. right. right. left. split; [reflexivity|]. eauto.
  - injection Hrun as _ <-. right. right. right. left.
    split; [reflexivity|]. eauto.
  - right. right. right. right.
    rewrite (loadInstallation_thrown buildGlobalPartitionMap env json lg e Hvalid
               Hrun).
    split; [reflexivity|]. eauto.
Qed.

(** X18.  A [null] or [undefined] entry in a non-empty array of
    endpoints is always fatal: whatever the areas, [loadDocumentsJSON]
    throws a TypeError and returns no document, not even the fallback. *)
Theorem loadDocumentsJSON_nullish_endpoint env rawContent jsonContent ref
    endpoints ep :
  Env.fileContent env = Some rawContent ->
  String.length (JSString.trim rawContent) <> 0 ->
  JSON_parse rawContent = Some jsonContent ->
  getProp jsonContent "endpoints" = JArray ref endpoints ->
  ep ∈ endpoints -> nullish ep = true ->
  outcome (loadDocumentsJSON buildGlobalPartitionMap env) = Thrown TypeError.
Proof.
  intros Hfile Hnb Hparse Hendpoints Hin Hnull.
  assert (Hvalid : hasValidEndpoints jsonContent = true).
  { unfold hasValidEndpoints. rewrite Hendpoints. simpl.
    destruct endpoints; [inversion Hin | reflexivity]. }
  destruct (hasValidEndpoints_object jsonContent Hvalid) as (Hnn & Ht & Ho).
  rewrite (loadDocumentsJSON_parsed buildGlobalPartitionMap env rawContent
             jsonContent Hfile Hnb Hparse).
  rewrite Ht, Ho, Hvalid. cbn [negb orb].
  destruct (loadInstallation_nullish_endpoint buildGlobalPartitionMap env
              jsonContent Hvalid) as [lg ->];
    [|reflexivity].
  rewrite Hendpoints. cbn [arrayItems].
  apply existsb_exists. exists ep. split; [apply list_elem_of_In, Hin | exact Hnull].
Qed.

(** X19.  Without a non-empty array of areas neither
    [buildAreaPartitionMaps] nor [buildEndpointAreaRelations] is called:
    none of their lines is on the console.  If no endpoint is [null] or
    [undefined], and if [areas?.length || 0] and the keys of the global
    partition map convert to strings, [loadDocumentsJSON] returns the
    summary, and the counts of its statistics are those of the
    endpoints; the endpoints need not be records.  If [areas?.length || 0]
    does not convert to a string, the first line of the load throws a
    TypeError before anything is printed. *)
Theorem loadDocumentsJSON_without_areas env rawContent jsonContent ref endpoints :
  Env.fileContent env = Some rawContent ->
  String.length (JSString.trim rawContent) <> 0 ->
  JSON_parse rawContent = Some jsonContent ->
  getProp jsonContent "endpoints" = JArray ref endpoints -> endpoints <> [] ->
  hasValidAreas jsonContent = false ->
  (Forall (fun ep => nullish ep = false) endpoints ->
   printable (lengthOrZero (getProp jsonContent "areas")) = true ->
   forallb printable (JSMap.keys (buildGlobalPartitionMap jsonContent)) = true ->
   exists lg statistics,
     loadDocumentsJSON buildGlobalPartitionMap env
     = (lg, Returned (summaryOf buildGlobalPartitionMap env jsonContent statistics))
     /\ Statistics.sensorCount statistics = length (List.filter isSensor endpoints)
     /\ Statistics.actuatorCount statistics
        = length (List.filter isActuator endpoints)
     /\ Statistics.controllerCount statistics
        = length (List.filter isController endpoints)
     /\ Statistics.totalPartitions statistics
        = JSMap.size (buildGlobalPartitionMap jsonContent)
     /\ ((LOG, MBuildingRelations) ∉ lg)
     /\ ((WARN, MNoAreas) ∉ lg)
     /\ (forall n, (LOG, MAreaMapsCreated n) ∉ lg))
  /\ (printable (lengthOrZero (getProp jsonContent "areas")) = false ->
      loadDocumentsJSON buildGlobalPartitionMap env = ([], Thrown TypeError)).
Proof.
  intros Hfile Hnb Hparse Hendpoints Hne Hareas.
  assert (Hvalid : hasValidEndpoints jsonContent = true).
  { unfold hasValidEndpoints. rewrite Hendpoints. simpl.
    destruct endpoints; [congruence | reflexivity]. }
  destruct (hasValidEndpoints_object jsonContent Hvalid) as (Hnn & Ht & Ho).
  rewrite (loadDocumentsJSON_parsed buildGlobalPartitionMap env rawContent
             jsonContent Hfile Hnb Hparse).
  rewrite Ht, Ho, Hvalid. cbn [negb orb].
  destruct (loadInstallation_steps buildGlobalPartitionMap env jsonContent Hvalid)
    as (lg1 & maps & Hmaps & _ & ->).
  rewrite Hareas in Hmaps |- *. injection Hmaps as <- <-.
  split.
  - intros Hall Hlen Hkeys. rewrite Hlen, Hkeys, Hendpoints. cbn [arrayItems].
    apply existsb_nullish in Hall. rewrite Hall. cbn.
    eexists _, _. split; [reflexivity|].
    unfold statisticsOf. rewrite Hendpoints. cbn [arrayItems].
    repeat split.
    + intros Hin. apply list_elem_of_In in Hin. simpl in Hin.
      destruct Hin as [Hin|[Hin|[]]]; discriminate.
    + intros Hin. apply list_elem_of_In in Hin. simpl in Hin.
      destruct Hin as [Hin|[Hin|[]]]; discriminate.
    + intros n Hin. apply list_elem_of_In in Hin. simpl in Hin.
      destruct Hin as [Hin|[Hin|[]]]; discriminate.
  - intros ->. reflexivity.
Qed.

(** X20.  The summary always carries an installation name: the [name]
    of the metadata of the configuration when that is truthy, and
    ["installation-config"] otherwise, also when the configuration has
    no metadata at all; [name] itself is copied as it is, and
    [hasAreaInfo] tells whether [areas] is a non-empty array. *)
Theorem loadDocumentsJSON_installationName env rawContent jsonContent lg result
    document :
  Env.fileContent env = Some rawContent ->
  JSON_parse rawContent = Some jsonContent ->
  loadDocumentsJSON buildGlobalPartitionMap env = (lg, Returned result) ->
  document ∈ LoadDocumentResult.documents result ->
  EndpointMetadata.chunkType (ExtendDocument.metadata document) = summary ->
  EndpointMetadata.name (ExtendDocument.metadata document)
  = getPropOpt (getProp jsonContent "metadata") "name"
  /\ truthy (EndpointMetadata.installationName (ExtendDocument.metadata document))
     = true
  /\ (truthy (getPropOpt (getProp jsonContent "metadata") "name") = true ->
      EndpointMetadata.installationName (ExtendDocument.metadata document)
      = getPropOpt (getProp jsonContent "metadata") "name")
  /\ (truthy (getPropOpt (getProp jsonContent "metadata") "name") = false ->
      EndpointMetadata.installationName (ExtendDocument.metadata document)
      = JString "installation-config")
  /\ EndpointMetadata.hasAreaInfo (ExtendDocument.metadata document)
     = Some (hasValidAreas jsonContent).
Proof.
  intros Hfile Hparse Hrun Hin Hsummary.
  destruct (loadDocumentsJSON_cases env)
    as [(_ & Heq) | [(raw & _ & _ & Heq) | [(raw & _ & _ & _ & Heq)
       | [(raw & json & _ & _ & _ & _ & Heq)
       | [(raw & json & _ & _ & _ & _ & _ & _ & Heq)
       | (raw & json & Hfile' & _ & Hparse' & Hvalid & Heq)]]]]];
    rewrite Heq in Hrun; try discriminate.
  - injection Hrun as _ <-. apply list_elem_of_singleton in Hin. subst document.
    discriminate Hsummary.
  - rewrite Hfile in Hfile'. injection Hfile' as <-.
    rewrite Hparse in Hparse'. injection Hparse' as <-.
    rewrite (loadInstallation_inv _ _ _ _ _ Hvalid Hrun) in Hin.
    apply list_elem_of_singleton in Hin. subst document.
    cbn [ExtendDocument.metadata summaryMetadata EndpointMetadata.name
           EndpointMetadata.installationName EndpointMetadata.hasAreaInfo].
    split; [reflexivity|]. split; [apply orElse_truthy; reflexivity|].
    unfold orElse. split; [intros ->; reflexivity|].
    split; [intros ->; reflexivity | reflexivity].
Qed.

(** X21.  The identifier of the fallback document is ["fallback-"]
    followed by the characters 2 to 8 of the random text, in their
    order: seven characters when the text has at least nine, fewer
    otherwise, and none at all when the text has at most two. *)
Theorem getFallbackDocument_uuid env errorMessage :
  exists document,
    getFallbackDocument env errorMessage
    = LoadDocumentResult.mk [document] JSMap.empty
    /\ EndpointMetadata.uuid (ExtendDocument.metadata document)
       = Some ("fallback-" +:+ String.substring 2 7 (Env.random36 env))
    /\ (forall n,
          n < 7 ->
          String.get n (String.substring 2 7 (Env.random36 env))
          = String.get (n + 2) (Env.random36 env))
    /\ (forall n,
          7 <= n -> String.get n (String.substring 2 7 (Env.random36 env)) = None)
    /\ String.length (String.substring 2 7 (Env.random36 env))
       = Nat.min 7 (String.length (Env.random36 env) - 2)
    /\ String.length ("fallback-" +:+ String.substring 2 7 (Env.random36 env))
       <= 16
    /\ ExtendDocument.pageContent document
       = JSON_stringify
           (FallbackPayload "Failed to load document" errorMessage "empty_system").
Proof.
  eexists. split; [reflexivity|]. split; [reflexivity|].
  split; [intros n Hn; apply substring_correct1; exact Hn|].
  split; [intros n Hn; apply substring_correct2; exact Hn|].
  assert (Hlen : String.length (String.substring 2 7 (Env.random36 env))
                 = Nat.min 7 (String.length (Env.random36 env) - 2))
    by apply String_substring_length.
  split; [exact Hlen|]. split; [|reflexivity].
  change ("fallback-" +:+ String.substring 2 7 (Env.random36 env))
    with (String "f" (String "a" (String "l" (String "l" (String "b"
           (String "a" (String "c" (String "k" (String "-"
              (String.substring 2 7 (Env.random36 env))))))))))).
  cbn [String.length]. lia.
Qed.

End LoaderMore.

Lemma loadDocumentsJSON_returns_one_document_witness :
  exists lg result document,
    @loadDocumentsJSON Sample.runtime buildGlobalPartitionMap_spec
      (Sample.env (Some Sample.exampleText)) = (lg, Returned result)
    /\ LoadDocumentResult.documents result = [document]
    /\ EndpointMetadata.timestamp (ExtendDocument.metadata document)
       = "2025-11-03T09:30:00.000Z".
Proof.
  eexists _, _.
  destruct (@loadDocumentsJSON_returns_one_document Sample.runtime
              buildGlobalPartitionMap_spec (Sample.env (Some Sample.exampleText))
              _ _ eq_refl) as (document & Hdocs & Htime & _).
  exists document. split; [reflexivity|]. split; [exact Hdocs | exact Htime].
Defined.

Lemma loadDocumentsJSON_error_causes_witness :
  @loadDocumentsJSON Sample.runtime buildGlobalPartitionMap_spec
    (Sample.env (Some Sample.malformedText))
  = ([(ERROR, MParsingFailed)],
     Thrown (Error "Invalid JSON format in configuration"))
  /\ @JSON_parse Sample.runtime Sample.malformedText = None.
Proof.
  split; [reflexivity|].
  destruct (@loadDocumentsJSON_error_causes Sample.runtime
              buildGlobalPartitionMap_spec
              (Sample.env (Some Sample.malformedText)) _ _ eq_refl)
    as [[He _] | [[He _] | [(_ & raw & Hfile & _ & Hparse)
       | [[He _] | [He _]]]]]; try discriminate He.
  injection Hfile as <-. exact Hparse.
Defined.

Lemma loadDocumentsJSON_nullish_endpoint_witness :
  @JSON_parse Cases.runtime Cases.noAreasNullText = Some Cases.noAreasNull
  /\ outcome (@loadDocumentsJSON Cases.runtime buildGlobalPartitionMap_spec
                (Sample.env (Some Cases.noAreasNullText)))
     = Thrown TypeError.
Proof.
  split; [reflexivity|].
  apply (@loadDocumentsJSON_nullish_endpoint Cases.runtime
           buildGlobalPartitionMap_spec (Sample.env (Some Cases.noAreasNullText))
           Cases.noAreasNullText Cases.noAreasNull 51 [Sample.sensor; JNull] JNull).
  - reflexivity.
  - vm_compute. discriminate.
  - reflexivity.
  - reflexivity.
  - right. left.
  - reflexivity.
Defined.

Lemma loadDocumentsJSON_without_areas_witness :
  hasValidAreas Cases.noAreas = false
  /\ (exists lg statistics,
        @loadDocumentsJSON Cases.runtime buildGlobalPartitionMap_spec
          (Sample.env (Some Cases.noAreasText))
        = (lg, Returned (@summaryOf Cases.runtime buildGlobalPartitionMap_spec
                           (Sample.env (Some Cases.noAreasText)) Cases.noAreas
                           statistics))
        /\ Statistics.sensorCount statistics = 1
        /\ Statistics.actuatorCount statistics = 1
        /\ ((LOG, MBuildingRelations) ∉ lg))
  /\ hasValidAreas Cases.oddAreas = false
  /\ @loadDocumentsJSON Cases.runtime buildGlobalPartitionMap_spec
       (Sample.env (Some Cases.oddAreasText))
     = ([], Thrown TypeError).
Proof.
  split; [reflexivity|]. split; [|split; [reflexivity|]].
  - destruct (@loadDocumentsJSON_without_areas Cases.runtime
                buildGlobalPartitionMap_spec (Sample.env (Some Cases.noAreasText))
                Cases.noAreasText Cases.noAreas 41 [Sample.sensor; Sample.lamp])
      as [Hreturns _].
    + reflexivity.
    + vm_compute. discriminate.
    + reflexivity.
    + reflexivity.
    + discriminate.
    + reflexivity.
    + destruct Hreturns as (lg & statistics & Hrun & Hs & Ha & _ & _ & Hlog & _).
      * repeat constructor.
      * reflexivity.
      * reflexivity.
      * exists lg, statistics. split; [exact Hrun|]. split; [exact Hs|].
        split; [exact Ha | exact Hlog].
  - destruct (@loadDocumentsJSON_without_areas Cases.runtime
                buildGlobalPartitionMap_spec (Sample.env (Some Cases.oddAreasText))
                Cases.oddAreasText Cases.oddAreas 91 [JNumber (Number.of_nat 1)])
      as [_ Hthrows].
    + reflexivity.
    + vm_compute. discriminate.
    + reflexivity.
    + reflexivity.
    + discriminate.
    + reflexivity.
    + apply Hthrows. reflexivity.
Defined.

Lemma loadDocumentsJSON_installationName_witness :
  exists lg result document,
    @loadDocumentsJSON Cases.runtime buildGlobalPartitionMap_spec
      (Sample.env (Some Cases.noAreasText)) = (lg, Returned result)
    /\ document ∈ LoadDocumentResult.documents result
    /\ EndpointMetadata.installationName (ExtendDocument.metadata document)
       = JString "Home"
    /\ EndpointMetadata.hasAreaInfo (ExtendDocument.metadata document)
       = Some false.
Proof.
  eexists _, _, _. split; [reflexivity|]. split; [left|].
  destruct (@loadDocumentsJSON_installationName Cases.runtime
              buildGlobalPartitionMap_spec (Sample.env (Some Cases.noAreasText))
              Cases.noAreasText Cases.noAreas _ _ _
              eq_refl eq_refl eq_refl ltac:(left) eq_refl)
    as (_ & _ & Hname & _ & Harea).
  split; [apply Hname; reflexivity | exact Harea].
Defined.

(** ** Binary64 quotients against a threshold *)

Module QuotientFacts.

Import Number.
#[local] Open Scope Z_scope.

Lemma SFleb_finite a ea b eb :
  SFleb (S754_finite false a ea) (S754_finite false b eb) = true
  <-> ea < eb \/ (ea = eb /\ Z.pos a <= Z.pos b).
Proof.
  unfold SFleb, SFcompare.
  change (PosDef.Pos.compare_cont Eq) with Pos.compare.
  destruct (Z.compare_spec ea eb) as [->|Hlt|Hgt].
  - destruct (Pos.compare_spec a b) as [->|Hab|Hab]; split; intros Hc;
      try reflexivity; try discriminate; try (right; split; lia).
    destruct Hc as [Hc|[_ Hc]]; lia.
  - split; [intros _; left; exact Hlt | reflexivity].
  - split; [discriminate | intros [Hc|[Hc _]]; lia].
Qed.

Lemma round_nearest_even_up m l :
  round_nearest_even m l <> m -> l <> loc_Exact.
Proof. intros Hne ->. apply Hne. reflexivity. Qed.

(** Rounding a mantissa of 53 digits, with the mantissa that comes
    out *)
Lemma round_stage_cases m e l :
  Z.pos two52 <= m < Z.pos two53 -> -1074 <= e ->
  (Z.pos two52 <= round_nearest_even m l < Z.pos two53
   /\ shr_fexp prec emax (round_nearest_even m l) e loc_Exact
      = (Build_shr_record (round_nearest_even m l) false false, e))
  \/ (round_nearest_even m l = Z.pos two53
      /\ shr_fexp prec emax (round_nearest_even m l) e loc_Exact
         = (Build_shr_record (Z.pos two52) false false, e + 1)).
Proof.
  intros Hm He.
  pose proof (NumberFacts.round_nearest_even_range m l) as Hr.
  destruct (Z_lt_le_dec (round_nearest_even m l) (Z.pos two53)) as [Hlt|Hge].
  - left. split; [lia|].
    destruct (round_nearest_even m l) as [|p|p]; try lia.
    rewrite NumberFacts.shr_fexp_53; auto.
    apply NumberFacts.canonical53_digits. unfold is_canonical53. lia.
  - right. assert (Hr53 : round_nearest_even m l = Z.pos two53) by lia.
    split; [exact Hr53|]. rewrite Hr53.
    rewrite NumberFacts.shr_fexp_54; auto; lia.
Qed.

Lemma binary_round_aux_53_cases q e l :
  is_canonical53 q -> -1074 <= e <= 970 ->
  (exists m,
     binary_round_aux prec emax false (Z.pos q) e l = S754_finite false m e
     /\ Z.pos m = round_nearest_even (Z.pos q) l)
  \/ (binary_round_aux prec emax false (Z.pos q) e l
      = S754_finite false two52 (e + 1)
      /\ round_nearest_even (Z.pos q) l = Z.pos two53).
Proof.
  intros Hq He. unfold binary_round_aux.
  rewrite NumberFacts.shr_fexp_53;
    [| apply NumberFacts.canonical53_digits; exact Hq | lia].
  rewrite NumberFacts.loc_of_shr_record_of_loc, NumberFacts.shr_m_of_loc.
  destruct (round_stage_cases (Z.pos q) e l Hq ltac:(lia)) as [[Hr Heq]|[Hr Heq]];
    rewrite Heq; cbn [shr_m].
  - left. destruct (round_nearest_even (Z.pos q) l) as [|p|p] eqn:E; try lia.
    replace (e <=? emax - prec) with true
      by (symmetry; apply Z.leb_le; unfold emax, prec; lia).
    exists p. split; reflexivity.
  - right. replace (e + 1 <=? emax - prec) with true
      by (symmetry; apply Z.leb_le; unfold emax, prec; lia).
    split; [reflexivity | exact Hr].
Qed.

(** Rounding a mantissa of 54 digits: one digit is shifted out first. *)
Lemma shifted_location q l :
  loc_of_shr_record (shr_1 (shr_record_of_loc (Z.pos q) l)) <> loc_Exact ->
  Z.odd (Z.pos q) = true \/ l <> loc_Exact.
Proof.
  destruct q as [p|p|]; [left; reflexivity | | left; reflexivity].
  destruct l as [|[]]; cbn; intros Hne; try (right; discriminate).
  contradiction.
Qed.

Lemma binary_round_aux_54_cases q e l :
  Z.pos two53 <= Z.pos q < 2 * Z.pos two53 -> -1075 <= e <= 969 ->
  (exists m,
     binary_round_aux prec emax false (Z.pos q) e l = S754_finite false m (e + 1)
     /\ Z.pos m
        = round_nearest_even (Z.div2 (Z.pos q))
            (loc_of_shr_record (shr_1 (shr_record_of_loc (Z.pos q) l))))
  \/ (binary_round_aux prec emax false (Z.pos q) e l
      = S754_finite false two52 (e + 2)
      /\ round_nearest_even (Z.div2 (Z.pos q))
           (loc_of_shr_record (shr_1 (shr_record_of_loc (Z.pos q) l)))
         = Z.pos two53).
Proof.
  intros Hq He. unfold binary_round_aux.
  rewrite NumberFacts.shr_fexp_54;
    [| apply NumberFacts.digits2_pos_unique;
       change (2 ^ (54 - 1)) with (Z.pos two53);
       change (2 ^ 54) with (2 * Z.pos two53); exact Hq
     | lia].
  set (mrs := shr_1 (shr_record_of_loc (Z.pos q) l)).
  assert (Hdiv : shr_m mrs = Z.div2 (Z.pos q)).
  { unfold mrs. destruct l as [|[]]; cbn [shr_record_of_loc];
      apply NumberFacts.shr_1_m; lia. }
  assert (Hm : Z.pos two52 <= shr_m mrs < Z.pos two53).
  { rewrite Hdiv, Z.div2_div. unfold two52, two53 in *.
    split; [apply Z.div_le_lower_bound | apply Z.div_lt_upper_bound]; lia. }
  destruct (round_stage_cases (shr_m mrs) (e + 1) (loc_of_shr_record mrs) Hm
              ltac:(lia)) as [[Hr Heq]|[Hr Heq]]; rewrite Heq; cbn [shr_m].
  - left. rewrite <- Hdiv.
    destruct (round_nearest_even (shr_m mrs) (loc_of_shr_record mrs))
      as [|p|p] eqn:E; try lia.
    replace (e + 1 <=? emax - prec) with true
      by (symmetry; apply Z.leb_le; unfold emax, prec; lia).
    exists p. split; reflexivity.
  - right. rewrite <- Hdiv.
    replace (e + 1 + 1 <=? emax - prec) with true
      by (symmetry; apply Z.leb_le; unfold emax, prec; lia).
    replace (e + 1 + 1) with (e + 2) by lia.
    split; [reflexivity | exact Hr].
Qed.

Lemma new_location_inexact n r :
  new_location n r <> loc_Exact -> r <> 0.
Proof. intros Hne ->. apply Hne, NumberFacts.new_location_exact. Qed.

Lemma pow2_ge_2 d : 1 <= d -> 2 <= 2 ^ d.
Proof.
  intros Hd. change 2 with (2 ^ 1) at 1. apply Z.pow_le_mono_r; lia.
Qed.

Lemma pow2_split a b : 0 <= b <= a -> 2 ^ a = 2 ^ (a - b) * 2 ^ b.
Proof.
  intros Hab. rewrite <- Z.pow_add_r by lia. f_equal. lia.
Qed.

(** The hypothesis of the two bounds, with the powers of two
    cancelled *)
Lemma scaled_le_cases u v a b :
  0 <= a -> 0 <= b -> u * 2 ^ a <= v * 2 ^ b ->
  (a < b /\ u <= v * 2 ^ (b - a))
  \/ (a = b /\ u <= v)
  \/ (b < a /\ u * 2 ^ (a - b) <= v).
Proof.
  intros Ha Hb Hle.
  destruct (Z.lt_trichotomy a b) as [Hlt|[->|Hgt]].
  - left. split; [exact Hlt|].
    rewrite (pow2_split b a) in Hle by lia.
    assert (Hp : 0 < 2 ^ a) by (apply Z.pow_pos_nonneg; lia).
    apply Z.mul_le_mono_pos_r with (p := 2 ^ a); [exact Hp|].
    rewrite <- Z.mul_assoc. exact Hle.
  - right. left. split; [reflexivity|].
    assert (Hp : 0 < 2 ^ b) by (apply Z.pow_pos_nonneg; lia).
    apply Z.mul_le_mono_pos_r with (p := 2 ^ b); assumption.
  - right. right. split; [exact Hgt|].
    rewrite (pow2_split a b) in Hle by lia.
    assert (Hp : 0 < 2 ^ b) by (apply Z.pow_pos_nonneg; lia).
    apply Z.mul_le_mono_pos_r with (p := 2 ^ b); [exact Hp|].
    rewrite <- Z.mul_assoc. exact Hle.
Qed.

Lemma quotient_ge u y X q r :
  X = y * q + r -> 0 <= r < y -> u * y <= X -> u <= q.
Proof.
  intros -> Hr Hle. destruct (Z_le_gt_dec u q) as [|Hgt]; [assumption|].
  exfalso.
  assert (y * (q + 1) <= y * u) by (apply Z.mul_le_mono_nonneg_l; lia).
  lia.
Qed.

Lemma quotient_le u y X q r :
  X = y * q + r -> 0 <= r < y -> X <= u * y -> q <= u /\ (r <> 0 -> q < u).
Proof.
  intros -> Hr Hle.
  assert (Hqu : q <= u).
  { destruct (Z_le_gt_dec q u) as [|Hgt]; [assumption|]. exfalso.
    assert (y * (u + 1) <= y * q) by (apply Z.mul_le_mono_nonneg_l; lia).
    lia. }
  split; [exact Hqu|]. intros Hnz.
  destruct (Z.eq_dec q u) as [->|]; [|lia]. lia.
Qed.

Lemma quotient_below y X q r c :
  X = y * q + r -> 0 <= r < y -> q < c -> X < c * y.
Proof.
  intros -> Hr Hlt.
  assert (y * (q + 1) <= y * c) by (apply Z.mul_le_mono_nonneg_l; lia).
  lia.
Qed.

Lemma product_ge u y c d w :
  0 < y -> d <= u -> w <= c -> 0 <= d -> 0 <= w -> d * w * y <= u * y * c.
Proof.
  intros Hy Hu Hc Hd Hw.
  assert (H1 : d * w <= u * c) by (apply Z.mul_le_mono_nonneg; lia).
  assert (H2 : d * w * y <= u * c * y) by (apply Z.mul_le_mono_nonneg_r; lia).
  lia.
Qed.

(** A Number that is not above the exact quotient is not above the
    rounded one. *)
Lemma div_lower mx ex my ey mz ez a b :
  is_canonical53 mx -> is_canonical53 my -> is_canonical53 mz ->
  -1021 <= ex - ey <= 1022 ->
  0 <= a -> 0 <= b -> a - b = ez - (ex - ey - 53) ->
  Z.pos mz * Z.pos my * 2 ^ a <= Z.pos mx * 2 ^ 53 * 2 ^ b ->
  SFleb (S754_finite false mz ez)
    (div (S754_finite false mx ex) (S754_finite false my ey)) = true.
Proof.
  intros Hx Hy Hz He Ha Hb Hab Hle.
  rewrite NumberFacts.div_finite by (auto; lia).
  pose proof (NumberFacts.quotient_range mx my Hx Hy) as Hq.
  pose proof (Z.div_mod (Z.pos mx * 2 ^ 53) (Z.pos my) ltac:(lia)) as Hdm.
  pose proof (Z.mod_pos_bound (Z.pos mx * 2 ^ 53) (Z.pos my) ltac:(lia)) as Hr.
  apply scaled_le_cases in Hle; [|assumption|assumption].
  set (X := Z.pos mx * 2 ^ 53) in *.
  set (q := X / Z.pos my) in *. set (r := X mod Z.pos my) in *.
  set (e := ex - ey - 53) in *.
  set (l := new_location (Z.pos my) r).
  assert (Hebound : -1074 <= e <= 969) by (unfold e; lia).
  clearbody l e X q r. clear Hx He.
  unfold is_canonical53, two52, two53 in *.
  assert (Hy0 : 0 < Z.pos my) by lia.
  destruct (Z_lt_le_dec q 9007199254740992) as [Hlt|Hge].
  - pose proof (quotient_below _ _ _ _ 9007199254740992 Hdm Hr Hlt) as HX.
    destruct q as [|pq|pq]; try lia.
    destruct (binary_round_aux_53_cases pq e l) as [(m & -> & Hm)|[-> Hov]];
      [unfold is_canonical53, two52, two53; lia | lia | |];
      apply SFleb_finite.
    + pose proof (NumberFacts.round_nearest_even_range (Z.pos pq) l) as Hrne.
      destruct Hle as [[Hlt' _]|[[-> Hle]|[Hgt Hle]]].
      * left. lia.
      * right. split; [lia|].
        pose proof (quotient_ge _ _ _ _ _ Hdm Hr Hle). lia.
      * exfalso. pose proof (pow2_ge_2 (a - b) ltac:(lia)) as Hc.
        pose proof (product_ge (Z.pos mz) (Z.pos my) (2 ^ (a - b))
                      4503599627370496 2 Hy0 ltac:(lia) Hc ltac:(lia) ltac:(lia)).
        lia.
    + destruct Hle as [[Hlt' _]|[[-> Hle]|[Hgt Hle]]].
      * left. lia.
      * left. lia.
      * exfalso. pose proof (pow2_ge_2 (a - b) ltac:(lia)) as Hc.
        pose proof (product_ge (Z.pos mz) (Z.pos my) (2 ^ (a - b))
                      4503599627370496 2 Hy0 ltac:(lia) Hc ltac:(lia) ltac:(lia)).
        lia.
  - assert (HX : X < 18014398509481984 * Z.pos my)
      by (apply (quotient_below _ _ _ _ _ Hdm Hr); lia).
    destruct q as [|pq|pq]; try lia.
    destruct (binary_round_aux_54_cases pq e l) as [(m & -> & Hm)|[-> Hov]];
      [unfold two53; lia | lia | |];
      apply SFleb_finite.
    + pose proof (NumberFacts.round_nearest_even_range (Z.div2 (Z.pos pq))
                    (loc_of_shr_record (shr_1 (shr_record_of_loc (Z.pos pq) l))))
        as Hrne.
      rewrite Z.div2_div in Hm, Hrne.
      destruct Hle as [[Hlt' _]|[[-> Hle]|[Hgt Hle]]].
      * left. lia.
      * left. lia.
      * destruct (Z.eq_dec (a - b) 1) as [H1|H1].
        -- right. split; [lia|]. rewrite H1 in Hle. change (2 ^ 1) with 2 in Hle.
           assert (Hq2 : Z.pos mz * 2 <= Z.pos pq)
             by (apply (quotient_ge _ _ _ _ _ Hdm Hr); lia).
           assert (Hhalf : Z.pos mz <= Z.pos pq / 2)
             by (apply Z.div_le_lower_bound; lia).
           lia.
        -- exfalso.
           assert (Hc : 2 ^ 2 <= 2 ^ (a - b)) by (apply Z.pow_le_mono_r; lia).
           change (2 ^ 2) with 4 in Hc.
           pose proof (product_ge (Z.pos mz) (Z.pos my) (2 ^ (a - b))
                         4503599627370496 4 Hy0 ltac:(lia) Hc ltac:(lia)
                         ltac:(lia)).
           lia.
    + destruct Hle as [[Hlt' _]|[[-> Hle]|[Hgt Hle]]].
      * left. lia.
      * left. lia.
      * destruct (Z.eq_dec (a - b) 1) as [H1|H1]; [left; lia|].
        exfalso.
        assert (Hc : 2 ^ 2 <= 2 ^ (a - b)) by (apply Z.pow_le_mono_r; lia).
        change (2 ^ 2) with 4 in Hc.
        pose proof (product_ge (Z.pos mz) (Z.pos my) (2 ^ (a - b))
                      4503599627370496 4 Hy0 ltac:(lia) Hc ltac:(lia)
                      ltac:(lia)).
        lia.
Qed.

Lemma quotient_above y X q r c :
  X = y * q + r -> 0 <= r < y -> c <= q -> c * y <= X.
Proof.
  intros -> Hr Hle.
  assert (y * c <= y * q) by (apply Z.mul_le_mono_nonneg_l; lia).
  lia.
Qed.

Lemma half_up q u :
  0 <= q -> q <= 2 * u -> (Z.odd q = true \/ q < 2 * u) -> q / 2 + 1 <= u.
Proof.
  intros Hq Hle Hstrict.
  pose proof (Z.div_mod q 2 ltac:(lia)) as Hdm.
  pose proof (Zmod_odd q) as Hodd.
  destruct Hstrict as [Ho|Hlt].
  - rewrite Ho in Hodd. lia.
  - destruct (Z.odd q); lia.
Qed.

(** A Number that is not below the exact quotient is not below the
    rounded one. *)
Lemma div_upper mx ex my ey mz ez a b :
  is_canonical53 mx -> is_canonical53 my -> is_canonical53 mz ->
  -1021 <= ex - ey <= 1022 ->
  0 <= a -> 0 <= b -> a - b = ez - (ex - ey - 53) ->
  Z.pos mx * 2 ^ 53 * 2 ^ b <= Z.pos mz * Z.pos my * 2 ^ a ->
  SFleb (div (S754_finite false mx ex) (S754_finite false my ey))
    (S754_finite false mz ez) = true.
Proof.
  intros Hx Hy Hz He Ha Hb Hab Hle.
  rewrite NumberFacts.div_finite by (auto; lia).
  pose proof (NumberFacts.quotient_range mx my Hx Hy) as Hq.
  pose proof (Z.div_mod (Z.pos mx * 2 ^ 53) (Z.pos my) ltac:(lia)) as Hdm.
  pose proof (Z.mod_pos_bound (Z.pos mx * 2 ^ 53) (Z.pos my) ltac:(lia)) as Hr.
  apply scaled_le_cases in Hle; [|assumption|assumption].
  set (X := Z.pos mx * 2 ^ 53) in *.
  set (q := X / Z.pos my) in *. set (r := X mod Z.pos my) in *.
  set (e := ex - ey - 53) in *.
  pose proof (new_location_inexact (Z.pos my) r) as Hloc.
  set (l := new_location (Z.pos my) r) in *.
  assert (Hebound : -1074 <= e <= 969) by (unfold e; lia).
  clearbody l e X q r. clear Hx He.
  unfold is_canonical53, two52, two53 in *.
  assert (Hy0 : 0 < Z.pos my) by lia.
  assert (Hzy : Z.pos mz * Z.pos my < 9007199254740992 * Z.pos my)
    by (apply Z.mul_lt_mono_pos_r; lia).
  destruct (Z_lt_le_dec q 9007199254740992) as [Hlt|Hge].
  - pose proof (quotient_above _ _ _ _ 4503599627370496 Hdm Hr ltac:(lia)) as HX.
    destruct q as [|pq|pq]; try lia.
    pose proof (NumberFacts.round_nearest_even_range (Z.pos pq) l) as Hrne.
    pose proof (round_nearest_even_up (Z.pos pq) l) as Hup.
    destruct (binary_round_aux_53_cases pq e l) as [(m & -> & Hm)|[-> Hov]];
      [unfold is_canonical53, two52, two53; lia | lia | |];
      apply SFleb_finite; unfold two52, two53 in *.
    + destruct Hle as [[Hlt' _]|[[-> Hle]|[Hgt Hle]]].
      * left. lia.
      * right. split; [lia|].
        destruct (quotient_le _ _ _ _ _ Hdm Hr Hle) as [Hqu Hstrict].
        destruct (Z.eq_dec (round_nearest_even (Z.pos pq) l) (Z.pos pq))
          as [Hsame|Hdiff]; [lia|].
        specialize (Hstrict (Hloc (Hup Hdiff))). lia.
      * exfalso. pose proof (pow2_ge_2 (b - a) ltac:(lia)) as Hc.
        assert (X * 2 <= X * 2 ^ (b - a))
          by (apply Z.mul_le_mono_nonneg_l; lia).
        lia.
    + destruct Hle as [[Hlt' _]|[[-> Hle]|[Hgt Hle]]].
      * lia.
      * exfalso.
        destruct (quotient_le _ _ _ _ _ Hdm Hr Hle) as [Hqu Hstrict].
        assert (Hdiff : round_nearest_even (Z.pos pq) l <> Z.pos pq) by lia.
        specialize (Hstrict (Hloc (Hup Hdiff))). lia.
      * exfalso. pose proof (pow2_ge_2 (b - a) ltac:(lia)) as Hc.
        assert (X * 2 <= X * 2 ^ (b - a))
          by (apply Z.mul_le_mono_nonneg_l; lia).
        lia.
  - pose proof (quotient_above _ _ _ _ 9007199254740992 Hdm Hr Hge) as HX.
    destruct q as [|pq|pq]; try lia.
    pose proof (NumberFacts.round_nearest_even_range (Z.div2 (Z.pos pq))
                  (loc_of_shr_record (shr_1 (shr_record_of_loc (Z.pos pq) l))))
      as Hrne.
    pose proof (round_nearest_even_up (Z.div2 (Z.pos pq))
                  (loc_of_shr_record (shr_1 (shr_record_of_loc (Z.pos pq) l))))
      as Hup.
    pose proof (shifted_location pq l) as Hshift.
    assert (Hhalf : forall u,
               Z.pos pq <= 2 * u -> (r <> 0 -> Z.pos pq < 2 * u) ->
               round_nearest_even (Z.div2 (Z.pos pq))
                 (loc_of_shr_record (shr_1 (shr_record_of_loc (Z.pos pq) l)))
               <= u).
    { intros u Hqu Hstrict.
      destruct (Z.eq_dec
                  (round_nearest_even (Z.div2 (Z.pos pq))
                     (loc_of_shr_record (shr_1 (shr_record_of_loc (Z.pos pq) l))))
                  (Z.div2 (Z.pos pq))) as [Hsame|Hdiff].
      - rewrite Hsame, Z.div2_div.
        apply Z.div_le_upper_bound; lia.
      - destruct Hrne as [Hrne|Hrne]; [contradiction|].
        rewrite Hrne, Z.div2_div. apply half_up; [lia | exact Hqu |].
        destruct (Hshift (Hup Hdiff)) as [Hodd|Hl]; [left; exact Hodd|].
        right. apply Hstrict, Hloc, Hl. }
    destruct (binary_round_aux_54_cases pq e l) as [(m & -> & Hm)|[-> Hov]];
      [unfold two53; lia | lia | |];
      apply SFleb_finite; unfold two52, two53 in *.
    + destruct Hle as [[Hlt' Hle]|[[-> Hle]|[Hgt Hle]]].
      * destruct (Z.eq_dec (a - b) 1) as [H1|H1]; [|left; lia].
        right. split; [lia|]. rewrite H1 in Hle. change (2 ^ 1) with 2 in Hle.
        destruct (quotient_le (Z.pos mz * 2) _ _ _ _ Hdm Hr ltac:(lia))
          as [Hqu Hstrict].
        rewrite Hm. apply Hhalf; [lia|]. intros Hnz. specialize (Hstrict Hnz). lia.
      * exfalso. lia.
      * exfalso. pose proof (pow2_ge_2 (b - a) ltac:(lia)) as Hc.
        assert (X * 2 <= X * 2 ^ (b - a))
          by (apply Z.mul_le_mono_nonneg_l; lia).
        lia.
    + destruct Hle as [[Hlt' Hle]|[[-> Hle]|[Hgt Hle]]].
      * destruct (Z.eq_dec (a - b) 1) as [H1|H1]; [|lia].
        exfalso. rewrite H1 in Hle. change (2 ^ 1) with 2 in Hle.
        destruct (quotient_le (Z.pos mz * 2) _ _ _ _ Hdm Hr ltac:(lia))
          as [Hqu Hstrict].
        assert (Hbound : round_nearest_even (Z.div2 (Z.pos pq))
                           (loc_of_shr_record
                              (shr_1 (shr_record_of_loc (Z.pos pq) l)))
                         <= Z.pos mz).
        { apply Hhalf; [lia|]. intros Hnz. specialize (Hstrict Hnz). lia. }
        lia.
      * exfalso. lia.
      * exfalso. pose proof (pow2_ge_2 (b - a) ltac:(lia)) as Hc.
        assert (X * 2 <= X * 2 ^ (b - a))
          by (apply Z.mul_le_mono_nonneg_l; lia).
        lia.
Qed.

(** The two bounds for the quotient of two counters, against a normal
    Number [mt * 2^et] that is at most an integer *)
Lemma counter_exponents k n mk dk mn dn et :
  Z.pos mk = Z.of_nat k * 2 ^ (53 - dk) ->
  Z.pos mn = Z.of_nat n * 2 ^ (53 - dn) ->
  1 <= dk <= 53 -> 1 <= dn <= 53 -> et <= 0 ->
  let a := Z.max 0 (et - (dk - dn - 53)) in
  let b := Z.max 0 (- (et - (dk - dn - 53))) in
  0 <= a /\ 0 <= b /\ a - b = et - (dk - 53 - (dn - 53) - 53)
  /\ Z.pos mn * 2 ^ a = Z.of_nat n * (2 ^ (53 - dn) * 2 ^ a)
  /\ Z.pos mk * 2 ^ 53 * 2 ^ b = Z.of_nat k * 2 ^ (- et) * (2 ^ (53 - dn) * 2 ^ a)
  /\ 0 <= 2 ^ (53 - dn) * 2 ^ a.
Proof.
  intros Hk Hn Hdk Hdn Het a b.
  assert (Ha : 0 <= a) by (unfold a; lia).
  assert (Hb : 0 <= b) by (unfold b; lia).
  assert (Hab : a - b = et - (dk - dn - 53)) by (unfold a, b; lia).
  split; [exact Ha|]. split; [exact Hb|]. split; [lia|].
  split; [rewrite Hn; ring|]. split.
  - rewrite Hk.
    replace (Z.of_nat k * 2 ^ (53 - dk) * 2 ^ 53 * 2 ^ b)
      with (Z.of_nat k * (2 ^ (53 - dk) * 2 ^ 53 * 2 ^ b)) by ring.
    replace (Z.of_nat k * 2 ^ (- et) * (2 ^ (53 - dn) * 2 ^ a))
      with (Z.of_nat k * (2 ^ (- et) * 2 ^ (53 - dn) * 2 ^ a)) by ring.
    f_equal. rewrite <- !Z.pow_add_r by lia. f_equal. lia.
  - apply Z.mul_nonneg_nonneg; apply Z.pow_nonneg; lia.
Qed.

Lemma counters_digits k n dk dn :
  (k <= n)%nat ->
  2 ^ (dk - 1) <= Z.of_nat k < 2 ^ dk -> 2 ^ (dn - 1) <= Z.of_nat n < 2 ^ dn ->
  1 <= dk -> 1 <= dn -> dk <= dn.
Proof.
  intros Hkn Hk Hn Hdk Hdn.
  destruct (Z_lt_le_dec dn dk) as [Hlt|]; [|lia].
  assert (2 ^ dn <= 2 ^ (dk - 1)) by (apply Z.pow_le_mono_r; lia). lia.
Qed.

Lemma counters_ge k n mt et :
  (0 < k)%nat -> (k <= n)%nat -> Z.of_nat n < Z.pos two53 ->
  is_canonical53 mt -> et <= 0 ->
  Z.pos mt * Z.of_nat n <= Z.of_nat k * 2 ^ (- et) ->
  geb (div (of_nat k) (of_nat n)) (S754_finite false mt et) = true.
Proof.
  intros Hk Hkn Hb Hmt Het Hle.
  destruct (NumberFacts.of_nat_canonical n ltac:(lia) Hb)
    as (mn & dn & -> & Hdn & Hmn & Hvn & Hrn).
  destruct (NumberFacts.of_nat_canonical k Hk ltac:(lia))
    as (mk & dk & -> & Hdk & Hmk & Hvk & Hrk).
  pose proof (counters_digits k n dk dn Hkn Hrk Hrn ltac:(lia) ltac:(lia)) as Hdd.
  destruct (counter_exponents k n mk dk mn dn et Hvk Hvn Hdk Hdn ltac:(lia))
    as (Ha & Hb' & Hab & Hl & Hr & Hp).
  unfold geb.
  eapply (div_lower mk (dk - 53) mn (dn - 53) mt et _ _ Hmk Hmn Hmt
            ltac:(lia) Ha Hb' Hab).
  rewrite <- Z.mul_assoc, Hl, Hr, Z.mul_assoc.
  apply Z.mul_le_mono_nonneg_r; assumption.
Qed.

Lemma counters_le k n mt et :
  (0 < k)%nat -> (k <= n)%nat -> Z.of_nat n < Z.pos two53 ->
  is_canonical53 mt -> et <= 0 ->
  Z.of_nat k * 2 ^ (- et) <= Z.pos mt * Z.of_nat n ->
  SFleb (div (of_nat k) (of_nat n)) (S754_finite false mt et) = true.
Proof.
  intros Hk Hkn Hb Hmt Het Hle.
  destruct (NumberFacts.of_nat_canonical n ltac:(lia) Hb)
    as (mn & dn & -> & Hdn & Hmn & Hvn & Hrn).
  destruct (NumberFacts.of_nat_canonical k Hk ltac:(lia))
    as (mk & dk & -> & Hdk & Hmk & Hvk & Hrk).
  pose proof (counters_digits k n dk dn Hkn Hrk Hrn ltac:(lia) ltac:(lia)) as Hdd.
  destruct (counter_exponents k n mk dk mn dn et Hvk Hvn Hdk Hdn ltac:(lia))
    as (Ha & Hb' & Hab & Hl & Hr & Hp).
  eapply (div_upper mk (dk - 53) mn (dn - 53) mt et _ _ Hmk Hmn Hmt
            ltac:(lia) Ha Hb' Hab).
  rewrite Hr, <- (Z.mul_assoc (Z.pos mt) (Z.pos mn)), Hl,
    (Z.mul_assoc (Z.pos mt)).
  apply Z.mul_le_mono_nonneg_r; assumption.
Qed.

(** A quotient that is at most the Number just below a threshold does
    not reach the threshold. *)
Lemma below_threshold x m e :
  SFleb x (S754_finite false m e) = true -> (1 < m)%positive ->
  geb x (S754_finite false (Pos.succ m) e) = false.
Proof.
  intros Hle Hm. unfold geb.
  destruct (SFleb (S754_finite false (Pos.succ m) e) x) eqn:Hge; [|reflexivity].
  pose proof (SFleb_trans _ _ _ Hge Hle) as Habs.
  apply SFleb_finite in Habs. lia.
Qed.

Lemma SFltb_finite a ea b eb :
  SFltb (S754_finite false a ea) (S754_finite false b eb) = true
  <-> ea < eb \/ (ea = eb /\ Z.pos a < Z.pos b).
Proof.
  unfold SFltb, SFcompare.
  change (PosDef.Pos.compare_cont Eq) with Pos.compare.
  destruct (Z.compare_spec ea eb) as [->|Hlt|Hgt].
  - destruct (Pos.compare_spec a b) as [->|Hab|Hab]; split; intros Hc;
      try reflexivity; try discriminate; try (right; split; lia).
    + destruct Hc as [Hc|[_ Hc]]; lia.
    + destruct Hc as [Hc|[_ Hc]]; lia.
  - split; [intros _; left; exact Hlt | reflexivity].
  - split; [discriminate | intros [Hc|[Hc _]]; lia].
Qed.

(** A quotient that is at most a Number below a threshold does not reach
    the threshold. *)
Lemma below_number x m e mt et :
  SFleb x (S754_finite false m e) = true ->
  gtb (S754_finite false mt et) (S754_finite false m e) = true ->
  geb x (S754_finite false mt et) = false.
Proof.
  intros Hle Hlt. unfold geb, gtb in *.
  destruct (SFleb (S754_finite false mt et) x) eqn:Hge; [|reflexivity].
  pose proof (SFleb_trans _ _ _ Hge Hle) as Habs.
  apply SFleb_finite in Habs. apply SFltb_finite in Hlt. lia.
Qed.

End QuotientFacts.

Section Thresholds.

Implicit Types (docs : list ExtendDocument.t) (doc : ExtendDocument.t).
Implicit Types (query content : string) (terms : list string).

Lemma includedTerms_forallb content terms :
  (includedTerms content terms =? length terms)
  = forallb (JSString.includes content) terms.
Proof.
  induction terms as [|term terms IH]; [reflexivity|].
  pose proof (includedTerms_le content terms) as Hle.
  unfold includedTerms in *. cbn [List.filter forallb length].
  destruct (JSString.includes content term); cbn [length andb].
  - exact IH.
  - apply Nat.eqb_neq. lia.
Qed.

Lemma terms_positive terms : terms <> [] -> 0 < length terms.
Proof. destruct terms; [congruence | simpl; lia]. Qed.

(** The score of a candidate against a threshold [mt * 2^et]: it
    reaches the threshold if the fraction of the terms it includes
    does. *)
Lemma relevanceScore_reaches terms doc mt et :
  terms <> [] -> (Z.of_nat (length terms) < 2 ^ 53)%Z ->
  Number.is_canonical53 mt -> (et <= 0)%Z ->
  (Z.pos mt * Z.of_nat (length terms)
   <= Z.of_nat (includedTerms (JSString.toLowerCase (ExtendDocument.pageContent doc))
                  terms) * 2 ^ (- et))%Z ->
  Number.geb (relevanceScore terms doc) (S754_finite false mt et) = true.
Proof.
  intros Hne Hb Hmt Het Hle. unfold relevanceScore.
  rewrite score_count by exact Hb.
  pose proof (includedTerms_le
                (JSString.toLowerCase (ExtendDocument.pageContent doc)) terms)
    as Hkn.
  pose proof (terms_positive terms Hne) as Hn.
  apply QuotientFacts.counters_ge; try assumption.
  destruct (includedTerms _ terms) as [|k]; [|lia].
  exfalso. unfold Number.is_canonical53, Number.two52 in Hmt.
  change (Z.of_nat 0 * 2 ^ (- et))%Z with 0%Z in Hle. nia.
Qed.

(** It stays below the threshold if the fraction is at most the Number
    just below the threshold. *)
Lemma relevanceScore_misses terms doc m e :
  terms <> [] -> (Z.of_nat (length terms) < 2 ^ 53)%Z ->
  Number.is_canonical53 m -> (e <= 0)%Z ->
  (Z.of_nat (includedTerms (JSString.toLowerCase (ExtendDocument.pageContent doc))
               terms) * 2 ^ (- e)
   <= Z.pos m * Z.of_nat (length terms))%Z ->
  Number.geb (relevanceScore terms doc) (S754_finite false (Pos.succ m) e) = false.
Proof.
  intros Hne Hb Hm He Hle. unfold relevanceScore.
  rewrite score_count by exact Hb.
  pose proof (includedTerms_le
                (JSString.toLowerCase (ExtendDocument.pageContent doc)) terms)
    as Hkn.
  pose proof (terms_positive terms Hne) as Hn.
  destruct (includedTerms _ terms) as [|k] eqn:Ek.
  - rewrite NumberFacts.div_zero_l by assumption. reflexivity.
  - apply QuotientFacts.below_threshold.
    + apply QuotientFacts.counters_le; try assumption; lia.
    + unfold Number.is_canonical53, Number.two52 in Hm. lia.
Qed.

(** It stays below the threshold if the fraction is at most a normal
    Number below the threshold. *)
Lemma relevanceScore_below terms doc m e mt et :
  terms <> [] -> (Z.of_nat (length terms) < 2 ^ 53)%Z ->
  Number.is_canonical53 m -> (e <= 0)%Z ->
  Number.gtb (S754_finite false mt et) (S754_finite false m e) = true ->
  (Z.of_nat (includedTerms (JSString.toLowerCase (ExtendDocument.pageContent doc))
               terms) * 2 ^ (- e)
   <= Z.pos m * Z.of_nat (length terms))%Z ->
  Number.geb (relevanceScore terms doc) (S754_finite false mt et) = false.
Proof.
  intros Hne Hb Hm He Hlt Hle. unfold relevanceScore.
  rewrite score_count by exact Hb.
  pose proof (includedTerms_le
                (JSString.toLowerCase (ExtendDocument.pageContent doc)) terms)
    as Hkn.
  pose proof (terms_positive terms Hne) as Hn.
  destruct (includedTerms _ terms) as [|k] eqn:Ek.
  - rewrite NumberFacts.div_zero_l by assumption. reflexivity.
  - apply (QuotientFacts.below_number _ m e); [|exact Hlt].
    apply QuotientFacts.counters_le; try assumption; lia.
Qed.

(** X22.  Rounding never decides against the exact fraction.  For a
    threshold that is a normal Number [mt * 2^et] with [et <= 0] (every
    normal Number up to 1 is one, 1 and the powers of two included): a
    candidate that includes a fraction of the terms that is at least the
    threshold is kept; the candidate is dropped if the fraction is at
    most a normal Number [m * 2^e] that is below the threshold, the
    Number just below it for one. *)
Theorem relevanceScore_against_threshold terms doc mt et :
  terms <> [] -> (Z.of_nat (length terms) < 2 ^ 53)%Z ->
  Number.is_canonical53 mt -> (et <= 0)%Z ->
  ((Z.pos mt * Z.of_nat (length terms)
    <= Z.of_nat (includedTerms
                   (JSString.toLowerCase (ExtendDocument.pageContent doc)) terms)
       * 2 ^ (- et))%Z ->
   Number.geb (relevanceScore terms doc) (S754_finite false mt et) = true)
  /\ (forall m e,
        Number.is_canonical53 m -> (e <= 0)%Z ->
        Number.gtb (S754_finite false mt et) (S754_finite false m e) = true ->
        (Z.of_nat (includedTerms
                     (JSString.toLowerCase (ExtendDocument.pageContent doc)) terms)
         * 2 ^ (- e)
         <= Z.pos m * Z.of_nat (length terms))%Z ->
        Number.geb (relevanceScore terms doc) (S754_finite false mt et) = false).
Proof.
  intros Hne Hb Hmt Het. split.
  - apply relevanceScore_reaches; assumption.
  - intros m e Hm He Hlt Hle. apply (relevanceScore_below terms doc m e); assumption.
Qed.

(** X23.  The default threshold is three tenths: for a query with
    terms, up to 2^50 of them, the filter called with 0.3 keeps exactly
    the candidates that include at least three tenths of the terms. *)
Theorem filterByContentRelevance_default_threshold docs query :
  queryTerms query <> [] ->
  (Z.of_nat (length (queryTerms query)) <= 2 ^ 50)%Z ->
  filterByContentRelevance docs query threshold_default
  = List.filter
      (fun doc =>
         3 * length (queryTerms query)
         <=? 10 * includedTerms
                    (JSString.toLowerCase (ExtendDocument.pageContent doc))
                    (queryTerms query))
      docs.
Proof.
  intros Hne Hb. unfold filterByContentRelevance, threshold_default.
  apply filter_ext. intros doc.
  set (terms := queryTerms query) in *.
  set (k := includedTerms _ terms).
  assert (Hb53 : (Z.of_nat (length terms) < 2 ^ 53)%Z) by lia.
  destruct (Nat.leb_spec (3 * length terms) (10 * k)) as [Hge|Hlt].
  - apply relevanceScore_reaches; try assumption.
    + unfold Number.is_canonical53, Number.two52, Number.two53. lia.
    + lia.
    + fold k. change (2 ^ (- -54))%Z with 18014398509481984%Z. lia.
  - change Number.lit_0_3
      with (S754_finite false (Pos.succ 5404319552844594) (-54)).
    apply relevanceScore_misses; try assumption.
    + unfold Number.is_canonical53, Number.two52, Number.two53. lia.
    + lia.
    + fold k. change (2 ^ (- -54))%Z with 18014398509481984%Z.
      change (2 ^ 50)%Z with 1125899906842624%Z in Hb. lia.
Qed.

(** X24.  With threshold 1 the filter keeps exactly the candidates that
    include every term of a query that has a term, and none when the
    query has no term; these are the candidates whose score is 1.0: no
    rounding brings a partial match to 1. *)
Theorem filterByContentRelevance_threshold_one docs query :
  (Z.of_nat (length (queryTerms query)) < 2 ^ 53)%Z ->
  filterByContentRelevance docs query Number.one
  = List.filter
      (fun doc =>
         (0 <? length (queryTerms query))
         && forallb (JSString.includes
                       (JSString.toLowerCase (ExtendDocument.pageContent doc)))
              (queryTerms query))
      docs
  /\ (forall doc,
        relevanceScore (queryTerms query) doc = Number.one
        <-> queryTerms query <> []
            /\ forallb (JSString.includes
                          (JSString.toLowerCase (ExtendDocument.pageContent doc)))
                 (queryTerms query) = true).
Proof.
  intros Hb.
  set (terms := queryTerms query) in *.
  destruct terms as [|term0 terms0] eqn:Eterms.
  { split.
    - unfold filterByContentRelevance. fold terms. rewrite Eterms.
      apply filter_ext. intros doc. reflexivity.
    - intros doc. split; [discriminate|]. intros [Hne _]. congruence. }
  rewrite <- Eterms in *.
  assert (Hne : terms <> []) by (rewrite Eterms; discriminate).
  pose proof (terms_positive terms Hne) as Hn.
  assert (Hone : forall doc,
             Number.geb (relevanceScore terms doc) Number.one
             = forallb (JSString.includes
                          (JSString.toLowerCase (ExtendDocument.pageContent doc)))
                 terms).
  { intros doc. rewrite <- includedTerms_forallb.
    destruct (Nat.eqb_spec
                (includedTerms
                   (JSString.toLowerCase (ExtendDocument.pageContent doc)) terms)
                (length terms)) as [Heq|Hneq].
    - unfold relevanceScore. rewrite score_count, Heq by exact Hb.
      rewrite NumberFacts.div_self by assumption. reflexivity.
    - pose proof (includedTerms_le
                    (JSString.toLowerCase (ExtendDocument.pageContent doc)) terms)
        as Hle.
      destruct (includedTerms
                  (JSString.toLowerCase (ExtendDocument.pageContent doc)) terms)
        as [|k] eqn:Ek.
      + unfold relevanceScore. rewrite score_count, Ek by exact Hb.
        rewrite NumberFacts.div_zero_l by assumption. reflexivity.
      + unfold Number.geb.
        destruct (SFleb Number.one (relevanceScore terms doc)) eqn:Hge;
          [|reflexivity].
        exfalso.
        assert (Hup : SFleb (relevanceScore terms doc)
                        (S754_finite false 9007199254740991 (-53)) = true).
        { unfold relevanceScore. rewrite score_count, Ek by exact Hb.
          apply QuotientFacts.counters_le;
            [lia | exact Hle | exact Hb | | lia |].
          - unfold Number.is_canonical53, Number.two52, Number.two53. lia.
          - change (2 ^ (- -53))%Z with 9007199254740992%Z.
            change (2 ^ 53)%Z with 9007199254740992%Z in Hb. lia. }
        pose proof (SFleb_trans _ _ _ Hge Hup) as Habs. discriminate Habs. }
  assert (Hpos : (0 <? length terms) = true) by (apply Nat.ltb_lt; exact Hn).
  split.
  - unfold filterByContentRelevance. fold terms. apply filter_ext. intros doc.
    rewrite Hpos. apply Hone.
  - intros doc. rewrite <- Hone. split.
    + intros ->. split; [exact Hne | reflexivity].
    + intros [_ Hge]. rewrite Hone, <- includedTerms_forallb in Hge.
      apply Nat.eqb_eq in Hge.
      unfold relevanceScore. rewrite score_count, Hge by exact Hb.
      apply NumberFacts.div_self; assumption.
Qed.

End Thresholds.

Lemma relevanceScore_against_threshold_witness :
  Number.geb (relevanceScore ["setpoint"; "lamp"; "garage"] Sample.thermostat)
    Number.lit_0_3 = true
  /\ Number.geb (relevanceScore ["setpoint"; "lamp"; "garage"; "door"]
                   Sample.thermostat)
       Number.one = false.
Proof.
  split.
  - apply (relevanceScore_against_threshold ["setpoint"; "lamp"; "garage"]
             Sample.thermostat 5404319552844595 (-54)).
    + discriminate.
    + vm_compute. reflexivity.
    + unfold Number.is_canonical53, Number.two52, Number.two53. lia.
    + lia.
    + vm_compute. discriminate.
  - apply (relevanceScore_against_threshold ["setpoint"; "lamp"; "garage"; "door"]
             Sample.thermostat 4503599627370496 (-52))
      with (m := 9007199254740991%positive) (e := (-53)%Z).
    + discriminate.
    + vm_compute. reflexivity.
    + unfold Number.is_canonical53, Number.two52, Number.two53. lia.
    + lia.
    + unfold Number.is_canonical53, Number.two52, Number.two53. lia.
    + lia.
    + reflexivity.
    + vm_compute. discriminate.
Defined.

Lemma filterByContentRelevance_default_threshold_witness :
  queryTerms "setpoint lamp garage" <> []
  /\ filterByContentRelevance [Sample.thermostat; Sample.lights]
       "setpoint lamp garage" threshold_default
     = [Sample.thermostat].
Proof.
  assert (Hne : queryTerms "setpoint lamp garage" <> []) by discriminate.
  split; [exact Hne|].
  rewrite (filterByContentRelevance_default_threshold
             [Sample.thermostat; Sample.lights] "setpoint lamp garage" Hne).
  - reflexivity.
  - vm_compute. discriminate.
Defined.

Lemma filterByContentRelevance_threshold_one_witness :
  (Z.of_nat (length (queryTerms "temperature setpoint")) < 2 ^ 53)%Z
  /\ filterByContentRelevance [Sample.thermostat; Sample.lights]
       "temperature setpoint" Number.one
     = [Sample.thermostat].
Proof.
  assert (Hb : (Z.of_nat (length (queryTerms "temperature setpoint")) < 2 ^ 53)%Z)
    by (vm_compute; reflexivity).
  split; [exact Hb|].
  destruct (filterByContentRelevance_threshold_one
              [Sample.thermostat; Sample.lights] "temperature setpoint" Hb)
    as [-> _].
  vm_compute. reflexivity.
Defined.

(** ** Saving the response *)

Section SaveResponseFacts.

Variable path_join : string -> string -> string.
Variable JSON_stringify_indented : Response -> string.
Variable rejects : Fs.Call -> option JSError.

Lemma replaceColonsAndDots_length s :
  String.length (replaceColonsAndDots s) = String.length s.
Proof. induction s as [|c s IH]; simpl; congruence. Qed.

Lemma replaceColonsAndDots_clean s c :
  isColonOrDot c = true ->
  String.index 0 (String c EmptyString) (replaceColonsAndDots s) = None.
Proof.
  intros Hc. induction s as [|x s IH].
  - reflexivity.
  - cbn [replaceColonsAndDots].
    assert (Hx : Ascii.eqb c (if isColonOrDot x then "-"%char else x) = false).
    { destruct (isColonOrDot x) eqn:Ex.
      - unfold isColonOrDot in Hc. apply orb_true_iff in Hc.
        destruct Hc as [Hc|Hc]; apply Ascii.eqb_eq in Hc; subst c; reflexivity.
      - destruct (Ascii.eqb_spec c x) as [->|]; [congruence | reflexivity]. }
    cbn [String.index String.prefix].
    destruct (ascii_dec c (if isColonOrDot x then "-"%char else x)) as [Heq|_].
    { apply Ascii.eqb_eq in Heq. congruence. }
    destruct (replaceColonsAndDots s) as [|y s'] eqn:Es.
    + reflexivity.
    + rewrite IH. reflexivity.
Qed.

Lemma replaceColonsAndDots_get s n c :
  String.get n s = Some c ->
  String.get n (replaceColonsAndDots s)
  = Some (if isColonOrDot c then "-"%char else c).
Proof.
  revert n. induction s as [|x s IH]; intros n; [discriminate|].
  destruct n as [|n]; simpl.
  - intros [= ->]. reflexivity.
  - apply IH.
Qed.

(** X25.  A response that is saved goes to one file.  When no call on
    the file system is rejected, [saveResponse] creates the output
    directory and then writes once, the JSON text of the response, to the
    path joined from the output directory and a name that is
    ["response_"], the time stamp with each colon and dot replaced by a
    dash, and [".json"]: the stamp keeps its length, holds no colon and
    no dot, and is the time stamp everywhere else. *)
Theorem saveResponse_writes_one_file now query response :
  Saved.outcome
    (saveResponse path_join JSON_stringify_indented rejects now query response)
  = Returned tt ->
  exists stamp,
    Saved.calls
      (saveResponse path_join JSON_stringify_indented rejects now query response)
    = [Fs.Mkdir outputPath;
       Fs.WriteFile (path_join outputPath ("response_" +:+ stamp +:+ ".json"))
         (JSON_stringify_indented response)]
    /\ String.length stamp = String.length now
    /\ String.index 0 ":" stamp = None
    /\ String.index 0 "." stamp = None
    /\ (forall n c,
          String.get n now = Some c -> isColonOrDot c = false ->
          String.get n stamp = Some c).
Proof.
  intros Hout. exists (replaceColonsAndDots now). split.
  - unfold saveResponse in *.
    destruct (rejects (Fs.Mkdir outputPath)); [discriminate|].
    destruct (rejects _); [discriminate|]. reflexivity.
  - split; [apply replaceColonsAndDots_length|].
    split; [apply replaceColonsAndDots_clean; reflexivity|].
    split; [apply replaceColonsAndDots_clean; reflexivity|].
    intros n c Hget Hc. rewrite (replaceColonsAndDots_get now n c Hget), Hc.
    reflexivity.
Qed.

(** X26.  A rejected call ends [saveResponse] with the error of the
    rejection, thrown again as it is after it has been printed once: a
    rejected [mkdir] is the only call and nothing is written; when
    [mkdir] passes and the [writeFile] is rejected, these are the two
    calls.  [saveResponse] throws in no other case. *)
Theorem saveResponse_rethrows now query response error :
  (rejects (Fs.Mkdir outputPath) = Some error ->
   saveResponse path_join JSON_stringify_indented rejects now query response
   = Saved.mk [(LOG, MStartSaveResponse); (ERROR, MErrorSaving error)]
       [Fs.Mkdir outputPath] (Thrown error))
  /\ (rejects (Fs.Mkdir outputPath) = None ->
      rejects (Fs.WriteFile
                 (path_join outputPath
                    ("response_" +:+ replaceColonsAndDots now +:+ ".json"))
                 (JSON_stringify_indented response))
      = Some error ->
      saveResponse path_join JSON_stringify_indented rejects now query response
      = Saved.mk [(LOG, MStartSaveResponse); (ERROR, MErrorSaving error)]
          [Fs.Mkdir outputPath;
           Fs.WriteFile
             (path_join outputPath
                ("response_" +:+ replaceColonsAndDots now +:+ ".json"))
             (JSON_stringify_indented response)]
          (Thrown error))
  /\ (Saved.outcome
        (saveResponse path_join JSON_stringify_indented rejects now query response)
      = Thrown error ->
      rejects (Fs.Mkdir outputPath) = Some error
      \/ (rejects (Fs.Mkdir outputPath) = None
          /\ rejects (Fs.WriteFile
                        (path_join outputPath
                           ("response_" +:+ replaceColonsAndDots now +:+ ".json"))
                        (JSON_stringify_indented response))
             = Some error)).
Proof.
  unfold saveResponse, responseFileName. split; [|split].
  - intros ->. reflexivity.
  - intros -> ->. reflexivity.
  - destruct (rejects (Fs.Mkdir outputPath)) as [e|] eqn:Emkdir.
    + intros [= <-]. left. reflexivity.
    + destruct (rejects (Fs.WriteFile _ _)) as [e|] eqn:Ewrite; [|discriminate].
      intros [= <-]. right. split; reflexivity.
Qed.

End SaveResponseFacts.

Lemma saveResponse_writes_one_file_witness :
  Saved.calls
    (saveResponse (fun directory name => directory +:+ name)
       (fun _ => "{}") (fun _ => None)
       "2025-11-03T09:30:00.000Z" "setpoint" (Answer "21"))
  = [Fs.Mkdir outputPath;
     Fs.WriteFile
       "/home/luca/RagBaseNLP/src/response/response_2025-11-03T09-30-00-000Z.json"
       "{}"]
  /\ exists stamp,
      Saved.calls
        (saveResponse (fun directory name => directory +:+ name)
           (fun _ => "{}") (fun _ => None)
           "2025-11-03T09:30:00.000Z" "setpoint" (Answer "21"))
      = [Fs.Mkdir outputPath;
         Fs.WriteFile (outputPath +:+ ("response_" +:+ stamp +:+ ".json")) "{}"]
      /\ String.index 0 ":" stamp = None.
Proof.
  split; [reflexivity|].
  destruct (saveResponse_writes_one_file (fun directory name => directory +:+ name)
              (fun _ => "{}") (fun _ => None)
              "2025-11-03T09:30:00.000Z" "setpoint" (Answer "21") eq_refl)
    as (stamp & Hcalls & _ & Hcolon & _).
  exists stamp. split; [exact Hcalls | exact Hcolon].
Defined.

Lemma saveResponse_rethrows_witness :
  saveResponse (fun directory name => directory +:+ name)
    (fun _ => "{}")
    (fun call => match call with
                 | Fs.Mkdir _ => None
                 | Fs.WriteFile _ _ => Some (Error "EACCES")
                 end)
    "2025-11-03T09:30:00.000Z" "setpoint" SystemError
  = Saved.mk [(LOG, MStartSaveResponse); (ERROR, MErrorSaving (Error "EACCES"))]
      [Fs.Mkdir outputPath;
       Fs.WriteFile
         "/home/luca/RagBaseNLP/src/response/response_2025-11-03T09-30-00-000Z.json"
         "{}"]
      (Thrown (Error "EACCES")).
Proof.
  destruct (saveResponse_rethrows (fun directory name => directory +:+ name)
              (fun _ => "{}")
              (fun call => match call with
                           | Fs.Mkdir _ => None
                           | Fs.WriteFile _ _ => Some (Error "EACCES")
                           end)
              "2025-11-03T09:30:00.000Z" "setpoint" SystemError (Error "EACCES"))
    as (_ & Hwrite & _).
  exact (Hwrite eq_refl eq_refl).
Defined.
(** ** Blank files, single terms, and the two mappers in sequence *)

Section BlankFiles.

Context `{Runtime}.
Variable buildGlobalPartitionMap : JSValue -> PartitionMap.

Lemma trimStart_empty s :
  JSString.trimStart s = EmptyString <-> allWhiteSpace s = true.
Proof.
  induction s as [|c s IH]; simpl; [tauto|].
  destruct (JSString.isWhiteSpace c); simpl; [exact IH|].
  split; discriminate.
Qed.

Lemma trimStart_head s c s' :
  JSString.trimStart s = String c s' -> JSString.isWhiteSpace c = false.
Proof.
  induction s as [|x s IH]; simpl; [discriminate|].
  destruct (JSString.isWhiteSpace x) eqn:Ex; [exact IH|].
  intros [= <- _]. exact Ex.
Qed.

Lemma trim_blank s :
  String.length (JSString.trim s) = 0 <-> allWhiteSpace s = true.
Proof.
  unfold JSString.trim. rewrite <- trimStart_empty.
  destruct (JSString.trimStart s) as [|c s'] eqn:Et.
  - split; reflexivity.
  - pose proof (trimStart_head s c s' Et) as Hc.
    cbn [JSString.trimEnd]. rewrite Hc. split; discriminate.
Qed.

(** X27.  A file counts as empty exactly when it holds nothing but
    white space: for a file that could be read, [loadDocumentsJSON]
    throws ["Execution blocked: file contents empty."] if and only if
    every character of the file is white space (the file of no
    characters included). *)
Theorem loadDocumentsJSON_blank_file env rawContent :
  Env.fileContent env = Some rawContent ->
  (outcome (loadDocumentsJSON buildGlobalPartitionMap env)
   = Thrown (Error "Execution blocked: file contents empty.")
   <-> allWhiteSpace rawContent = true).
Proof.
  intros Hfile. rewrite <- trim_blank.
  destruct (loadDocumentsJSON_cases buildGlobalPartitionMap env)
    as [(Hnone & _) | [(raw & Hf & Hblank & Heq) | [(raw & Hf & Hnb & _ & Heq)
       | [(raw & json & Hf & Hnb & _ & _ & Heq)
       | [(raw & json & Hf & Hnb & _ & _ & _ & _ & Heq)
       | (raw & json & Hf & Hnb & _ & Hvalid & Heq)]]]]];
    try congruence;
    rewrite Hfile in Hf; injection Hf as <-; rewrite Heq.
  - split; [intros _; exact Hblank | reflexivity].
  - split; [discriminate | contradiction].
  - split; [discriminate | contradiction].
  - split; [discriminate | contradiction].
  - split; [|contradiction].
    destruct (loadInstallation buildGlobalPartitionMap env json)
      as [lg [result|e]] eqn:Erun; [discriminate|].
    rewrite (loadInstallation_thrown buildGlobalPartitionMap env json lg e Hvalid
               Erun).
    discriminate.
Qed.

End BlankFiles.

Section SingleTerm.

Implicit Types (docs : list ExtendDocument.t) (doc : ExtendDocument.t).
Implicit Types (query term s t : string).

Lemma String_prefix_spec t s :
  String.prefix t s = true <-> exists after, s = t +:+ after.
Proof.
  revert s. induction t as [|c t IH]; intros s.
  - split; [intros _; exists s; reflexivity | destruct s; reflexivity].
  - destruct s as [|x s]; simpl.
    + split; [discriminate | intros [after Habs]; discriminate].
    + destruct (ascii_dec c x) as [->|Hne].
      * rewrite IH. split; intros [after Heq]; exists after.
        -- rewrite Heq. reflexivity.
        -- injection Heq as ->. reflexivity.
      * split; [discriminate|]. intros [after Heq]. injection Heq as -> _.
        contradiction.
Qed.

(** [s.includes(t)]: [t] occurs in [s]. *)
Lemma includes_spec s t :
  JSString.includes s t = true <-> exists before after, s = before +:+ t +:+ after.
Proof.
  induction s as [|c s IH].
  - cbn [JSString.includes]. rewrite orb_false_r, String_prefix_spec. split.
    + intros [after Heq]. exists EmptyString, after. exact Heq.
    + intros (before & after & Heq). destruct before as [|x before];
        [exists after; exact Heq | discriminate].
  - cbn [JSString.includes]. rewrite orb_true_iff, String_prefix_spec, IH. split.
    + intros [[after Heq] | (before & after & Heq)].
      * exists EmptyString, after. exact Heq.
      * exists (String c before), after. rewrite Heq. reflexivity.
    + intros (before & after & Heq). destruct before as [|x before].
      * left. exists after. exact Heq.
      * right. exists before, after. simpl in Heq. injection Heq as _ ->.
        reflexivity.
Qed.

(** X28.  A query of one term keeps exactly the candidates in whose
    lower-cased payload the term occurs, as a substring and not as a
    word, at every threshold that 1 reaches and 0 does not. *)
Theorem filterByContentRelevance_single_term docs query term threshold :
  queryTerms query = [term] ->
  Number.geb Number.one threshold = true ->
  Number.geb Number.zero threshold = false ->
  filterByContentRelevance docs query threshold
  = List.filter
      (fun doc =>
         JSString.includes (JSString.toLowerCase (ExtendDocument.pageContent doc))
           term)
      docs
  /\ (forall doc,
        doc ∈ filterByContentRelevance docs query threshold <->
        doc ∈ docs
        /\ exists before after,
             JSString.toLowerCase (ExtendDocument.pageContent doc)
             = before +:+ term +:+ after).
Proof.
  intros Hterms Hone Hzero.
  assert (Heq : filterByContentRelevance docs query threshold
                = List.filter
                    (fun doc =>
                       JSString.includes
                         (JSString.toLowerCase (ExtendDocument.pageContent doc))
                         term)
                    docs).
  { unfold filterByContentRelevance. rewrite Hterms. apply filter_ext.
    intros doc. unfold relevanceScore, score. cbn [fold_left length].
    destruct (JSString.includes _ term).
    - change (Number.div (Number.add Number.zero Number.one) (Number.of_nat 1))
        with Number.one.
      exact Hone.
    - change (Number.div Number.zero (Number.of_nat 1)) with Number.zero.
      exact Hzero. }
  split; [exact Heq|].
  intros doc. rewrite Heq, <- includes_spec.
  rewrite list_elem_of_In, filter_In, <- list_elem_of_In. reflexivity.
Qed.

End SingleTerm.

Section Composition.

Context `{Runtime}.

Implicit Types (endpoint area jsonContent : JSValue) (p uuid : string).

Lemma omap_partitionOf_kept (items : list JSValue) p :
  JString p ∈ items -> p <> EmptyString ->
  identifierPartition p ∈ omap partitionOf items.
Proof.
  intros Hin Hp. apply list_elem_of_omap. exists (JString p).
  split; [exact Hin | apply partitionOf_identifier; exact Hp].
Qed.

(** An area and an endpoint that list the same identifier share the
    partition that stands for it. *)
Lemma shared_identifier endpoint area p :
  isArray (getProp area "partitions") = true ->
  JString p ∈ arrayItems (getProp area "partitions") -> p <> EmptyString ->
  JString p ∈ arrayItems (getProp endpoint "partitions") ->
  identifierPartition p ∈ sharedPartitions endpoint (areaPartitionMapOf area).
Proof.
  intros Harr Hin Hp Hep. unfold sharedPartitions, areaPartitionMapOf.
  cbn [AreaPartitionMap.partitions]. rewrite Harr.
  apply list_elem_of_In, filter_In. split.
  - apply list_elem_of_In, omap_partitionOf_kept; assumption.
  - unfold Array_includes. apply existsb_exists. exists (JString p).
    split; [apply list_elem_of_In, Hep | apply sameValueZero_refl].
Qed.

Lemma filter_mapped_split (areas_before : list JSValue) area areas_after :
  areaMapped area = true ->
  areaPartitionMapOf <$> List.filter areaMapped (areas_before ++ area :: areas_after)
  = (areaPartitionMapOf <$> List.filter areaMapped areas_before)
    ++ areaPartitionMapOf area
       :: (areaPartitionMapOf <$> List.filter areaMapped areas_after).
Proof.
  intros Hacc. rewrite List.filter_app. cbn [List.filter]. rewrite Hacc.
  rewrite fmap_app, fmap_cons. reflexivity.
Qed.

(** X29.  The two mappers in sequence, as [loadDocumentsJSON] calls
    them.  An endpoint with a [uuid] that no earlier endpoint bears, and
    an area that is given a map and lists one of the identifiers the
    endpoint lists: if no area that is given a map before it shares a
    partition with the endpoint, then, whenever both mappers return, the
    relation of the endpoint is with that area, and it holds the
    identifier, located by the name made for it.  Both mappers return
    when the names and identifiers that they print can be converted to
    strings. *)
Theorem mappers_relate_shared_identifier jsonContent areasRef areas_before area
    areas_after endpointsRef earlier endpoint later uuid partitionsRef partitions p :
  getProp jsonContent "areas" = JArray areasRef (areas_before ++ area :: areas_after) ->
  getProp jsonContent "endpoints"
  = JArray endpointsRef (earlier ++ endpoint :: later) ->
  getProp endpoint "uuid" = JString uuid -> uuid <> EmptyString ->
  getProp endpoint "partitions" = JArray partitionsRef partitions ->
  JString p ∈ partitions -> p <> EmptyString ->
  areaMapped area = true -> isArray (getProp area "partitions") = true ->
  JString p ∈ arrayItems (getProp area "partitions") ->
  Forall (fun other => sameValueZero (getProp other "uuid") (JString uuid) = false)
    earlier ->
  Forall (fun other =>
            areaMapped other = true ->
            sharesPartition endpoint (areaPartitionMapOf other) = false)
    areas_before ->
  (forall lg maps lg' relations,
     buildAreaPartitionMaps jsonContent = (lg, Returned maps) ->
     buildEndpointAreaRelations jsonContent maps = (lg', Returned relations) ->
     exists relation,
       JSMap.get relations (JString uuid) = Some relation
       /\ EndpointAreaRelation.areaUuid relation = getProp area "uuid"
       /\ EndpointAreaRelation.areaName relation = getProp area "name"
       /\ JString p ∈ EndpointAreaRelation.partitionUuids relation
       /\ JString ("Partition_" +:+ JSString.substring_0_8 p)
          ∈ EndpointAreaRelation.location relation)
  /\ (Forall (fun a => areaPrintable a = true) (areas_before ++ area :: areas_after) ->
      Forall (fun ep => endpointPrintable ep = true) (earlier ++ endpoint :: later) ->
      exists lg maps lg' relations,
        buildAreaPartitionMaps jsonContent = (lg, Returned maps)
        /\ buildEndpointAreaRelations jsonContent maps = (lg', Returned relations)).
Proof.
  intros Hareas Hendpoints Huuid Hne Hparts Hp Hpne Hacc Harr Hparea Hearlier
    Hbefore.
  assert (Hnn : nullish jsonContent = false).
  { destruct jsonContent; try reflexivity; discriminate. }
  destruct (buildAreaPartitionMaps_maps jsonContent Hnn) as (lg0 & Hmaps).
  rewrite Hareas in Hmaps. cbn [arrayItems] in Hmaps.
  rewrite (filter_mapped_split areas_before area areas_after Hacc) in Hmaps.
  set (maps_before := areaPartitionMapOf <$> List.filter areaMapped areas_before)
    in *.
  set (maps_after := areaPartitionMapOf <$> List.filter areaMapped areas_after)
    in *.
  assert (Hshared : identifierPartition p
                    ∈ sharedPartitions endpoint (areaPartitionMapOf area)).
  { apply shared_identifier; try assumption. rewrite Hparts. exact Hp. }
  assert (Hshare : sharesPartition endpoint (areaPartitionMapOf area) = true).
  { unfold sharesPartition. apply Nat.ltb_lt.
    destruct (sharedPartitions endpoint (areaPartitionMapOf area));
      [inversion Hshared | simpl; lia]. }
  assert (Hnoshare : Forall (fun a => sharesPartition endpoint a = false) maps_before).
  { unfold maps_before. apply Forall_fmap, Forall_forall. intros other Hin.
    apply list_elem_of_In, filter_In in Hin. destruct Hin as [Hin Hother].
    rewrite Forall_forall in Hbefore.
    apply Hbefore; [apply list_elem_of_In, Hin | exact Hother]. }
  destruct (relateEndpoints_first_match maps_before (areaPartitionMapOf area)
              maps_after earlier endpoint later uuid partitionsRef
              partitions Huuid Hne Hparts Hearlier Hnoshare Hshare)
    as (Hget & _ & _).
  destruct (buildEndpointAreaRelations_loop jsonContent
              (maps_before ++ areaPartitionMapOf area :: maps_after)
              endpointsRef (earlier ++ endpoint :: later))
    as (lg1 & Hrun).
  { rewrite Hareas. reflexivity. }
  { destruct maps_before; discriminate. }
  { exact Hendpoints. }
  split.
  - intros lg maps lg' relations Hm Hr.
    rewrite Hmaps in Hm. injection Hm as _ <-.
    rewrite Hrun in Hr.
    destruct (snd (debugReport _ _ _)); [|discriminate].
    injection Hr as _ <-.
    eexists. split; [exact Hget|].
    split; [reflexivity|]. split; [reflexivity|].
    cbn [mkRelation EndpointAreaRelation.partitionUuids
           EndpointAreaRelation.location].
    split; apply list_elem_of_fmap; exists (identifierPartition p);
      (split; [reflexivity | exact Hshared]).
  - intros Hpareas Hpall.
    eexists lg0, _. rewrite Hrun.
    pose proof (relateEndpoints_provenance
                  (maps_before ++ areaPartitionMapOf area :: maps_after)
                  (earlier ++ endpoint :: later)) as Hfrom.
    destruct (debugReport_returns _ _ _ Hfrom) as [lg5 Hret].
    + unfold maps_before, maps_after.
      rewrite <- (filter_mapped_split areas_before area areas_after Hacc).
      apply Forall_fmap, Forall_forall. intros a Hin.
      apply list_elem_of_In, filter_In in Hin. destruct Hin as [Hin _].
      apply areaPartitionMapOf_printable.
      rewrite Forall_forall in Hpareas. apply Hpareas, list_elem_of_In, Hin.
    + exact Hpall.
    + intros Hnil. rewrite Hnil in Hget. discriminate.
    + rewrite Hret. eexists _, _. split; [exact Hmaps | reflexivity].
Qed.

End Composition.

Lemma loadDocumentsJSON_blank_file_witness :
  allWhiteSpace Sample.blankText = true
  /\ outcome (@loadDocumentsJSON Sample.runtime buildGlobalPartitionMap_spec
                (Sample.env (Some Sample.blankText)))
     = Thrown (Error "Execution blocked: file contents empty.").
Proof.
  split; [reflexivity|].
  apply (@loadDocumentsJSON_blank_file Sample.runtime buildGlobalPartitionMap_spec
           (Sample.env (Some Sample.blankText)) Sample.blankText eq_refl).
  reflexivity.
Defined.

Lemma filterByContentRelevance_single_term_witness :
  queryTerms "is temp on" = ["temp"]
  /\ filterByContentRelevance [Sample.thermostat; Sample.lights] "is temp on"
       threshold_default
     = [Sample.thermostat].
Proof.
  split; [reflexivity|].
  destruct (filterByContentRelevance_single_term
              [Sample.thermostat; Sample.lights] "is temp on" "temp"
              threshold_default eq_refl eq_refl eq_refl) as [Heq _].
  rewrite Heq. reflexivity.
Defined.

Lemma mappers_relate_shared_identifier_witness :
  exists lg maps lg' relations relation,
    buildAreaPartitionMaps Sample.installation = (lg, Returned maps)
    /\ @buildEndpointAreaRelations Sample.runtime Sample.installation maps
       = (lg', Returned relations)
    /\ JSMap.get relations (JString "e1") = Some relation
    /\ EndpointAreaRelation.areaName relation = JString "Kitchen"
    /\ JString "Partition_p1" ∈ EndpointAreaRelation.location relation.
Proof.
  destruct (@mappers_relate_shared_identifier Sample.runtime Sample.installation
              25 [Sample.hallway] Sample.kitchen [Sample.garden]
              24 [] Sample.sensor [Sample.lamp] "e1" 22 [JString "p1"] "p1")
    as [Hrelated Hreturn].
  - reflexivity.
  - reflexivity.
  - reflexivity.
  - discriminate.
  - reflexivity.
  - left.
  - discriminate.
  - reflexivity.
  - reflexivity.
  - left.
  - constructor.
  - constructor; [intros _; reflexivity | constructor].
  - destruct Hreturn as (lg & maps & lg' & relations & Hmaps & Hrun);
      [repeat constructor | repeat constructor |].
    destruct (Hrelated lg maps lg' relations Hmaps Hrun)
      as (relation & Hget & _ & Hname & _ & Hloc).
    exists lg, maps, lg', relations, relation.
    split; [exact Hmaps|]. split; [exact Hrun|]. split; [exact Hget|].
    split; [exact Hname | exact Hloc].
Defined.

(** ** An endpoint that cannot be named *)

Section UnnamedEndpoint.

Context `{Runtime}.

Implicit Types (endpoint jsonContent : JSValue).
Implicit Types (maps : list AreaPartitionMap.t) (lg : list LogEntry).

(** The round of an endpoint with partitions, a truthy [uuid] that is
    not a string and no [name]: [endpoint.uuid.substring] is not a
    function, the TypeError is caught and printed, and the relations stay
    as they are. *)
Lemma relateEndpoint_unnamed maps endpointIndex endpoint partitionsRef partition
    partitions lg st :
  truthy (getProp endpoint "uuid") = true ->
  typeof (getProp endpoint "uuid") <> TString ->
  truthy (getProp endpoint "name") = false ->
  getProp endpoint "partitions" = JArray partitionsRef (partition :: partitions) ->
  relateEndpoint maps endpointIndex endpoint (lg, st)
  = (lg ++ [(ERROR, MEndpointError endpointIndex TypeError)],
     RelationState.mk (RelationState.relations st)
       (RelationState.totalEndpointsProcessed st + 1)
       (RelationState.totalRelationsCreated st)).
Proof.
  intros Huuid Htype Hname Hparts.
  assert (Htruthy : truthy endpoint = true).
  { destruct endpoint as [| |b|x|s|r items|r props]; try discriminate;
      reflexivity. }
  assert (Hthrow : endpointDisplayName endpoint = Thrown TypeError).
  { unfold endpointDisplayName. rewrite Hname.
    destruct (getProp endpoint "uuid"); try reflexivity.
    exfalso. apply Htype. reflexivity. }
  unfold relateEndpoint. rewrite Htruthy, Huuid, Hparts, Hthrow. reflexivity.
Qed.

(** X30.  An endpoint that cannot be named is passed over, and the
    loop goes on.  For an endpoint with partitions, a truthy [uuid] that
    is not a string and no [name], building the name [Device_...] is a
    TypeError: it is caught and printed with the index of the endpoint,
    and, when no other endpoint bears the same [uuid], the map returned
    has nothing under it, whatever partitions the endpoint shares. *)
Theorem buildEndpointAreaRelations_unnamed_endpoint jsonContent maps endpointsRef
    earlier endpoint later partitionsRef partition partitions :
  isArray (getProp jsonContent "areas") = true -> maps <> [] ->
  getProp jsonContent "endpoints"
  = JArray endpointsRef (earlier ++ endpoint :: later) ->
  truthy (getProp endpoint "uuid") = true ->
  typeof (getProp endpoint "uuid") <> TString ->
  truthy (getProp endpoint "name") = false ->
  getProp endpoint "partitions" = JArray partitionsRef (partition :: partitions) ->
  (ERROR, MEndpointError (length earlier) TypeError)
  ∈ console (buildEndpointAreaRelations jsonContent maps)
  /\ (Forall (fun other =>
                sameValueZero (getProp other "uuid") (getProp endpoint "uuid")
                = false) (earlier ++ later) ->
      forall lg relations,
        buildEndpointAreaRelations jsonContent maps = (lg, Returned relations) ->
        JSMap.get relations (getProp endpoint "uuid") = None).
Proof.
  intros Hareas Hmaps Hendpoints Huuid Htype Hname Hparts.
  destruct (buildEndpointAreaRelations_loop jsonContent maps endpointsRef
              (earlier ++ endpoint :: later) Hareas Hmaps Hendpoints)
    as (lg0 & Hrun).
  split.
  - rewrite Hrun. unfold console. cbn [fst].
    apply elem_of_app. right. apply elem_of_app. left.
    rewrite relateEndpoints_app. cbn [relateEndpoints].
    destruct (relateEndpoints maps 0 earlier noRelations) as [lg st].
    rewrite (relateEndpoint_unnamed maps (0 + length earlier) endpoint
               partitionsRef partition partitions lg st Huuid Htype Hname Hparts).
    destruct (relateEndpoints_extends maps (S (0 + length earlier)) later
                (lg ++ [(ERROR, MEndpointError (0 + length earlier) TypeError)],
                 RelationState.mk (RelationState.relations st)
                   (RelationState.totalEndpointsProcessed st + 1)
                   (RelationState.totalRelationsCreated st)))
      as ([lg' Hlog] & _).
    rewrite Hlog. cbn [fst].
    apply elem_of_app. left. apply elem_of_app. right. left.
  - intros Hothers lg relations Hreturned.
    destruct (JSMap.get relations (getProp endpoint "uuid")) as [relation|] eqn:Eget;
      [|reflexivity].
    exfalso.
    destruct (JSMap_get_entry relations _ relation Eget) as (key & Hin & Hkey).
    destruct (buildEndpointAreaRelations_returned _ _ _ _ Hreturned)
      as [-> | (ref & endpoints & _ & _ & Hendpoints' & -> & _)]; [inversion Hin|].
    rewrite Hendpoints in Hendpoints'. injection Hendpoints' as _ <-.
    pose proof (relateEndpoints_provenance maps (earlier ++ endpoint :: later))
      as Hall.
    rewrite Forall_forall in Hall.
    destruct (Hall _ Hin)
      as (other & otherName & areaMap & Hother & _ & Hnamed & _ & Hk & _ & _).
    cbn [fst] in Hk. subst key.
    apply elem_of_app in Hother. destruct Hother as [Hother|Hother].
    + rewrite Forall_forall in Hothers.
      rewrite (Hothers other) in Hkey; [discriminate|].
      apply elem_of_app. left. exact Hother.
    + apply elem_of_cons in Hother. destruct Hother as [->|Hother].
      * unfold endpointDisplayName in Hnamed. rewrite Hname in Hnamed.
        destruct (getProp endpoint "uuid"); try discriminate.
        apply Htype. reflexivity.
      * rewrite Forall_forall in Hothers.
        rewrite (Hothers other) in Hkey; [discriminate|].
        apply elem_of_app. right. exact Hother.
Qed.

End UnnamedEndpoint.

Lemma buildEndpointAreaRelations_unnamed_endpoint_witness :
  (ERROR, MEndpointError 1 TypeError)
  ∈ console (@buildEndpointAreaRelations Sample.runtime Cases.numbered
               [Sample.kitchenMap])
  /\ JSMap.get
       (match outcome (@buildEndpointAreaRelations Sample.runtime Cases.numbered
                         [Sample.kitchenMap]) with
        | Returned relations => relations
        | Thrown _ => JSMap.empty
        end)
       (JNumber (Number.of_nat 7))
     = None.
Proof.
  destruct (@buildEndpointAreaRelations_unnamed_endpoint Sample.runtime
              Cases.numbered [Sample.kitchenMap] 61 [Sample.sensor] Cases.seventh
              [] 62 (JString "p1") [])
    as [Hlog Hnone].
  - reflexivity.
  - discriminate.
  - reflexivity.
  - reflexivity.
  - discriminate.
  - reflexivity.
  - reflexivity.
  - split; [exact Hlog|].
    destruct (@buildEndpointAreaRelations Sample.runtime Cases.numbered
                [Sample.kitchenMap]) as [lg [relations|e]] eqn:Erun;
      [|reflexivity].
    apply (Hnone ltac:(repeat constructor) lg relations eq_refl).
Defined.
